(** * QuaLiKiz job-lifecycle manager: [tools/qualikiz/qualikizrun.py]

    A shallow embedding of the Python module in Rocq.  The functions of the
    module ([Run.__init__], [Run.to_file], [EmptyJob.__init__],
    [EmptyJob.to_file], [recursive_function], [run_job]) are state
    transformers over a [world]: a POSIX file system with symbolic links,
    the working directory, the terminal (lines waiting on stdin, text
    printed on stdout), the warnings issued so far, the clock and the
    answers of the external commands.

    Scope of the model.  Python exceptions are the instances of
    [Exception]; interpreter-level signals (KeyboardInterrupt, SystemExit)
    are outside it.  File permissions, quotas, name-length limits and a
    trailing slash on a path are not modelled.  A Python [str] is
    represented by its UTF-8 bytes, so text files are written as they
    are. *)

From Stdlib Require Import String Ascii ZArith List Bool Lia.
From stdpp Require Import base option list gmap strings.

Open Scope string_scope.
Open Scope list_scope.

(** ** Python strings and byte strings *)

Module Py.

Fixpoint startswith (pre s : string) : bool :=
  match pre, s with
  | EmptyString, _ => true
  | String a pre', String b s' => Ascii.eqb a b && startswith pre' s'
  | String _ _, EmptyString => false
  end.

Fixpoint last_char (s : string) : option ascii :=
  match s with
  | EmptyString => None
  | String c EmptyString => Some c
  | String _ s' => last_char s'
  end.

Definition endswith_char (c : ascii) (s : string) : bool :=
  match last_char s with
  | Some d => Ascii.eqb c d
  | None => false
  end.

(** [s.split(sep)] for a one-character separator: never empty. *)
Fixpoint split (sep : ascii) (s : string) : list string :=
  match s with
  | EmptyString => [""]
  | String c s' =>
      if Ascii.eqb c sep then "" :: split sep s'
      else match split sep s' with
           | [] => [String c ""]
           | w :: ws => String c w :: ws
           end
  end.

(** [sep.join(l)] *)
Fixpoint join (sep : string) (l : list string) : string :=
  match l with
  | [] => ""
  | [x] => x
  | x :: rest => x +:+ sep +:+ join sep rest
  end.

(** ASCII whitespace, as [bytes.split()] and [bytes.strip()] see it:
    space, tab, newline, vertical tab, form feed, carriage return. *)
Definition is_space (c : ascii) : bool :=
  let n := nat_of_ascii c in
  Nat.eqb n 32 || (Nat.leb 9 n && Nat.leb n 13).

(** [b.split()] with no argument: the maximal runs of non-whitespace. *)
Fixpoint split_ws_go (cur : option string) (s : string) : list string :=
  match s with
  | EmptyString => match cur with Some w => [String.rev w] | None => [] end
  | String c s' =>
      if is_space c then
        match cur with
        | Some w => String.rev w :: split_ws_go None s'
        | None => split_ws_go None s'
        end
      else
        split_ws_go (Some (String c (default "" cur))) s'
  end.
Definition split_ws (s : string) : list string := split_ws_go None s.

Fixpoint lstrip (s : string) : string :=
  match s with
  | EmptyString => ""
  | String c s' => if is_space c then lstrip s' else s
  end.
(** [b.strip()] *)
Definition strip (s : string) : string :=
  String.rev (lstrip (String.rev (lstrip s))).

(** [l[-1]]: raises IndexError on an empty list. *)
Definition last_item {A} (l : list A) : option A := last l.

(** Universal-newlines translation done by a text-mode read:
    "\r\n" and a lone "\r" both become "\n". *)
Fixpoint universal_newlines (s : string) : string :=
  match s with
  | EmptyString => ""
  | String c s' =>
      if Ascii.eqb c "013" then
        match s' with
        | String d s'' =>
            if Ascii.eqb d "010" then String "010" (universal_newlines s'')
            else String "010" (universal_newlines s')
        | EmptyString => String "010" ""
        end
      else String c (universal_newlines s')
  end.

(** [file.readlines()] on already translated text: the lines, each with
    its terminating "\n" (the last one may lack it). *)
Fixpoint readlines (s : string) : list string :=
  match s with
  | EmptyString => []
  | String c s' =>
      if Ascii.eqb c "010" then String c "" :: readlines s'
      else match readlines s' with
           | [] => [String c ""]
           | line :: lines => String c line :: lines
           end
  end.

(** [file.writelines(lines)] writes the items one after the other. *)
Definition writelines (lines : list string) : string := join "" lines.

End Py.

(** ** [posixpath] *)

Module posixpath.

Definition sep : ascii := "/"%char.

Definition isabs (s : string) : bool := Py.startswith "/" s.

(** [os.path.join(a, b)] *)
Definition join (a b : string) : string :=
  if Py.startswith "/" b then b
  else if String.eqb a "" || Py.endswith_char sep a then a +:+ b
  else a +:+ "/" +:+ b.

(** [os.path.basename(p)]: what follows the last slash. *)
Definition basename (p : string) : string :=
  default "" (last (Py.split sep p)).

(** The loop of [normpath]; [new_comps] is kept reversed, so that
    [new_comps[-1]] is its head and [pop()] drops the head. *)
Fixpoint normpath_loop (initial_slashes : nat) (comps new_comps : list string)
  : list string :=
  match comps with
  | [] => rev new_comps
  | comp :: rest =>
      if String.eqb comp "" || String.eqb comp "." then
        normpath_loop initial_slashes rest new_comps
      else if negb (String.eqb comp "..")
              || (Nat.eqb initial_slashes 0 && bool_decide (new_comps = []))
              || match new_comps with
                 | top :: _ => String.eqb top ".."
                 | [] => false
                 end
      then normpath_loop initial_slashes rest (comp :: new_comps)
      else match new_comps with
           | _ :: popped => normpath_loop initial_slashes rest popped
           | [] => normpath_loop initial_slashes rest new_comps
           end
  end.

Fixpoint slashes (n : nat) : string :=
  match n with O => "" | S k => String sep (slashes k) end.

(** [os.path.normpath(path)] *)
Definition normpath (path : string) : string :=
  if String.eqb path "" then "."
  else
    let initial_slashes :=
      if Py.startswith "/" path then
        if Py.startswith "//" path && negb (Py.startswith "///" path)
        then 2 else 1
      else 0 in
    let comps := normpath_loop initial_slashes (Py.split sep path) [] in
    let path' := slashes initial_slashes +:+ Py.join "/" comps in
    if String.eqb path' "" then "." else path'.

(** [os.path.abspath(path)], given the answer of [os.getcwd()]. *)
Definition abspath (cwd path : string) : string :=
  if isabs path then normpath path else normpath (join cwd path).

End posixpath.

(** ** Exceptions, values and the world *)

Inductive exn : Type :=
| PathException (message : string)
| FileExistsError (path : string)
| FileNotFoundError (path : string)
| NotADirectoryError (path : string)
| IsADirectoryError (path : string)
| OSError (message : string)
| EOFError
| IndexError
| UnicodeDecodeError
| CalledProcessError (returncode : Z) (cmd : string)
| PicklingError
| RecursionError
| RuntimeError (message : string).

(** [class PathException(Exception)]: the message built by its [__init__]. *)
Definition PathException_init (path : string) : exn :=
  PathException (path +:+ " must be an absolute path or bad things will happen!").

Definition is_FileExistsError (e : exn) : bool :=
  match e with FileExistsError _ => true | _ => false end.

(** The subclasses of [OSError] among the exceptions above. *)
Definition is_OSError (e : exn) : bool :=
  match e with
  | FileExistsError _ | FileNotFoundError _ | NotADirectoryError _
  | IsADirectoryError _ | OSError _ => true
  | _ => false
  end.

(** What a Python function of the module returns. *)
Inductive value : Type :=
| VNone
| VInt (n : Z)
| VStr (s : string).

Inductive node : Type :=
| Dir
| File (content : string)
| Symlink (target : string).

(** What [warn] was called with: an exception object or a text. *)
Inductive warning : Type :=
| WarnExn (e : exn)
| WarnText (message : string).

Record datetime : Type := mk_datetime {
  year : nat; month : nat; day : nat;
  hour : nat; minute : nat; second : nat; microsecond : nat
}.

(** The file system is a finite map from canonical locations (the names
    from the root down, no symbolic link among them) to nodes; the root
    [[]] is always a directory. *)
Record world : Type := mk_world {
  files : gmap (list string) node;
  cwd : list string;
  stdin : list string;
  stdout : list string;
  warnings : list warning;
  clock : datetime;
  shell : string -> Z * string
}.

Definition set_files (f : gmap (list string) node) (w : world) : world :=
  mk_world f (cwd w) (stdin w) (stdout w) (warnings w) (clock w) (shell w).
Definition set_stdin (l : list string) (w : world) : world :=
  mk_world (files w) (cwd w) l (stdout w) (warnings w) (clock w) (shell w).
Definition push_stdout (s : string) (w : world) : world :=
  mk_world (files w) (cwd w) (stdin w) (stdout w ++ [s]) (warnings w) (clock w) (shell w).
Definition push_warning (x : warning) (w : world) : world :=
  mk_world (files w) (cwd w) (stdin w) (stdout w) (warnings w ++ [x]) (clock w) (shell w).

(** ** The monad of the embedding: state and exceptions *)

Inductive outcome (A : Type) : Type :=
| Ret (a : A)
| Raise (e : exn).
Arguments Ret {A} a.
Arguments Raise {A} e.

Definition M (A : Type) : Type := world -> outcome A * world.

Definition ret {A} (a : A) : M A := fun w => (Ret a, w).
Definition raise {A} (e : exn) : M A := fun w => (Raise e, w).
Definition bind {A B} (m : M A) (k : A -> M B) : M B :=
  fun w => match m w with
           | (Ret a, w') => k a w'
           | (Raise e, w') => (Raise e, w')
           end.

Declare Scope py_scope.
Delimit Scope py_scope with py.
Notation "x <- m ;; k" := (bind m (fun x => k))
  (at level 100, m at next level, right associativity) : py_scope.
Notation "m ;; k" := (bind m (fun _ => k))
  (at level 100, right associativity) : py_scope.
Open Scope py_scope.

(** [try: body except <catches> as e: handler e] *)
Definition try_except {A} (body : M A) (catches : exn -> bool)
    (handler : exn -> M A) : M A :=
  fun w => match body w with
           | (Ret a, w') => (Ret a, w')
           | (Raise e, w') => if catches e then handler e w' else (Raise e, w')
           end.

Definition gets {A} (f : world -> A) : M A := fun w => (Ret (f w), w).
Definition modify (f : world -> world) : M unit := fun w => (Ret tt, f w).

(** [print(s)] and [print(s, end='')] *)
Definition print (s : string) : M unit := modify (push_stdout (s +:+ String "010" "")).
Definition print_noend (s : string) : M unit := modify (push_stdout s).

(** [warn(x)] *)
Definition warn (x : warning) : M unit := modify (push_warning x).

(** [input(prompt)]: the prompt goes to stdout, the next line of stdin
    comes back without its newline; end of input raises [EOFError]. *)
Definition input (prompt : string) : M string :=
  fun w => let w1 := push_stdout prompt w in
           match stdin w1 with
           | [] => (Raise EOFError, w1)
           | line :: rest => (Ret line, set_stdin rest w1)
           end.

(** ** The file system: path resolution *)

Module FS.

Inductive errno : Type := ENOENT | ENOTDIR | ELOOP.

Definition lookup_node (fs : gmap (list string) node) (k : list string)
  : option node :=
  match k with
  | [] => Some Dir
  | _ => fs !! k
  end.

Definition parent (k : list string) : list string := removelast k.

(** The names of a path, empty ones (doubled slashes) dropped. *)
Definition components (p : string) : list string :=
  filter (fun c => c <> "") (Py.split posixpath.sep p).

(** Linux gives up after 40 symbolic links in one resolution. *)
Definition MAXSYMLINKS : nat := 40.

(** Resolution from the directory [cur] along [comps].  The answer is the
    canonical location and the node found there, [None] when only the
    last name is missing.  With [nofollow] a symbolic link in last
    position is returned and not followed (lstat, mkdir, symlink). *)
Fixpoint walk (fuel : nat) (fs : gmap (list string) node) (nofollow : bool)
  : list string -> list string -> errno + (list string * option node) :=
  fix go (cur comps : list string) {struct comps} :=
    match comps with
    | [] => inr (cur, lookup_node fs cur)
    | c :: rest =>
        if decide (c = ".") then go cur rest
        else if decide (c = "..") then go (parent cur) rest
        else
          let k := cur ++ [c] in
          match fs !! k with
          | None => if decide (rest = []) then inr (k, None) else inl ENOENT
          | Some Dir => go k rest
          | Some (File x) =>
              if decide (rest = []) then inr (k, Some (File x)) else inl ENOTDIR
          | Some (Symlink t) =>
              if bool_decide (rest = []) && nofollow then inr (k, Some (Symlink t))
              else match fuel with
                   | O => inl ELOOP
                   | S fuel' =>
                       if decide (t = "") then inl ENOENT
                       else walk fuel' fs nofollow
                              (if posixpath.isabs t then [] else cur)
                              (components t ++ rest)
                   end
          end
    end.

Definition namei (nofollow : bool) (w : world) (p : string)
  : errno + (list string * option node) :=
  if decide (p = "") then inl ENOENT
  else walk MAXSYMLINKS (files w) nofollow
         (if posixpath.isabs p then [] else cwd w) (components p).

Definition oserror (e : errno) (p : string) : exn :=
  match e with
  | ENOENT => FileNotFoundError p
  | ENOTDIR => NotADirectoryError p
  | ELOOP => OSError ("Too many levels of symbolic links: " +:+ p)
  end.

Fixpoint strip_prefix (d k : list string) : option (list string) :=
  match d, k with
  | [], _ => Some k
  | x :: d', y :: k' => if decide (x = y) then strip_prefix d' k' else None
  | _ :: _, [] => None
  end.

Definition child_name (d k : list string) : option string :=
  match strip_prefix d k with
  | Some [n] => Some n
  | _ => None
  end.

(** The names directly inside the directory at location [d]. *)
Definition entries (fs : gmap (list string) node) (d : list string)
  : list string :=
  omap (fun kv => child_name d (fst kv)) (map_to_list fs).

(** Everything at or below location [d] removed. *)
Definition prune (fs : gmap (list string) node) (d : list string)
  : gmap (list string) node :=
  filter (fun kv => strip_prefix d (fst kv) = None) fs.

End FS.

(** ** [os], [os.path], [shutil], [open] *)

Definition os_getcwd : M string :=
  gets (fun w => "/" +:+ Py.join "/" (cwd w)).

(** [os.path.isdir(p)]: stat succeeds (links followed) on a directory. *)
Definition isdir (w : world) (p : string) : bool :=
  match FS.namei false w p with
  | inr (_, Some Dir) => true
  | _ => false
  end.
Definition os_path_isdir (p : string) : M bool := gets (fun w => isdir w p).

(** [os.path.exists(p)]: stat succeeds; a dangling link does not exist. *)
Definition exists_ (w : world) (p : string) : bool :=
  match FS.namei false w p with
  | inr (_, Some _) => true
  | _ => false
  end.
Definition os_path_exists (p : string) : M bool := gets (fun w => exists_ w p).

(** [os.listdir(p)] *)
Definition os_listdir (p : string) : M (list string) :=
  fun w => match FS.namei false w p with
           | inl e => (Raise (FS.oserror e p), w)
           | inr (_, None) => (Raise (FileNotFoundError p), w)
           | inr (k, Some Dir) => (Ret (FS.entries (files w) k), w)
           | inr (_, Some _) => (Raise (NotADirectoryError p), w)
           end.

(** [os.mkdir(p)] *)
Definition os_mkdir (p : string) : M unit :=
  fun w => match FS.namei true w p with
           | inl e => (Raise (FS.oserror e p), w)
           | inr (k, None) => (Ret tt, set_files (<[k := Dir]> (files w)) w)
           | inr (_, Some _) => (Raise (FileExistsError p), w)
           end.

(** [os.symlink(src, dst)] *)
Definition os_symlink (src dst : string) : M unit :=
  fun w => if decide (src = "") then (Raise (FileNotFoundError dst), w)
           else match FS.namei true w dst with
                | inl e => (Raise (FS.oserror e dst), w)
                | inr (k, None) =>
                    (Ret tt, set_files (<[k := Symlink src]> (files w)) w)
                | inr (_, Some _) => (Raise (FileExistsError dst), w)
                end.

(** [shutil.rmtree(p)]: refuses a symbolic link, needs a directory, and
    cannot remove the root itself once it has emptied it. *)
Definition shutil_rmtree (p : string) : M unit :=
  fun w => match FS.namei true w p with
           | inl e => (Raise (FS.oserror e p), w)
           | inr (_, None) => (Raise (FileNotFoundError p), w)
           | inr (_, Some (Symlink _)) =>
               (Raise (OSError "Cannot call rmtree on a symbolic link"), w)
           | inr (_, Some (File _)) => (Raise (NotADirectoryError p), w)
           | inr (k, Some Dir) =>
               let w' := set_files (FS.prune (files w) k) w in
               if decide (k = []) then (Raise (OSError "Device or resource busy"), w')
               else (Ret tt, w')
           end.

(** [open(p, 'w')] and [open(p, 'wb')]: the file is created or emptied
    (links followed) and its location is the handle. *)
Definition open_w (p : string) : M (list string) :=
  fun w => match FS.namei false w p with
           | inl e => (Raise (FS.oserror e p), w)
           | inr (k, None) | inr (k, Some (File _)) =>
               (Ret k, set_files (<[k := File ""]> (files w)) w)
           | inr (_, Some _) => (Raise (IsADirectoryError p), w)
           end.

(** [f.write(data)] through the handle: the data goes after what the file
    holds since it was opened.  Text is written as the bytes that stand
    for it (the encoding of the locale is taken to be UTF-8); a write
    that fails, for text that the locale cannot encode or for a full
    disk, is not part of the embedding. *)
Definition file_write (fd : list string) (data : string) : M unit :=
  modify (fun w => match files w !! fd with
                   | Some (File old) =>
                       set_files (<[fd := File (old +:+ data)]> (files w)) w
                   | _ => w
                   end).

(** [open(p)] followed by reading everything, as bytes. *)
Definition read_bytes (p : string) : M string :=
  fun w => match FS.namei false w p with
           | inl e => (Raise (FS.oserror e p), w)
           | inr (_, None) => (Raise (FileNotFoundError p), w)
           | inr (_, Some (File c)) => (Ret c, w)
           | inr (_, Some _) => (Raise (IsADirectoryError p), w)
           end.

(** ** Text and bytes

    A Python [str] is kept as the bytes of its UTF-8 encoding, so that
    decoding checks the bytes and hands them on. *)

Definition byte_val (c : ascii) : nat := nat_of_ascii c.
Definition utf8_cont (b : nat) : bool := Nat.leb 128 b && Nat.leb b 191.
Definition in_range (lo hi b : nat) : bool := Nat.leb lo b && Nat.leb b hi.

(** Well-formed UTF-8 (no overlong form, no surrogate, at most U+10FFFF). *)
Fixpoint utf8_valid (l : list nat) : bool :=
  match l with
  | [] => true
  | b0 :: r0 =>
      if Nat.ltb b0 128 then utf8_valid r0
      else match r0 with
           | [] => false
           | b1 :: r1 =>
               if in_range 194 223 b0 then utf8_cont b1 && utf8_valid r1
               else match r1 with
                    | [] => false
                    | b2 :: r2 =>
                        if Nat.eqb b0 224 then
                          in_range 160 191 b1 && utf8_cont b2 && utf8_valid r2
                        else if Nat.eqb b0 237 then
                          in_range 128 159 b1 && utf8_cont b2 && utf8_valid r2
                        else if in_range 225 239 b0 then
                          utf8_cont b1 && utf8_cont b2 && utf8_valid r2
                        else match r2 with
                             | [] => false
                             | b3 :: r3 =>
                                 (if Nat.eqb b0 240 then in_range 144 191 b1
                                  else if in_range 241 243 b0 then utf8_cont b1
                                  else if Nat.eqb b0 244 then in_range 128 143 b1
                                  else false)
                                 && utf8_cont b2 && utf8_cont b3 && utf8_valid r3
                             end
                    end
           end
  end.

(** [b.decode('utf-8')] *)
Definition decode_utf8 (b : string) : M string :=
  if utf8_valid (map byte_val (list_ascii_of_string b)) then ret b
  else raise UnicodeDecodeError.

(** [with open(p) as f: f.readlines()] in text mode: the bytes read are
    decoded, which raises [UnicodeDecodeError] on bytes that are no text
    (the encoding of the locale is taken to be UTF-8), and the newlines
    are translated. *)
Definition open_readlines (p : string) : M (list string) :=
  c <- read_bytes p ;;
  text <- decode_utf8 c ;;
  ret (Py.readlines (Py.universal_newlines text)).

(** [os.path.split(p)] *)
Fixpoint all_slashes (s : string) : bool :=
  match s with
  | EmptyString => true
  | String c s' => Ascii.eqb c posixpath.sep && all_slashes s'
  end.
Fixpoint lstrip_slashes (s : string) : string :=
  match s with
  | EmptyString => ""
  | String c s' => if Ascii.eqb c posixpath.sep then lstrip_slashes s' else s
  end.
Definition rstrip_slashes (s : string) : string :=
  String.rev (lstrip_slashes (String.rev s)).
Definition os_path_split (p : string) : string * string :=
  let comps := Py.split posixpath.sep p in
  let tail := default "" (last comps) in
  let head := match removelast comps with
              | [] => ""
              | front => Py.join "/" front +:+ "/"
              end in
  (if negb (String.eqb head "") && negb (all_slashes head)
   then rstrip_slashes head else head, tail).

(** [os.makedirs(name, exist_ok=True)].  The recursion is on a strictly
    shorter [head], so the length of [name] bounds its depth. *)
Fixpoint makedirs_rec (depth : nat) (name : string) : M unit :=
  match depth with
  | O => raise RecursionError
  | S depth' =>
      let '(head, tail) := os_path_split name in
      let '(head, tail) :=
        if String.eqb tail "" then os_path_split head else (head, tail) in
      continue <-
        (if negb (String.eqb head "") && negb (String.eqb tail "") then
           ex <- os_path_exists head ;;
           if negb ex then
             try_except (makedirs_rec depth' head) is_FileExistsError
               (fun _ => ret tt) ;;
             ret (negb (String.eqb tail "."))
           else ret true
         else ret true) ;;
      if continue then
        try_except (os_mkdir name) is_OSError
          (fun e => d <- os_path_isdir name ;;
                    if negb d then raise e else ret tt)
      else ret tt
  end.
Definition os_makedirs (name : string) : M unit :=
  makedirs_rec (S (String.length name)) name.

(** ** [class Run] and [class EmptyJob] *)

(** Modelled from the spec: [Batch] of the module [edisonbatch], which is
    not part of the sources at hand.  The spec describes it as a value
    object with one capability, rendering itself to a file at a given path;
    the rendered text is all the model keeps of it. *)
Record Batch : Type := mk_Batch { rendered : string }.

Definition Batch_to_file (self : Batch) (path : string) : M unit :=
  fd <- open_w path ;; file_write fd (rendered self).

Record EmptyJob : Type := mk_EmptyJob {
  binary_path : string;
  parameters_script : string;
  name : string;
  batch : Batch
}.

(** [Run]: [jobs] is a Python dict, iterated in insertion order. *)
Record Run : Type := mk_Run {
  jobs : list (string * EmptyJob);
  rootdir : string;
  qualikizdir : string;
  runsdir : string
}.

Module Names.
Definition scriptname : string := "edison.sbatch".
Definition jobdatafile : string := "jobdata.pkl".
Definition metadatafile : string := "metadata.csv".
End Names.

(** [Run.__init__(self, rootdir, qualikizdir="", runsdir="")] *)
Definition Run_init (rootdir qualikizdir runsdir : string) : outcome Run :=
  if posixpath.isabs rootdir then
    let qualikizdir' :=
      if String.eqb qualikizdir "" then posixpath.join rootdir "tools/qualikiz"
      else qualikizdir in
    let runsdir' :=
      if String.eqb runsdir "" then posixpath.join rootdir "runs"
      else runsdir in
    if negb (posixpath.isabs qualikizdir') then
      Raise (PathException_init "qualikizdir")
    else if negb (posixpath.isabs runsdir') then
      Raise (PathException_init "runsdir")
    else Ret (mk_Run [] rootdir qualikizdir' runsdir')
  else Raise (PathException_init "rootdir").

(** [EmptyJob.__init__(self, rootdir, name, binary_basename, batch,
    parameters_script="")] *)
Definition EmptyJob_init (rootdir name binary_basename : string)
    (batch : Batch) (parameters_script : string) : M EmptyJob :=
  if posixpath.isabs rootdir then
    cwd <- os_getcwd ;;
    ret (mk_EmptyJob
           (posixpath.abspath cwd (posixpath.join rootdir binary_basename))
           parameters_script name batch)
  else raise (PathException_init "rootdir").

(** [pickle], a library of Python and not of this repository: what the
    module needs of it is [dump] and, for the reader of a snapshot,
    [load]. *)
Record pickler : Type := mk_pickler {
  dumps : EmptyJob -> option string;
  loads : string -> option EmptyJob
}.

(** The contract of [pickle]: what was dumped loads back as it was. *)
Definition pickle_roundtrip (P : pickler) : Prop :=
  forall j b, dumps P j = Some b -> loads P b = Some j.

Section Materialize.

Variable pickle : pickler.

(** [with open(p, 'wb') as file_: pickle.dump(obj, file_)] *)
Definition pickle_dump_file (obj : EmptyJob) (p : string) : M unit :=
  fd <- open_w p ;;
  match dumps pickle obj with
  | Some b => file_write fd b
  | None => raise PicklingError
  end.

(** Lines 147-156 of [EmptyJob.to_file]: warning, links, directories and
    the batch script. *)
Definition to_file_layout (self : EmptyJob) (path qualikizdir : string)
  : M unit :=
  ex <- os_path_exists (binary_path self) ;;
  (if negb ex then
     warn (WarnText ("Warning! Binary at " +:+ binary_path self +:+
                     " does not " +:+ "exist! Run will fail!"))
   else ret tt) ;;
  os_symlink (binary_path self)
    (posixpath.join path (posixpath.basename (binary_path self))) ;;
  os_symlink qualikizdir (posixpath.join path "qualikiz") ;;
  os_makedirs (posixpath.join path "output/primitive") ;;
  os_makedirs (posixpath.join path "debug") ;;
  Batch_to_file (batch self) (posixpath.join path Names.scriptname).

(** Lines 157-162: which text goes into [parameters.py]. *)
Definition to_file_script (self : EmptyJob) (qualikizdir : string)
  : M string :=
  if String.eqb (parameters_script self) "" then
    lines <- open_readlines
               (posixpath.join qualikizdir "parameters_template.py") ;;
    ret (Py.writelines lines)
  else ret (parameters_script self).

(** Lines 163-164. *)
Definition to_file_parameters (path text : string) : M unit :=
  fd <- open_w (posixpath.join path "parameters.py") ;; file_write fd text.

(** Lines 166-168. *)
Definition to_file_snapshot (self : EmptyJob) (path : string)
    (metapickle : bool) : M unit :=
  if metapickle then
    pickle_dump_file self (posixpath.join path "jobdata.pkl")
  else ret tt.

(** Lines 133-146: the [try]/[except FileExistsError] around the creation
    of the job directory.  [Some v] is the early [return v]. *)
Definition to_file_mkdir (path : string) (overwrite : bool)
  : M (option value) :=
  try_except (os_mkdir path ;; ret None) is_FileExistsError
    (fun _ =>
       overwrite <-
         (if negb overwrite then
            resp <- input "folder exists, overwrite? [Y/n]" ;;
            if String.eqb resp "" || String.eqb resp "Y" || String.eqb resp "y"
            then ret true else ret overwrite
          else ret overwrite) ;;
       if (overwrite : bool) then
         print "overwriting" ;;
         shutil_rmtree path ;;
         os_mkdir path ;;
         ret None
       else
         print "aborting" ;;
         ret (Some (VInt 1))).

(** The job directory of [self] under [runsdir] (line 132). *)
Definition job_path (self : EmptyJob) (runsdir : string) : M string :=
  cwd <- os_getcwd ;;
  ret (posixpath.abspath cwd (posixpath.join runsdir (name self))).

(** [EmptyJob.to_file(self, runsdir, qualikizdir, overwrite=False,
    metapickle=True)] *)
Definition EmptyJob_to_file (self : EmptyJob) (runsdir qualikizdir : string)
    (overwrite metapickle : bool) : M value :=
  if negb (posixpath.isabs qualikizdir) then
    raise (PathException_init "qualikizdir")
  else if negb (posixpath.isabs runsdir) then
    raise (PathException_init "runsdir")
  else
    d <- os_path_isdir runsdir ;;
    (if negb d then os_mkdir runsdir else ret tt) ;;
    path <- job_path self runsdir ;;
    early <- to_file_mkdir path overwrite ;;
    match early with
    | Some v => ret v
    | None =>
        to_file_layout self path qualikizdir ;;
        text <- to_file_script self qualikizdir ;;
        to_file_parameters path text ;;
        to_file_snapshot self path metapickle ;;
        ret VNone
    end.

(** The [for] loop of [Run.to_file]: the value of [job.to_file] is
    dropped, an exception leaves the loop. *)
Fixpoint Run_to_file_loop (items : list (string * EmptyJob))
    (runsdir qualikizdir : string) (overwrite : bool) : M unit :=
  match items with
  | [] => ret tt
  | (_, job) :: rest =>
      EmptyJob_to_file job runsdir qualikizdir overwrite true ;;
      Run_to_file_loop rest runsdir qualikizdir overwrite
  end.

(** [Run.to_file(self, overwrite=False)] *)
Definition Run_to_file (self : Run) (overwrite : bool) : M value :=
  Run_to_file_loop (jobs self) (runsdir self) (qualikizdir self) overwrite ;;
  ret VNone.

End Materialize.

(** ** [recursive_function] *)

Section Walker.

Context {R : Type}.
Variable function : string -> M R.

(** The loop state: the Python list [results] and, as a ghost, the record
    of every application of [function] made so far with what came of it. *)
Definition walk_state : Type := (list R * list (string * outcome R))%type.

(** Lines 183-187 and 193-197:
    [try: results.append(function(dir))] with the handler of
    [except Exception as e]. *)
Definition apply_guarded (dir : string) (st : walk_state) : M walk_state :=
  try_except
    (r <- function dir ;; ret (fst st ++ [r], snd st ++ [(dir, Ret r)]))
    (fun _ => true)
    (fun e =>
       warn (WarnExn e) ;;
       warn (WarnText "found exception during recursive run. Skipping..") ;;
       ret (fst st, snd st ++ [(dir, Raise e)])).

(** Lines 189-199: the loop over the entries of [path]. *)
Fixpoint for_folders (path : string) (folders : list string) (dotprint : bool)
    (st : walk_state) : M walk_state :=
  match folders with
  | [] => ret st
  | folder :: rest =>
      let job_folder := posixpath.join path folder in
      d <- os_path_isdir job_folder ;;
      st' <-
        (if (d : bool) then
           names <- os_listdir job_folder ;;
           if bool_decide (Names.scriptname ∈ names) then
             st' <- apply_guarded job_folder st ;;
             (if dotprint then print_noend "." else ret tt) ;;
             ret st'
           else ret st
         else ret st) ;;
      for_folders path rest dotprint st'
  end.

Definition recursive_function_traced (path : string) (dotprint : bool)
  : M walk_state :=
  names <- os_listdir path ;;
  if bool_decide (Names.scriptname ∈ names) then
    apply_guarded path ([], [])
  else
    folders <- os_listdir path ;;
    for_folders path folders dotprint ([], []).

(** [recursive_function(path, function, dotprint=False)] *)
Definition recursive_function (path : string) (dotprint : bool) : M (list R) :=
  st <- recursive_function_traced path dotprint ;; ret (fst st).

End Walker.

(** A directory that the walk takes for a job: it holds an entry named
    [edison.sbatch]. *)
Definition has_script (w : world) (p : string) : bool :=
  match os_listdir p w with
  | (Ret names, _) => bool_decide (Names.scriptname ∈ names)
  | (Raise _, _) => false
  end.

Definition is_job_dir (w : world) (p : string) : bool :=
  isdir w p && has_script w p.

Definition successes {R} (attempts : list (string * outcome R)) : list R :=
  omap (fun a => match snd a with Ret r => Some r | Raise _ => None end) attempts.

Definition failures {R} (attempts : list (string * outcome R)) : list exn :=
  omap (fun a => match snd a with Ret _ => None | Raise e => Some e end) attempts.

(** ** [run_job] *)

(** [subprocess.check_output(cmd, shell=True)] *)
Definition subprocess_check_output (cmd : string) : M string :=
  fun w => let '(returncode, out) := shell w cmd in
           if Z.eqb returncode 0 then (Ret out, w)
           else (Raise (CalledProcessError returncode cmd), w).

Definition digit (n : nat) : string :=
  String (ascii_of_nat (48 + n mod 10)) "".
Definition pad2 (n : nat) : string := digit (n / 10) +:+ digit n.
Definition pad4 (n : nat) : string := pad2 (n / 100) +:+ pad2 n.
Definition pad6 (n : nat) : string := pad2 (n / 100 / 100) +:+ pad4 n.

(** [str(d)] for a [datetime]: the microseconds only when not zero. *)
Definition datetime_str (d : datetime) : string :=
  pad4 (year d) +:+ "-" +:+ pad2 (month d) +:+ "-" +:+ pad2 (day d) +:+ " " +:+
  pad2 (hour d) +:+ ":" +:+ pad2 (minute d) +:+ ":" +:+ pad2 (second d) +:+
  (if Nat.eqb (microsecond d) 0 then "" else "." +:+ pad6 (microsecond d)).

Module csv.

Definition quotechar : ascii := "034"%char.

(** The characters that make the writer quote a field (QUOTE_MINIMAL):
    the delimiter, the quote, and those of the line terminator. *)
Definition special (c : ascii) : bool :=
  Ascii.eqb c ","%char || Ascii.eqb c quotechar
  || Ascii.eqb c "013"%char || Ascii.eqb c "010"%char.

Fixpoint double_quotes (s : string) : string :=
  match s with
  | EmptyString => ""
  | String c s' =>
      if Ascii.eqb c quotechar then String c (String c (double_quotes s'))
      else String c (double_quotes s')
  end.

Definition field (s : string) : string :=
  if existsb special (list_ascii_of_string s)
  then String quotechar (double_quotes s) +:+ String quotechar ""
  else s.

(** One row of two or more fields as [csv.writer(f).writerow] renders it;
    the line terminator is "\r\n". *)
Definition row (fields : list string) : string :=
  Py.join "," (map field fields) +:+ String "013" (String "010" "").

End csv.

(** [l[-1]] *)
Definition index_last {A} (l : list A) : M A :=
  match Py.last_item l with
  | Some x => ret x
  | None => raise IndexError
  end.

(** [run_job(job_folder)] *)
Definition run_job (job_folder : string) : M value :=
  let input_binary := posixpath.join job_folder "input/p1.bin" in
  ex <- os_path_exists input_binary ;;
  (if negb ex then
     warn (WarnText ("Warning! Input binary at " +:+ input_binary +:+
                     " does not " +:+
                     "exist! Run will fail! Please generate input binaries with " +:+
                     "parameters.py"))
   else ret tt) ;;
  let cmd := "git describe --tags" in
  describe <- subprocess_check_output cmd ;;
  qualikiz_version <- decode_utf8 (Py.strip describe) ;;
  let cmd := "sbatch --workdir=" +:+ job_folder +:+ " " +:+
             posixpath.join job_folder Names.scriptname in
  output <- subprocess_check_output cmd ;;
  token <- index_last (Py.split_ws output) ;;
  jobnumber <- decode_utf8 token ;;
  file_ <- open_w (posixpath.join job_folder Names.metadatafile) ;;
  file_write file_ (csv.row ["jobnumber"; jobnumber]) ;;
  now <- gets clock ;;
  file_write file_ (csv.row ["submittime"; datetime_str now]) ;;
  file_write file_ (csv.row ["qualikiz_version"; qualikiz_version]) ;;
  print jobnumber ;;
  ret VNone.

(** The scheduler command of line 220. *)
Definition sbatch_cmd (job_folder : string) : string :=
  "sbatch --workdir=" +:+ job_folder +:+ " " +:+
  posixpath.join job_folder Names.scriptname.

(** The three rows of [metadata.csv], in the order they are written. *)
Definition metadata_text (jobnumber : string) (now : datetime)
    (qualikiz_version : string) : string :=
  (csv.row ["jobnumber"; jobnumber] +:+
   csv.row ["submittime"; datetime_str now]) +:+
  csv.row ["qualikiz_version"; qualikiz_version].

Definition prompt : string := "folder exists, overwrite? [Y/n]".

(** The answers [EmptyJob.to_file] takes for a yes. *)
Definition affirmative (resp : string) : bool :=
  String.eqb resp "" || String.eqb resp "Y" || String.eqb resp "y".

(** The world once the question has been asked and answered. *)
Definition asked (rest : list string) (w : world) : world :=
  set_stdin rest (push_stdout prompt w).

(** The job directory of [self] under [runsdir] in the world [w]. *)
Definition job_dir (w : world) (self : EmptyJob) (runsdir : string) : string :=
  posixpath.abspath ("/" +:+ Py.join "/" (cwd w))
    (posixpath.join runsdir (name self)).

(** The [if overwrite:] branch of the handler. *)
Definition overwrite_dir (path : string) : M (option value) :=
  print "overwriting" ;; shutil_rmtree path ;; os_mkdir path ;; ret None.

(** What follows the creation of the job directory. *)
Definition to_file_rest (pickle : pickler) (self : EmptyJob) (path qualikizdir : string)
    (metapickle : bool) (early : option value) : M value :=
  match early with
  | Some v => ret v
  | None =>
      to_file_layout self path qualikizdir ;;
      text <- to_file_script self qualikizdir ;;
      to_file_parameters path text ;;
      to_file_snapshot pickle self path metapickle ;;
      ret VNone
  end.

(** ** The vocabulary of the statements *)

(** What a resolution may end on for a file to be written there. *)
Definition writable (o : option node) : Prop :=
  match o with
  | None | Some (File _) => True
  | Some _ => False
  end.

(** The file named [p] holds [c]. *)
Definition holds (w : world) (p c : string) : Prop :=
  exists k, FS.namei false w p = inr (k, Some (File c)).

Definition skipping_text : warning :=
  WarnText "found exception during recursive run. Skipping..".

(** The handler of the walk: the two warnings of lines 186-187. *)
Definition warn_skipping (e : exn) (w : world) : world :=
  push_warning skipping_text (push_warning (WarnExn e) w).

(** The dot of lines 198-199. *)
Definition dot (dotprint : bool) (w : world) : world :=
  if dotprint then push_stdout "." w else w.

(** The entries of [path] that the loop takes for jobs, as paths. *)
Definition job_children (w : world) (path : string) (names : list string)
  : list string :=
  map (posixpath.join path)
    (List.filter (fun n => is_job_dir w (posixpath.join path n)) names).

(** What one application adds to the loop state and to the world. *)
Definition step_state {R} (function : string -> M R) (dir : string)
    (st : walk_state) (w : world) : walk_state :=
  match function dir w with
  | (Ret r, _) => (fst st ++ [r], snd st ++ [(dir, Ret r)])
  | (Raise e, _) => (fst st, snd st ++ [(dir, Raise e)])
  end.

Definition step_world {R} (function : string -> M R) (dir : string)
    (w : world) : world :=
  match function dir w with
  | (Ret _, w1) => w1
  | (Raise e, w1) => warn_skipping e w1
  end.

(** What the statements on the walk ask of the operation handed to it. *)

(** It leaves job directories job directories, and makes no new one. *)
Definition keeps_jobs {R} (function : string -> M R) : Prop :=
  forall d w p, is_job_dir (snd (function d w)) p = is_job_dir w p.


(** It does not take back a warning already issued. *)
Definition keeps_warnings {R} (function : string -> M R) : Prop :=
  forall d w, exists l, warnings (snd (function d w)) = warnings w ++ l.

(** The walk as the specification words it.  [visit_each] goes through the
    entries of [path] in listing order: an entry that is, when its turn
    comes, a directory holding [edison.sbatch] has the operation applied
    to it once, in the world that the entries before it left; the outcome
    is recorded with the directory, the two warnings of the handler follow
    a failure, the dot follows either.  [visit_root] is the one
    application to [path] itself.  Both give the applications made, in
    order, and the world left. *)
Fixpoint visit_each {R} (function : string -> M R) (path : string)
    (dotprint : bool) (names : list string) (w : world)
  : list (string * outcome R) * world :=
  match names with
  | [] => ([], w)
  | n :: rest =>
      let dir := posixpath.join path n in
      if is_job_dir w dir then
        let next := visit_each function path dotprint rest
                      (dot dotprint (step_world function dir w)) in
        ((dir, fst (function dir w)) :: fst next, snd next)
      else visit_each function path dotprint rest w
  end.

Definition visit_root {R} (function : string -> M R) (path : string)
    (w : world) : list (string * outcome R) * world :=
  ([(path, fst (function path w))], step_world function path w).

Definition visit {R} (function : string -> M R) (path : string)
    (dotprint : bool) (names : list string) (w : world)
  : list (string * outcome R) * world :=
  if bool_decide (Names.scriptname ∈ names) then visit_root function path w
  else visit_each function path dotprint names w.

(** ** Further vocabulary: what an operation leaves alone *)

(** [os.path.lexists(p)]: lstat succeeds. *)
Definition lexists (w : world) (p : string) : bool :=
  match FS.namei true w p with
  | inr (_, Some _) => true
  | _ => false
  end.

(** [os.readlink(p)], where [p] names a symbolic link. *)
Definition readlink (w : world) (p : string) : option string :=
  match FS.namei true w p with
  | inr (_, Some (Symlink t)) => Some t
  | _ => None
  end.

(** [os.path.isfile(p)]: stat succeeds on a regular file. *)
Definition isfile (w : world) (p : string) : bool :=
  match FS.namei false w p with
  | inr (_, Some (File _)) => true
  | _ => false
  end.

(** A node that is kept: a directory or a link as it is, a file as a file
    (what it holds may change). *)
Definition stays (n n' : node) : Prop :=
  match n with
  | File _ => exists c, n' = File c
  | _ => n' = n
  end.

(** From [w] to [w'] nothing was removed or replaced by something of
    another kind, and the working directory is the same. *)
Definition extends (w w' : world) : Prop :=
  cwd w' = cwd w /\
  forall k n, files w !! k = Some n ->
              exists n', files w' !! k = Some n' /\ stays n n'.

(** [m] takes every world to one related to it by [R], whether it
    returns or raises. *)
Definition respects {A} (R : world -> world -> Prop) (m : M A) : Prop :=
  forall w, R w (snd (m w)).

(** The relation of keeping what [f] reads of the world. *)
Definition keeps {A} (f : world -> A) (w w' : world) : Prop := f w' = f w.

(** [m] raises only exceptions that satisfy [P]. *)
Definition raises_only {A} (P : exn -> Prop) (m : M A) : Prop :=
  forall w e w', m w = (Raise e, w') -> P e.

Definition is_PathException (e : exn) : bool :=
  match e with PathException _ => true | _ => false end.

(** ** [generate_input] *)

Section Programs.

(** The operating system running a program given by its argument vector:
    the program may change the world and hands back its exit status, or
    cannot be started at all. *)
Variable run_program : list string -> M Z.

(** [subprocess.check_call(cmd)] for a list [cmd]. *)
Definition subprocess_check_call (cmd : list string) : M unit :=
  returncode <- run_program cmd ;;
  if Z.eqb returncode 0 then ret tt
  else raise (CalledProcessError returncode (Py.join " " cmd)).

(** [generate_input(job_folder)] *)
Definition generate_input (job_folder : string) : M value :=
  cwd <- os_getcwd ;;
  let cmd := ["python";
              posixpath.abspath cwd
                (posixpath.join job_folder "parameters.py")] in
  subprocess_check_call cmd ;;
  ret VNone.

End Programs.

(** The script that [generate_input] runs for [job_folder] in [w]. *)
Definition input_script (w : world) (job_folder : string) : string :=
  posixpath.abspath ("/" +:+ Py.join "/" (cwd w))
    (posixpath.join job_folder "parameters.py").

(** The warning of [run_job] for a missing input binary. *)
Definition input_missing_text (job_folder : string) : warning :=
  WarnText ("Warning! Input binary at " +:+
            posixpath.join job_folder "input/p1.bin" +:+
            " does not " +:+
            "exist! Run will fail! Please generate input binaries with " +:+
            "parameters.py").

(** None of the six ASCII whitespace bytes (space, tab, line feed,
    vertical tab, form feed, carriage return), on which [bytes.split()]
    splits, is in [s]. *)
Definition no_ascii_whitespace (s : string) : Prop :=
  Forall (fun c => Py.is_space c = false) (list_ascii_of_string s).

(** The failures of [run_job] that come before the metadata file is
    opened: [CalledProcessError] of [git] or [sbatch],
    [UnicodeDecodeError] of a decoding, [IndexError] of an answer with no
    token. *)
Definition before_metadata (e : exn) : bool :=
  match e with
  | CalledProcessError _ _ | UnicodeDecodeError | IndexError => true
  | _ => false
  end.

(** The steps of [run_job] after the warning. *)
Definition run_job_submit (job_folder : string) : M value :=
  describe <- subprocess_check_output "git describe --tags" ;;
  qualikiz_version <- decode_utf8 (Py.strip describe) ;;
  output <- subprocess_check_output (sbatch_cmd job_folder) ;;
  token <- index_last (Py.split_ws output) ;;
  jobnumber <- decode_utf8 token ;;
  file_ <- open_w (posixpath.join job_folder Names.metadatafile) ;;
  file_write file_ (csv.row ["jobnumber"; jobnumber]) ;;
  now <- gets clock ;;
  file_write file_ (csv.row ["submittime"; datetime_str now]) ;;
  file_write file_ (csv.row ["qualikiz_version"; qualikiz_version]) ;;
  print jobnumber ;;
  ret VNone.

(** What a token of [b.split()] is: not empty, no whitespace. *)
Definition token_like (t : string) : Prop := t <> "" /\ no_ascii_whitespace t.

Definition os_error (e : exn) : Prop := is_OSError e = true.

(** Any exception but [PathException]. *)
Definition not_PathException (e : exn) : Prop := is_PathException e = false.

(** ** A concrete world

    A checkout under [/opt/QuaLiKiz] with its tools and a runs directory
    that holds one earlier job, [old]; and a tree of runs under [/runs],
    where [a] and [b] are job directories and [c] is not (its script lies
    one level further down). *)

Module Demo.

Definition tree : gmap (list string) node :=
  list_to_map
    [ (["opt"], Dir);
      (["opt"; "QuaLiKiz"], Dir);
      (["opt"; "QuaLiKiz"; "QuaLiKiz"], File "ELF");
      (["opt"; "QuaLiKiz"; "runs"], Dir);
      (["opt"; "QuaLiKiz"; "runs"; "old"], Dir);
      (["opt"; "QuaLiKiz"; "runs"; "old"; "result.txt"], File "42");
      (["opt"; "QuaLiKiz"; "tools"], Dir);
      (["opt"; "QuaLiKiz"; "tools"; "qualikiz"], Dir);
      (["opt"; "QuaLiKiz"; "tools"; "qualikiz"; "parameters_template.py"],
       File "print(1)");
      (["runs"], Dir);
      (["runs"; "notes.txt"], File "to do");
      (["runs"; "a"], Dir);
      (["runs"; "a"; "edison.sbatch"], File "#!/bin/bash -l");
      (["runs"; "b"], Dir);
      (["runs"; "b"; "edison.sbatch"], File "#!/bin/bash -l");
      (["runs"; "c"], Dir);
      (["runs"; "c"; "deep"], Dir);
      (["runs"; "c"; "deep"; "edison.sbatch"], File "#!/bin/bash -l") ].

(** [git describe] and [sbatch] answer; any other command is not found. *)
Definition commands (cmd : string) : Z * string :=
  if String.eqb cmd "git describe --tags" then
    (0%Z, "v2.3.1-4-gabc" +:+ String "010" "")
  else if Py.startswith "sbatch " cmd then
    (0%Z, "Submitted batch job 12345" +:+ String "010" "")
  else (127%Z, "").

Definition now : datetime := mk_datetime 2016 9 1 12 34 56 0.

(** The operator answers "n" to the first question asked. *)
Definition w : world := mk_world tree [] ["n"] [] [] now commands.

(** An operation for the walk that fails on [/runs/b]. *)
Definition probe (dir : string) : M value :=
  if String.eqb dir "/runs/b" then raise (RuntimeError "boom")
  else ret (VStr dir).

(** What [os.listdir("/runs")] answers in [w]. *)
Definition listing : list string := ["notes.txt"; "c"; "b"; "a"].

(** A stand-in for [pickle].  A string is dumped character by character,
    each behind a "1", with a "0" to close it; an object is its four
    strings one after the other. *)
Fixpoint enc (s rest : string) : string :=
  match s with
  | EmptyString => String "0" rest
  | String c s' => String "1" (String c (enc s' rest))
  end.

Fixpoint dec (b : string) : option (string * string) :=
  match b with
  | String tag b' =>
      if Ascii.eqb tag "0" then Some ("", b')
      else if Ascii.eqb tag "1" then
        match b' with
        | String c b'' =>
            match dec b'' with
            | Some (s, rest) => Some (String c s, rest)
            | None => None
            end
        | EmptyString => None
        end
      else None
  | EmptyString => None
  end.

Definition toy_dumps (j : EmptyJob) : option string :=
  Some (enc (binary_path j)
          (enc (parameters_script j)
             (enc (name j) (enc (rendered (batch j)) "")))).

Definition toy_loads (b : string) : option EmptyJob :=
  match dec b with
  | Some (bp, b1) =>
      match dec b1 with
      | Some (ps, b2) =>
          match dec b2 with
          | Some (n, b3) =>
              match dec b3 with
              | Some (r, EmptyString) => Some (mk_EmptyJob bp ps n (mk_Batch r))
              | _ => None
              end
          | None => None
          end
      | None => None
      end
  | None => None
  end.

Definition toy_pickle : pickler := mk_pickler toy_dumps toy_loads.

(** Two jobs of a run: the first relies on the template of the tools
    directory, the second brings its own script. *)
Definition job1 : EmptyJob :=
  mk_EmptyJob "/opt/QuaLiKiz/QuaLiKiz" "" "job1" (mk_Batch "#!/bin/bash -l").
Definition job2 : EmptyJob :=
  mk_EmptyJob "/opt/QuaLiKiz/QuaLiKiz" "print(2)" "job2"
    (mk_Batch "#!/bin/bash -l").

(** A job whose directory is already there. *)
Definition job_old : EmptyJob :=
  mk_EmptyJob "/opt/QuaLiKiz/QuaLiKiz" "print(0)" "old"
    (mk_Batch "#!/bin/bash -l").

Definition runsdir : string := "/opt/QuaLiKiz/runs".
Definition toolsdir : string := "/opt/QuaLiKiz/tools/qualikiz".

(** What reading the template raises where there is none. *)
Definition template_missing : exn :=
  FileNotFoundError "/opt/QuaLiKiz/tools/parameters_template.py".

(** A run set up with the wrong tools directory: [/opt/QuaLiKiz/tools]
    holds no [parameters_template.py]. *)
Definition run_wrong_tools : Run :=
  mk_Run [("job1", job1); ("job2", job2)]
    "/opt/QuaLiKiz" "/opt/QuaLiKiz/tools" runsdir.

(** An interpreter that fails on the script of [/runs/b] and succeeds on
    every other, leaving a mark in the warnings. *)
Definition python_stub (cmd : list string) : M Z :=
  match cmd with
  | [_; script] =>
      if String.eqb script "/runs/b/parameters.py" then ret 3%Z
      else (warn (WarnText script) ;; ret 0%Z)
  | _ => ret 2%Z
  end.

(** A scheduler that answers with a blank line. *)
Definition blank_answer (cmd : string) : Z * string :=
  (0%Z, if Py.startswith "sbatch" cmd then " " else "v1").

Definition w_blank : world := mk_world tree [] [] [] [] now blank_answer.

End Demo.

(** * Properties *)

(** ** Strings *)

Lemma str_app_assoc (a b c : string) : (a +:+ b) +:+ c = a +:+ (b +:+ c).
Proof.
  induction a as [|x a IH]; [reflexivity|].
  change (String x ((a +:+ b) +:+ c) = String x (a +:+ (b +:+ c))).
  now rewrite IH.
Qed.

Lemma str_app_nil_r (a : string) : a +:+ "" = a.
Proof.
  induction a as [|x a IH]; [reflexivity|].
  change (String x (a +:+ "") = String x a). now rewrite IH.
Qed.

(** ** The monad *)

Lemma bind_ret {A B} (m : M A) (k : A -> M B) w a w1 :
  m w = (Ret a, w1) -> bind m k w = k a w1.
Proof. intros H. unfold bind. now rewrite H. Qed.

Lemma bind_raise {A B} (m : M A) (k : A -> M B) w e w1 :
  m w = (Raise e, w1) -> bind m k w = (Raise e, w1).
Proof. intros H. unfold bind. now rewrite H. Qed.

Lemma bind_ret_inv {A B} (m : M A) (k : A -> M B) w b w2 :
  bind m k w = (Ret b, w2) ->
  exists a w1, m w = (Ret a, w1) /\ k a w1 = (Ret b, w2).
Proof.
  unfold bind. destruct (m w) as [[a|e] w1]; intros H.
  - now exists a, w1.
  - discriminate.
Qed.

Tactic Notation "bind_inv" hyp(H) "as" ident(x) ident(w1) ident(H1) :=
  apply bind_ret_inv in H as (x & w1 & H1 & H).

Lemma pair_of_fst {A} (r : outcome A * world) (a : outcome A) :
  fst r = a -> r = (a, snd r).
Proof. destruct r; simpl; congruence. Qed.

(** ** Path resolution *)

Arguments FS.walk : simpl never.

Lemma walk_nil fuel fs nf cur :
  FS.walk fuel fs nf cur [] = inr (cur, FS.lookup_node fs cur).
Proof. destruct fuel; reflexivity. Qed.

Lemma walk_cons fuel fs nf cur c rest :
  FS.walk fuel fs nf cur (c :: rest) =
  if decide (c = ".") then FS.walk fuel fs nf cur rest
  else if decide (c = "..") then FS.walk fuel fs nf (FS.parent cur) rest
  else
    match fs !! (cur ++ [c]) with
    | None => if decide (rest = []) then inr (cur ++ [c], None) else inl FS.ENOENT
    | Some Dir => FS.walk fuel fs nf (cur ++ [c]) rest
    | Some (File x) =>
        if decide (rest = []) then inr (cur ++ [c], Some (File x))
        else inl FS.ENOTDIR
    | Some (Symlink t) =>
        if bool_decide (rest = []) && nf then inr (cur ++ [c], Some (Symlink t))
        else match fuel with
             | O => inl FS.ELOOP
             | S fuel' =>
                 if decide (t = "") then inl FS.ENOENT
                 else FS.walk fuel' fs nf
                        (if posixpath.isabs t then [] else cur)
                        (FS.components t ++ rest)
             end
    end.
Proof. destruct fuel; reflexivity. Qed.

Lemma lookup_node_snoc fs cur (c : string) :
  FS.lookup_node fs (cur ++ [c]) = fs !! (cur ++ [c]).
Proof. destruct cur; reflexivity. Qed.

(** The node returned with a location is the node at that location. *)
Lemma walk_lookup fuel fs nf comps :
  forall cur k o,
    FS.walk fuel fs nf cur comps = inr (k, o) -> o = FS.lookup_node fs k.
Proof.
  revert comps.
  induction fuel as [|fuel IHfuel]; intros comps;
    induction comps as [|c rest IHcomps]; intros cur k o;
    rewrite ?walk_nil, ?walk_cons; intros H;
    try (injection H as <- <-; reflexivity);
    repeat case_decide; eauto;
    destruct (fs !! (cur ++ [c])) as [[|x|t]|] eqn:E;
    repeat case_decide; eauto; try discriminate;
    try (injection H as <- <-; now rewrite lookup_node_snoc, E);
    (destruct (bool_decide (rest = []) && nf);
     [ injection H as <- <-; now rewrite lookup_node_snoc, E
     | try discriminate; eauto ]).
Qed.

Lemma walk_cons_follow fuel fs cur c rest :
  FS.walk fuel fs false cur (c :: rest) =
  if decide (c = ".") then FS.walk fuel fs false cur rest
  else if decide (c = "..") then FS.walk fuel fs false (FS.parent cur) rest
  else
    match fs !! (cur ++ [c]) with
    | None => if decide (rest = []) then inr (cur ++ [c], None) else inl FS.ENOENT
    | Some Dir => FS.walk fuel fs false (cur ++ [c]) rest
    | Some (File x) =>
        if decide (rest = []) then inr (cur ++ [c], Some (File x))
        else inl FS.ENOTDIR
    | Some (Symlink t) =>
        match fuel with
        | O => inl FS.ELOOP
        | S fuel' =>
            if decide (t = "") then inl FS.ENOENT
            else FS.walk fuel' fs false
                   (if posixpath.isabs t then [] else cur)
                   (FS.components t ++ rest)
        end
    end.
Proof. rewrite walk_cons. now rewrite andb_false_r. Qed.

(** Where a resolution (links followed) ends on a file or on a free name,
    it ends at the same place once a file has been put there. *)
Lemma walk_insert_file fuel fs comps data :
  forall cur k o,
    FS.walk fuel fs false cur comps = inr (k, o) -> writable o ->
    FS.walk fuel (<[k := File data]> fs) false cur comps
    = inr (k, Some (File data)).
Proof.
  revert comps.
  induction fuel as [|fuel IHfuel]; intros comps;
    induction comps as [|c rest IHcomps]; intros cur k o H Hw;
    pose proof (walk_lookup _ _ _ _ _ _ _ H) as Ho;
    rewrite ?walk_nil, ?walk_cons_follow in *.
  all: try (injection H as <- <-; destruct cur; [ contradiction | ];
            simpl; now rewrite lookup_insert_eq).
  all: repeat case_decide; eauto.
  all: destruct (decide (cur ++ [c] = k)) as [<-|Hne].
  all: try (rewrite lookup_node_snoc in Ho; rewrite lookup_insert_eq;
            destruct (fs !! (cur ++ [c])) as [[|x|t]|] eqn:E; subst o;
            try contradiction; repeat case_decide; try discriminate;
            reflexivity).
  all: rewrite lookup_insert_ne by congruence;
       destruct (fs !! (cur ++ [c])) as [[|x|t]|] eqn:E;
       repeat case_decide; eauto; try discriminate; try congruence.
Qed.

(** What exists for stat exists for lstat. *)
Lemma walk_nofollow_exists fuel fs comps :
  forall cur k n,
    FS.walk fuel fs false cur comps = inr (k, Some n) ->
    exists k' n', FS.walk fuel fs true cur comps = inr (k', Some n').
Proof.
  revert comps.
  induction fuel as [|fuel IHfuel]; intros comps;
    induction comps as [|c rest IHcomps]; intros cur k n H;
    rewrite ?walk_nil, ?walk_cons_follow in H; rewrite ?walk_nil, ?walk_cons;
    eauto.
  all: repeat case_decide; eauto.
  all: destruct (fs !! (cur ++ [c])) as [[|x|t]|] eqn:E;
       repeat case_decide; eauto; try discriminate.
  all: destruct (bool_decide (rest = [])); simpl; eauto; try discriminate.
  all: repeat case_decide; eauto; try discriminate.
Qed.

(** ** Files read back as written *)

Lemma namei_lookup nf w p k o :
  FS.namei nf w p = inr (k, o) -> o = FS.lookup_node (files w) k.
Proof.
  unfold FS.namei. case_decide; [discriminate|]. apply walk_lookup.
Qed.

Lemma namei_set_files_insert w p k o data :
  FS.namei false w p = inr (k, o) -> writable o ->
  FS.namei false (set_files (<[k := File data]> (files w)) w) p
  = inr (k, Some (File data)).
Proof.
  unfold FS.namei. case_decide; [discriminate|]. simpl.
  apply walk_insert_file.
Qed.

Lemma read_bytes_holds w p c : holds w p c -> read_bytes p w = (Ret c, w).
Proof. intros [k H]. unfold read_bytes. now rewrite H. Qed.

Lemma open_w_ret p w k w1 :
  open_w p w = (Ret k, w1) ->
  FS.namei false w1 p = inr (k, Some (File "")).
Proof.
  unfold open_w. destruct (FS.namei false w p) as [e|[k' [[|x|t]|]]] eqn:E;
    intros H; try discriminate; injection H as <- <-;
    eapply namei_set_files_insert; eauto; exact I.
Qed.

Lemma file_write_ret p w k old data :
  FS.namei false w p = inr (k, Some (File old)) ->
  exists w1, file_write k data w = (Ret tt, w1) /\
             FS.namei false w1 p = inr (k, Some (File (old +:+ data))).
Proof.
  intros H. pose proof (namei_lookup _ _ _ _ _ H) as Hk.
  unfold file_write, modify. eexists; split; [reflexivity|].
  destruct k as [|a k]; [discriminate|]. simpl in Hk. rewrite <- Hk.
  eapply namei_set_files_insert; eauto. exact I.
Qed.

(** [with open(p, 'w') as f: f.write(data)] leaves [data] in [p]. *)
Lemma open_write_holds p data w w1 :
  (fd <- open_w p ;; file_write fd data) w = (Ret tt, w1) -> holds w1 p data.
Proof.
  intros H. apply bind_ret_inv in H as (k & w0 & Ho & Hw).
  apply open_w_ret in Ho.
  destruct (file_write_ret _ _ _ _ data Ho) as (w1' & Hw' & Hn).
  rewrite Hw in Hw'. injection Hw' as <-. now exists k.
Qed.

(** ** Directories *)

Lemma isdir_mkdir_exists w p :
  isdir w p = true -> os_mkdir p w = (Raise (FileExistsError p), w).
Proof.
  unfold isdir, os_mkdir, FS.namei. case_decide; [discriminate|].
  destruct (FS.walk _ _ false _ _) as [e|[k [n|]]] eqn:E; try discriminate.
  intros _. destruct (walk_nofollow_exists _ _ _ _ _ _ E) as (k' & n' & ->).
  reflexivity.
Qed.

Lemma isdir_listdir w p :
  isdir w p = true -> exists names, os_listdir p w = (Ret names, w).
Proof.
  unfold isdir, os_listdir.
  destruct (FS.namei false w p) as [e|[k [[|x|t]|]]]; try discriminate.
  eauto.
Qed.

Lemma strip_prefix_app d k r : FS.strip_prefix d k = Some r -> k = d ++ r.
Proof.
  revert k; induction d as [|x d IH]; intros [|y k]; simpl; try congruence.
  case_decide; [|discriminate]. subst. intros H. f_equal. now apply IH.
Qed.

Lemma child_name_inj d k1 k2 n :
  FS.child_name d k1 = Some n -> FS.child_name d k2 = Some n -> k1 = k2.
Proof.
  unfold FS.child_name.
  destruct (FS.strip_prefix d k1) as [[|a [|? ?]]|] eqn:E1; try discriminate.
  destruct (FS.strip_prefix d k2) as [[|b [|? ?]]|] eqn:E2; try discriminate.
  intros [= ->] [= ->].
  apply strip_prefix_app in E1, E2. congruence.
Qed.

(** A directory lists each of its entries once. *)
Lemma entries_NoDup fs d : NoDup (FS.entries fs d).
Proof.
  unfold FS.entries.
  pose proof (NoDup_fst_map_to_list fs) as H.
  induction (map_to_list fs) as [|[k v] l IH]; simpl; [constructor|].
  inversion H as [|? ? Hk Hl]; subst.
  destruct (FS.child_name d k) as [n|] eqn:E; simpl; [|now apply IH].
  constructor; [|now apply IH].
  intros Hin. apply list_elem_of_omap in Hin as ([k' v'] & Hin & Hc).
  simpl in Hc. assert (k = k') by (eapply child_name_inj; eauto). subst k'.
  apply Hk. apply list_elem_of_fmap. now exists (k, v').
Qed.

Lemma os_listdir_NoDup p w names w1 :
  os_listdir p w = (Ret names, w1) -> NoDup names /\ w1 = w.
Proof.
  unfold os_listdir.
  destruct (FS.namei false w p) as [e|[k [[|x|t]|]]]; try discriminate.
  intros [= <- <-]. split; [apply entries_NoDup|reflexivity].
Qed.

(** ** [os.makedirs] has depth enough *)

Lemma str_length_app a b :
  String.length (a +:+ b) = String.length a + String.length b.
Proof.
  induction a as [|x a IH]; [reflexivity|].
  change (S (String.length (a +:+ b)) = S (String.length a + String.length b)).
  now rewrite IH.
Qed.

Lemma split_nonempty sep s : Py.split sep s <> [].
Proof.
  destruct s as [|c s]; cbn; [discriminate|].
  destruct (Ascii.eqb c sep); [discriminate|].
  destruct (Py.split sep s); discriminate.
Qed.

(** The pieces of a split, joined again, are the string. *)
Lemma join_split s : Py.join "/" (Py.split "/" s) = s.
Proof.
  induction s as [|c s IH]; [reflexivity|].
  cbn [Py.split]. destruct (Ascii.eqb_spec c "/") as [->|Hc].
  - pose proof (split_nonempty "/" s) as Hne.
    destruct (Py.split "/" s) as [|w ws]; [contradiction|].
    change (Py.join "/" ("" :: w :: ws)) with ("/" +:+ Py.join "/" (w :: ws)).
    now rewrite IH.
  - pose proof (split_nonempty "/" s) as Hne.
    destruct (Py.split "/" s) as [|w ws]; [contradiction|].
    destruct ws as [|w' ws].
    + cbn in IH. subst. reflexivity.
    + change (Py.join "/" (String c w :: w' :: ws))
        with (String c (w +:+ "/" +:+ Py.join "/" (w' :: ws))).
      change (Py.join "/" (w :: w' :: ws))
        with (w +:+ "/" +:+ Py.join "/" (w' :: ws)) in IH.
      now rewrite IH.
Qed.

Lemma join_snoc front (tail : string) :
  front <> [] ->
  Py.join "/" (front ++ [tail]) = Py.join "/" front +:+ "/" +:+ tail.
Proof.
  induction front as [|x front IH]; [contradiction|]. intros _.
  destruct front as [|y front]; [reflexivity|].
  change (Py.join "/" ((x :: y :: front) ++ [tail]))
    with (x +:+ "/" +:+ Py.join "/" ((y :: front) ++ [tail])).
  rewrite IH by discriminate.
  change (Py.join "/" (x :: y :: front))
    with (x +:+ "/" +:+ Py.join "/" (y :: front)).
  now rewrite !str_app_assoc.
Qed.

Lemma rev_app_length s t :
  String.length (String.rev_app s t) = String.length s + String.length t.
Proof.
  revert t. induction s as [|c s IH]; intros t; [reflexivity|].
  cbn [String.rev_app]. rewrite IH. cbn [String.length]. lia.
Qed.

Lemma lstrip_slashes_length s :
  String.length (lstrip_slashes s) <= String.length s.
Proof.
  induction s as [|c s IH]; [reflexivity|]. cbn [lstrip_slashes].
  destruct (Ascii.eqb c posixpath.sep); cbn [String.length]; lia.
Qed.

Lemma rstrip_slashes_length s :
  String.length (rstrip_slashes s) <= String.length s.
Proof.
  unfold rstrip_slashes, String.rev. rewrite rev_app_length.
  pose proof (lstrip_slashes_length (String.rev_app s "")) as H.
  rewrite rev_app_length in H. cbn [String.length] in *. lia.
Qed.

(** [os.path.split] gives back no more than it was given. *)
Lemma os_path_split_length p :
  String.length (fst (os_path_split p)) + String.length (snd (os_path_split p))
  <= String.length p.
Proof.
  unfold os_path_split. cbn [fst snd].
  pose proof (join_split p) as Hj. pose proof (split_nonempty "/" p) as Hne.
  change posixpath.sep with "/"%char.
  destruct (Py.split "/" p) as [|c comps] using rev_ind; [contradiction|].
  clear IHcomps Hne. rewrite last_snoc, removelast_last. cbn [default from_option id].
  destruct comps as [|x comps].
  - cbn in Hj. subst c. cbn. lia.
  - rewrite join_snoc in Hj by discriminate.
    set (head := Py.join "/" (x :: comps) +:+ "/") in *.
    assert (Hp : String.length p = String.length head + String.length c).
    { rewrite <- Hj, <- str_app_assoc, str_length_app. reflexivity. }
    clearbody head. clear Hj.
    destruct (negb (String.eqb head "") && negb (all_slashes head)).
    + pose proof (rstrip_slashes_length head). lia.
    + lia.
Qed.

(** The length of the name is depth enough for [os.makedirs]: the bound
    on the recursion is never what makes it fail. *)
Lemma makedirs_rec_depth depth :
  forall name w,
    String.length name < depth ->
    fst (makedirs_rec depth name w) <> Raise RecursionError.
Proof.
  induction depth as [|depth IH]; intros name w Hlen; [lia|].
  cbn [makedirs_rec].
  pose proof (os_path_split_length name) as H1.
  destruct (os_path_split name) as [head tail]. cbn [fst snd] in H1.
  assert (exists head' tail',
            (if String.eqb tail "" then os_path_split head else (head, tail))
            = (head', tail') /\
            String.length head' + String.length tail' <= String.length name)
    as (head' & tail' & -> & H2).
  { destruct (String.eqb tail "").
    - pose proof (os_path_split_length head) as H3.
      destruct (os_path_split head) as [h t]. cbn [fst snd] in H3.
      exists h, t. split; [reflexivity|lia].
    - exists head, tail. split; [reflexivity|lia]. }
  set (mk := try_except (os_mkdir name) is_OSError
                (fun e => d <- os_path_isdir name ;;
                          if negb d then raise e else ret tt)).
  assert (Hmk : forall w0, fst (mk w0) <> Raise RecursionError).
  { intros w0. unfold mk, try_except, os_mkdir.
    destruct (FS.namei true w0 name) as [[] |[k [n|]]];
      cbn [is_OSError FS.oserror]; try discriminate;
      unfold bind, os_path_isdir, gets; destruct (isdir w0 name);
      cbn [negb fst]; discriminate. }
  clearbody mk.
  assert (Hk : forall (b : bool) w0,
             fst ((if b then mk else ret tt) w0) <> Raise RecursionError).
  { intros [] w0; [apply Hmk | discriminate]. }
  unfold bind at 1.
  destruct (negb (String.eqb head' "") && negb (String.eqb tail' "")) eqn:Hc;
    [|exact (Hk true w)].
  apply andb_true_iff in Hc as [_ Ht].
  assert (String.length head' < depth).
  { destruct tail'; [discriminate|]. cbn [String.length] in H2. lia. }
  unfold bind at 1. unfold os_path_exists, gets.
  destruct (negb (exists_ w head')); [|exact (Hk true w)].
  unfold bind at 1. unfold try_except.
  pose proof (IH head' w ltac:(assumption)) as Hrec.
  destruct (makedirs_rec depth head' w) as [[[]|e] w1]; cbn [fst] in Hrec.
  - exact (Hk (negb (String.eqb tail' ".")) w1).
  - destruct (is_FileExistsError e) eqn:He;
      [exact (Hk (negb (String.eqb tail' ".")) w1)|].
    cbn [fst]. congruence.
Qed.

Lemma os_makedirs_total name w :
  fst (os_makedirs name w) <> Raise RecursionError.
Proof. apply makedirs_rec_depth. lia. Qed.

(** ** The walk, one directory at a time *)

(** Whether a directory is taken for a job depends on the files and on
    the working directory only. *)
Lemma is_job_dir_ext w1 w2 p :
  files w1 = files w2 -> cwd w1 = cwd w2 -> is_job_dir w1 p = is_job_dir w2 p.
Proof.
  intros Hf Hc. unfold is_job_dir, has_script, isdir, os_listdir, FS.namei.
  rewrite Hf, Hc.
  destruct (decide (p = "")); [reflexivity|].
  destruct (FS.walk _ _ _ _ _) as [e|[k [[|x|t]|]]]; reflexivity.
Qed.

Lemma is_job_dir_dot dp w p : is_job_dir (dot dp w) p = is_job_dir w p.
Proof. destruct dp; now apply is_job_dir_ext. Qed.

Lemma is_job_dir_warn_skipping e w p :
  is_job_dir (warn_skipping e w) p = is_job_dir w p.
Proof. now apply is_job_dir_ext. Qed.

Section WalkerFacts.

Context {R : Type}.
Variable function : string -> M R.

Lemma apply_guarded_eq dir (st : walk_state) w :
  apply_guarded function dir st w =
  match function dir w with
  | (Ret r, w1) => (Ret (fst st ++ [r], snd st ++ [(dir, Ret r)]), w1)
  | (Raise e, w1) =>
      (Ret (fst st, snd st ++ [(dir, Raise e)]), warn_skipping e w1)
  end.
Proof.
  unfold apply_guarded, try_except, bind.
  destruct (function dir w) as [[r|e] w1]; reflexivity.
Qed.

Lemma apply_guarded_step dir st w :
  apply_guarded function dir st w
  = (Ret (step_state function dir st w), step_world function dir w).
Proof.
  rewrite apply_guarded_eq. unfold step_state, step_world.
  destruct (function dir w) as [[r|e] w1]; reflexivity.
Qed.

Lemma for_folders_cons path folder rest dp st w :
  for_folders function path (folder :: rest) dp st w =
  let job_folder := posixpath.join path folder in
  if is_job_dir w job_folder then
    for_folders function path rest dp (step_state function job_folder st w)
      (dot dp (step_world function job_folder w))
  else for_folders function path rest dp st w.
Proof.
  cbn [for_folders]. unfold is_job_dir, has_script.
  set (jf := posixpath.join path folder).
  unfold bind at 1. unfold os_path_isdir, gets.
  destruct (isdir w jf) eqn:Hd; cbn [andb]; [|reflexivity].
  destruct (isdir_listdir _ _ Hd) as [names Hl].
  unfold bind at 1. unfold bind at 1. rewrite Hl.
  destruct (bool_decide (Names.scriptname ∈ names)); [|reflexivity].
  unfold bind at 1. rewrite apply_guarded_step.
  unfold bind at 1. destruct dp; reflexivity.
Qed.

End WalkerFacts.

Section WalkerRuns.

Context {R : Type}.
Variable function : string -> M R.
Hypothesis Hkeeps : keeps_jobs function.

Lemma step_state_eq dir (st : walk_state) w :
  step_state function dir st w
  = (fst st ++ successes [(dir, fst (function dir w))],
     snd st ++ [(dir, fst (function dir w))]).
Proof.
  unfold step_state. destruct (function dir w) as [[r|e] w1]; simpl;
    [reflexivity | now rewrite app_nil_r].
Qed.

Lemma step_world_jobs dp dir w p :
  is_job_dir (dot dp (step_world function dir w)) p = is_job_dir w p.
Proof.
  rewrite is_job_dir_dot. unfold step_world.
  pose proof (Hkeeps dir w p) as H.
  destruct (function dir w) as [[r|e] w1]; simpl in H;
    [exact H | now rewrite is_job_dir_warn_skipping].
Qed.

Lemma job_children_ext w1 w2 path names :
  (forall p, is_job_dir w1 p = is_job_dir w2 p) ->
  job_children w1 path names = job_children w2 path names.
Proof.
  intros H. unfold job_children. f_equal.
  induction names as [|n names IH]; simpl; [reflexivity|].
  now rewrite H, IH.
Qed.


Lemma step_world_warnings dp dir w :
  keeps_warnings function ->
  exists l, warnings (dot dp (step_world function dir w)) = warnings w ++ l /\
            forall e, fst (function dir w) = Raise e ->
                      WarnExn e ∈ l /\ skipping_text ∈ l.
Proof.
  intros Hw. unfold step_world. destruct (Hw dir w) as [l H].
  destruct (function dir w) as [[r|e] w1]; simpl in H.
  - exists l. split; [destruct dp; exact H | discriminate].
  - exists (l ++ [WarnExn e; skipping_text]). split.
    + destruct dp; simpl; rewrite H; now rewrite <- !app_assoc.
    + intros e' [= <-]. split; apply elem_of_app; right;
        [apply list_elem_of_here | apply list_elem_of_further, list_elem_of_here].
Qed.


End WalkerRuns.

(** ** [recursive_function]: the whole walk *)

Section WalkerWhole.

Context {R : Type}.
Variable function : string -> M R.

Lemma traced_unlistable path dp w e w1 :
  os_listdir path w = (Raise e, w1) ->
  recursive_function_traced function path dp w = (Raise e, w1).
Proof. intros H. unfold recursive_function_traced. now apply bind_raise. Qed.

Lemma traced_root path dp w names :
  os_listdir path w = (Ret names, w) -> Names.scriptname ∈ names ->
  recursive_function_traced function path dp w
  = (Ret (step_state function path ([], []) w), step_world function path w).
Proof.
  intros H Hin. unfold recursive_function_traced.
  rewrite (bind_ret _ _ _ _ _ H).
  rewrite bool_decide_eq_true_2 by exact Hin. apply apply_guarded_step.
Qed.

Lemma traced_children path dp w names :
  os_listdir path w = (Ret names, w) -> Names.scriptname ∉ names ->
  recursive_function_traced function path dp w
  = for_folders function path names dp ([], []) w.
Proof.
  intros H Hin. unfold recursive_function_traced.
  rewrite (bind_ret _ _ _ _ _ H).
  rewrite bool_decide_eq_false_2 by exact Hin.
  now rewrite (bind_ret _ _ _ _ _ H).
Qed.

Lemma recursive_function_of_traced path dp w st w' :
  recursive_function_traced function path dp w = (Ret st, w') ->
  recursive_function function path dp w = (Ret (fst st), w').
Proof. intros H. unfold recursive_function. now rewrite (bind_ret _ _ _ _ _ H). Qed.


End WalkerWhole.

(** ** The walk against its specification *)

Section WalkerVisits.

Context {R : Type}.
Variable function : string -> M R.

Lemma successes_app (l1 l2 : list (string * outcome R)) :
  successes (l1 ++ l2) = successes l1 ++ successes l2.
Proof.
  unfold successes. induction l1 as [|[d [r|e]] l1 IH]; cbn; [reflexivity| |];
    now rewrite ?IH.
Qed.

Lemma for_folders_visit path dp names :
  forall (st : walk_state) w,
    for_folders function path names dp st w
    = (Ret (fst st ++ successes (fst (visit_each function path dp names w)),
            snd st ++ fst (visit_each function path dp names w)),
       snd (visit_each function path dp names w)).
Proof.
  induction names as [|n rest IH]; intros st w.
  - cbn. rewrite !app_nil_r. now destruct st.
  - rewrite for_folders_cons. cbv zeta. cbn [visit_each].
    destruct (is_job_dir w (posixpath.join path n)); [|apply IH].
    rewrite IH, step_state_eq. cbn [fst snd].
    change ((posixpath.join path n, fst (function (posixpath.join path n) w))
            :: fst (visit_each function path dp rest
                      (dot dp (step_world function (posixpath.join path n) w))))
      with ([(posixpath.join path n,
              fst (function (posixpath.join path n) w))] ++
            fst (visit_each function path dp rest
                   (dot dp (step_world function (posixpath.join path n) w)))).
    now rewrite successes_app, <- !app_assoc.
Qed.

(** The walk is its specification, for every operation. *)
Lemma traced_visit path dp w names :
  os_listdir path w = (Ret names, w) ->
  recursive_function_traced function path dp w
  = (Ret (successes (fst (visit function path dp names w)),
          fst (visit function path dp names w)),
     snd (visit function path dp names w)).
Proof.
  intros Hl. unfold visit.
  destruct (decide (Names.scriptname ∈ names)) as [Hin|Hin].
  - rewrite (traced_root function _ dp _ _ Hl Hin), step_state_eq.
    now rewrite bool_decide_eq_true_2 by exact Hin.
  - rewrite (traced_children function _ dp _ _ Hl Hin), for_folders_visit.
    now rewrite bool_decide_eq_false_2 by exact Hin.
Qed.

Lemma recursive_function_visit path dp w names :
  os_listdir path w = (Ret names, w) ->
  recursive_function function path dp w
  = (Ret (successes (fst (visit function path dp names w))),
     snd (visit function path dp names w)).
Proof.
  intros Hl. unfold recursive_function.
  now rewrite (bind_ret _ _ _ _ _ (traced_visit path dp w names Hl)).
Qed.

Lemma visit_each_sublist path dp names :
  forall w,
    sublist (map fst (fst (visit_each function path dp names w)))
      (map (posixpath.join path) names).
Proof.
  induction names as [|n rest IH]; intros w; cbn [visit_each map].
  - constructor.
  - destruct (is_job_dir w (posixpath.join path n)); cbn [fst map].
    + apply sublist_skip, IH.
    + apply sublist_cons, IH.
Qed.

Lemma visit_each_keeps_jobs path dp names :
  keeps_jobs function ->
  forall w,
    map fst (fst (visit_each function path dp names w))
    = job_children w path names.
Proof.
  intros Hk. induction names as [|n rest IH]; intros w; [reflexivity|].
  cbn [visit_each]. unfold job_children. cbn [List.filter].
  destruct (is_job_dir w (posixpath.join path n)); cbn [fst map].
  - f_equal. rewrite IH. apply job_children_ext.
    intros p. now apply step_world_jobs.
  - apply IH.
Qed.

Lemma visit_keeps_jobs path dp names w :
  keeps_jobs function ->
  map fst (fst (visit function path dp names w))
  = if bool_decide (Names.scriptname ∈ names) then [path]
    else job_children w path names.
Proof.
  intros Hk. unfold visit. destruct (bool_decide _); [reflexivity|].
  now apply visit_each_keeps_jobs.
Qed.

Lemma step_world_appends dp dir w :
  keeps_warnings function ->
  exists l, warnings (dot dp (step_world function dir w)) = warnings w ++ l.
Proof.
  intros Hw. destruct (step_world_warnings function dp dir w Hw) as (l & H & _).
  now exists l.
Qed.

Lemma visit_each_appends path dp names :
  keeps_warnings function ->
  forall w,
    exists l,
      warnings (snd (visit_each function path dp names w)) = warnings w ++ l.
Proof.
  intros Hw. induction names as [|n rest IH]; intros w; cbn [visit_each].
  - exists []. now rewrite app_nil_r.
  - destruct (is_job_dir w (posixpath.join path n)); [|apply IH].
    cbn [snd].
    destruct (step_world_appends dp (posixpath.join path n) w Hw) as [l1 H1].
    destruct (IH (dot dp (step_world function (posixpath.join path n) w)))
      as [l2 H2].
    exists (l1 ++ l2). now rewrite H2, H1, app_assoc.
Qed.

(** The two warnings of the handler, one after the other, when the
    application to [dir] raised. *)
Lemma step_world_raised dp dir w e :
  fst (function dir w) = Raise e ->
  exists before,
    warnings (dot dp (step_world function dir w))
    = before ++ [WarnExn e; skipping_text].
Proof.
  unfold step_world. destruct (function dir w) as [[r|e0] w1]; [discriminate|].
  intros [= ->]. exists (warnings w1). destruct dp; cbn.
  all: now rewrite <- app_assoc.
Qed.

Lemma visit_each_warnings path dp names :
  keeps_warnings function ->
  forall w e,
    e ∈ failures (fst (visit_each function path dp names w)) ->
    exists before after,
      warnings (snd (visit_each function path dp names w))
      = before ++ WarnExn e :: skipping_text :: after.
Proof.
  intros Hw. induction names as [|n rest IH]; intros w e; cbn [visit_each].
  - intros He. inversion He.
  - destruct (is_job_dir w (posixpath.join path n)); [|apply IH].
    cbn [fst snd]. unfold failures. cbn [omap list_omap snd].
    set (dir := posixpath.join path n).
    destruct (fst (function dir w)) as [r|e0] eqn:Hr.
    + apply IH.
    + intros He. apply elem_of_cons in He as [->|He]; [|now apply IH].
      destruct (step_world_raised dp dir w e0 Hr) as [before Hb].
      destruct (visit_each_appends path dp rest Hw
                  (dot dp (step_world function dir w))) as [l Hl].
      exists before, l. rewrite Hl, Hb. now rewrite <- app_assoc.
Qed.

Lemma visit_warnings path dp names w e :
  keeps_warnings function ->
  e ∈ failures (fst (visit function path dp names w)) ->
  exists before after,
    warnings (snd (visit function path dp names w))
    = before ++ WarnExn e :: skipping_text :: after.
Proof.
  intros Hw. unfold visit. destruct (bool_decide _);
    [|now apply visit_each_warnings].
  unfold visit_root, failures. cbn [fst snd omap list_omap].
  destruct (fst (function path w)) as [r|e0] eqn:Hr; intros He;
    [inversion He|].
  apply list_elem_of_singleton in He as ->.
  destruct (step_world_raised false path w e0 Hr) as [before Hb].
  cbn [dot] in Hb. exists before, []. exact Hb.
Qed.

End WalkerVisits.

(** C1: the walk applies the operation once to [path] itself when [path]
    holds an entry named [edison.sbatch], and visits nothing below it: what
    it returns and the world it leaves are those of that one application
    (with the handler's warnings when it raised).  Otherwise it goes
    through the entries of [path] in listing order (the listing names each
    entry once) and applies the operation once to each entry that is, when
    its turn comes, a directory holding such an entry, each application
    starting in the world the one before left, and to nothing else,
    nothing deeper than the entries of [path] in particular; for an
    operation that leaves job directories job directories these are the
    entries that were job directories at the start. *)
Theorem recursive_function_applies_once {R} (function : string -> M R)
    (path : string) (dotprint : bool) (w : world) (names : list string) :
  os_listdir path w = (Ret names, w) ->
  NoDup names /\
  (Names.scriptname ∈ names ->
   recursive_function function path dotprint w
   = match function path w with
     | (Ret r, w1) => (Ret [r], w1)
     | (Raise e, w1) => (Ret [], warn_skipping e w1)
     end) /\
  (Names.scriptname ∉ names ->
   recursive_function function path dotprint w
   = (Ret (successes (fst (visit_each function path dotprint names w))),
      snd (visit_each function path dotprint names w)) /\
   sublist (map fst (fst (visit_each function path dotprint names w)))
     (map (posixpath.join path) names) /\
   (keeps_jobs function ->
    map fst (fst (visit_each function path dotprint names w))
    = map (posixpath.join path)
        (List.filter (fun n => is_job_dir w (posixpath.join path n)) names))).
Proof.
  intros Hl. split; [now apply os_listdir_NoDup in Hl|]. split; intros Hin.
  - rewrite (recursive_function_visit function path dotprint w names Hl).
    unfold visit, visit_root. rewrite bool_decide_eq_true_2 by exact Hin.
    unfold step_world. cbn [fst snd].
    destruct (function path w) as [[r|e] w1]; reflexivity.
  - split; [|split].
    + rewrite (recursive_function_visit function path dotprint w names Hl).
      unfold visit. now rewrite bool_decide_eq_false_2 by exact Hin.
    + apply visit_each_sublist.
    + intros Hk. now apply visit_each_keeps_jobs.
Qed.



Lemma probe_keeps_warnings : keeps_warnings Demo.probe.
Proof.
  intros d w. exists []. rewrite app_nil_r.
  unfold Demo.probe. now destruct (String.eqb d "/runs/b").
Qed.

Lemma os_listdir_world p w : snd (os_listdir p w) = w.
Proof.
  unfold os_listdir.
  destruct (FS.namei false w p) as [e|[k [[|x|t]|]]]; reflexivity.
Qed.

Lemma os_listdir_of_fst p w names :
  fst (os_listdir p w) = Ret names -> os_listdir p w = (Ret names, w).
Proof.
  intros H. apply pair_of_fst in H. now rewrite os_listdir_world in H.
Qed.

Lemma demo_listing : os_listdir "/runs" Demo.w = (Ret Demo.listing, Demo.w).
Proof. apply os_listdir_of_fst. vm_compute. reflexivity. Qed.

Lemma recursive_function_applies_once_witness :
  os_listdir "/runs" Demo.w = (Ret Demo.listing, Demo.w) /\
  NoDup Demo.listing /\
  (Names.scriptname ∈ Demo.listing ->
   recursive_function Demo.probe "/runs" true Demo.w
   = match Demo.probe "/runs" Demo.w with
     | (Ret r, w1) => (Ret [r], w1)
     | (Raise e, w1) => (Ret [], warn_skipping e w1)
     end) /\
  (Names.scriptname ∉ Demo.listing ->
   recursive_function Demo.probe "/runs" true Demo.w
   = (Ret (successes (fst (visit_each Demo.probe "/runs" true Demo.listing
                             Demo.w))),
      snd (visit_each Demo.probe "/runs" true Demo.listing Demo.w)) /\
   sublist (map fst (fst (visit_each Demo.probe "/runs" true Demo.listing
                            Demo.w)))
     (map (posixpath.join "/runs") Demo.listing) /\
   (keeps_jobs Demo.probe ->
    map fst (fst (visit_each Demo.probe "/runs" true Demo.listing Demo.w))
    = map (posixpath.join "/runs")
        (List.filter (fun n => is_job_dir Demo.w (posixpath.join "/runs" n))
           Demo.listing))).
Proof.
  exact (conj demo_listing
           (recursive_function_applies_once Demo.probe "/runs" true Demo.w
              Demo.listing demo_listing)).
Defined.

(** C6: whatever exceptions the operation raises on some of the candidate
    directories, the walk ends normally, and this for every operation:
    the walk is the sequence of applications of its specification, in
    which a failure is recorded and the next candidate is taken.  What it
    returns is the list of the results of the applications that
    succeeded, in the order of the applications.  The candidates are all
    attempted, raising or not: for an operation that leaves job
    directories job directories they are [path] itself or its entries
    that are job directories.  Each exception is caught and logged as a
    warning, followed at once by the warning that the directory is
    skipped: for an operation that takes no warning back the two are next
    to each other in the warnings at the end. *)
Theorem recursive_function_isolates_failures {R} (function : string -> M R)
    (path : string) (dotprint : bool) (w : world) (names : list string) :
  os_listdir path w = (Ret names, w) ->
  recursive_function function path dotprint w
  = (Ret (successes (fst (visit function path dotprint names w))),
     snd (visit function path dotprint names w)) /\
  (keeps_jobs function ->
   map fst (fst (visit function path dotprint names w))
   = if bool_decide (Names.scriptname ∈ names) then [path]
     else job_children w path names) /\
  (keeps_warnings function ->
   forall e,
     e ∈ failures (fst (visit function path dotprint names w)) ->
     exists before after,
       warnings (snd (visit function path dotprint names w))
       = before ++ WarnExn e :: skipping_text :: after).
Proof.
  intros Hl. split; [now apply recursive_function_visit|]. split.
  - intros Hk. now apply visit_keeps_jobs.
  - intros Hw e. now apply visit_warnings.
Qed.

Lemma recursive_function_isolates_failures_witness :
  os_listdir "/runs" Demo.w = (Ret Demo.listing, Demo.w) /\
  recursive_function Demo.probe "/runs" false Demo.w
  = (Ret (successes (fst (visit Demo.probe "/runs" false Demo.listing
                            Demo.w))),
     snd (visit Demo.probe "/runs" false Demo.listing Demo.w)) /\
  (keeps_jobs Demo.probe ->
   map fst (fst (visit Demo.probe "/runs" false Demo.listing Demo.w))
   = if bool_decide (Names.scriptname ∈ Demo.listing) then ["/runs"]
     else job_children Demo.w "/runs" Demo.listing) /\
  (keeps_warnings Demo.probe ->
   forall e,
     e ∈ failures (fst (visit Demo.probe "/runs" false Demo.listing Demo.w)) ->
     exists before after,
       warnings (snd (visit Demo.probe "/runs" false Demo.listing Demo.w))
       = before ++ WarnExn e :: skipping_text :: after).
Proof.
  exact (conj demo_listing
           (recursive_function_isolates_failures Demo.probe "/runs" false
              Demo.w Demo.listing demo_listing)).
Defined.



(** ** [run_job] *)

Lemma check_output_inv cmd w out w1 :
  subprocess_check_output cmd w = (Ret out, w1) ->
  shell w cmd = (0%Z, out) /\ w1 = w.
Proof.
  unfold subprocess_check_output. destruct (shell w cmd) as [rc o].
  destruct (Z.eqb_spec rc 0); intros [= <- <-]; subst; auto.
Qed.

Lemma decode_utf8_inv b w s w1 :
  decode_utf8 b w = (Ret s, w1) -> s = b /\ w1 = w.
Proof.
  unfold decode_utf8. destruct (utf8_valid _); intros [= <- <-]; auto.
Qed.

Lemma index_last_inv {A} (l : list A) w x w1 :
  index_last l w = (Ret x, w1) -> last l = Some x /\ w1 = w.
Proof.
  unfold index_last, Py.last_item. destruct (last l); intros [= <- <-]; auto.
Qed.

Lemma file_write_inv p w k old data u w1 :
  FS.namei false w p = inr (k, Some (File old)) ->
  file_write k data w = (Ret u, w1) ->
  FS.namei false w1 p = inr (k, Some (File (old +:+ data))) /\
  stdout w1 = stdout w /\ clock w1 = clock w.
Proof.
  intros H Hw. destruct (file_write_ret _ _ _ _ data H) as (w1' & E & Hn).
  rewrite Hw in E. inversion E; subst. split; [exact Hn|].
  unfold file_write, modify in Hw. inversion Hw.
  destruct (files w !! k) as [[|x|t]|]; auto.
Qed.

Lemma run_job_inv job_folder w v w' :
  run_job job_folder w = (Ret v, w') ->
  exists describe output token,
    v = VNone /\
    shell w "git describe --tags" = (0%Z, describe) /\
    shell w (sbatch_cmd job_folder) = (0%Z, output) /\
    last (Py.split_ws output) = Some token /\
    stdout w' = stdout w ++ [token +:+ String "010" ""] /\
    holds w' (posixpath.join job_folder Names.metadatafile)
      (metadata_text token (clock w) (Py.strip describe)).
Proof.
  unfold run_job. intros H.
  bind_inv H as ex w1 H1. injection H1 as <- <-.
  bind_inv H as u w2 H2.
  assert (Hw2 : shell w2 = shell w /\ stdout w2 = stdout w /\ clock w2 = clock w).
  { destruct (negb _); inversion H2; subst; auto. }
  destruct Hw2 as (Hsh & Hso & Hck). clear H2.
  bind_inv H as describe w3 H3. apply check_output_inv in H3 as [H3 ->].
  bind_inv H as ver w4 H4. apply decode_utf8_inv in H4 as [-> ->].
  bind_inv H as output w5 H5. apply check_output_inv in H5 as [H5 ->].
  bind_inv H as token w6 H6. apply index_last_inv in H6 as [H6 ->].
  bind_inv H as jobnumber w7 H7. apply decode_utf8_inv in H7 as [-> ->].
  bind_inv H as fd w8 H8.
  assert (Hw8 : stdout w8 = stdout w2 /\ clock w8 = clock w2).
  { unfold open_w in H8. destruct (FS.namei false w2 _) as [e|[k [[|x|t]|]]];
      try discriminate; injection H8 as <- <-; auto. }
  destruct Hw8 as [Hso8 Hck8].
  apply open_w_ret in H8.
  bind_inv H as u1 w9 H9.
  destruct (file_write_inv _ _ _ _ _ _ _ H8 H9) as (F9 & Hso9 & Hck9).
  bind_inv H as now w10 H10. injection H10 as <- <-.
  bind_inv H as u2 w11 H11.
  destruct (file_write_inv _ _ _ _ _ _ _ F9 H11) as (F11 & Hso11 & Hck11).
  bind_inv H as u3 w12 H12.
  destruct (file_write_inv _ _ _ _ _ _ _ F11 H12) as (F12 & Hso12 & Hck12).
  bind_inv H as u4 w13 H13. inversion H13; subst. inversion H; subst.
  exists describe, output, token.
  rewrite Hsh in H3, H5.
  split; [reflexivity|]. split; [exact H3|]. split; [exact H5|].
  split; [exact H6|]. split.
  - cbn [stdout push_stdout]. congruence.
  - exists fd. unfold metadata_text.
    replace (clock w) with (clock w9) by congruence.
    exact F12.
Qed.

(** C3, as the code has it: a submission that succeeds returns [None];
    the job identifier parsed from the answer of the scheduler is printed
    on standard output, on a line of its own, as the last thing the
    function does. *)
Theorem run_job_prints_jobnumber (job_folder : string) (w w' : world)
    (v : value) :
  run_job job_folder w = (Ret v, w') ->
  v = VNone /\
  exists output jobnumber,
    shell w (sbatch_cmd job_folder) = (0%Z, output) /\
    last (Py.split_ws output) = Some jobnumber /\
    stdout w' = stdout w ++ [jobnumber +:+ String "010" ""].
Proof.
  intros H.
  destruct (run_job_inv _ _ _ _ H)
    as (describe & output & token & Hv & _ & Hs & Ht & Ho & _).
  split; [exact Hv|]. now exists output, token.
Qed.

Lemma demo_run_job :
  run_job "/runs/a" Demo.w = (Ret VNone, snd (run_job "/runs/a" Demo.w)).
Proof. apply pair_of_fst. vm_compute. reflexivity. Qed.

Lemma run_job_prints_jobnumber_witness :
  run_job "/runs/a" Demo.w = (Ret VNone, snd (run_job "/runs/a" Demo.w)) /\
  VNone = VNone /\
  exists output jobnumber,
    shell Demo.w (sbatch_cmd "/runs/a") = (0%Z, output) /\
    last (Py.split_ws output) = Some jobnumber /\
    stdout (snd (run_job "/runs/a" Demo.w))
    = stdout Demo.w ++ [jobnumber +:+ String "010" ""].
Proof.
  exact (conj demo_run_job
           (run_job_prints_jobnumber "/runs/a" Demo.w _ VNone demo_run_job)).
Defined.

(** C3 fails as stated: in the concrete world the scheduler answers
    "Submitted batch job 12345", the submission succeeds, and what
    [run_job] hands back to its caller is [None], not "12345". *)
Lemma run_job_result_is_not_the_jobnumber :
  shell Demo.w (sbatch_cmd "/runs/a")
  = (0%Z, "Submitted batch job 12345" +:+ String "010" "") /\
  last (Py.split_ws (snd (shell Demo.w (sbatch_cmd "/runs/a")))) = Some "12345" /\
  fst (run_job "/runs/a" Demo.w) = Ret VNone /\
  fst (run_job "/runs/a" Demo.w) <> Ret (VStr "12345").
Proof.
  split; [reflexivity|]. split; [reflexivity|].
  rewrite demo_run_job. split; [reflexivity | discriminate].
Qed.

(** C7: on a submission that succeeds, the job identifier is the last
    whitespace-delimited token of what the scheduler answered, and the
    metadata file then holds three comma-separated rows of two columns,
    [jobnumber], [submittime], [qualikiz_version] in this order and nothing
    before them, whatever the file held before. *)
Theorem run_job_metadata (job_folder : string) (w w' : world) (v : value) :
  run_job job_folder w = (Ret v, w') ->
  exists describe output jobnumber,
    shell w "git describe --tags" = (0%Z, describe) /\
    shell w (sbatch_cmd job_folder) = (0%Z, output) /\
    last (Py.split_ws output) = Some jobnumber /\
    read_bytes (posixpath.join job_folder Names.metadatafile) w'
    = (Ret (csv.row ["jobnumber"; jobnumber] +:+
            csv.row ["submittime"; datetime_str (clock w)] +:+
            csv.row ["qualikiz_version"; Py.strip describe]), w').
Proof.
  intros H.
  destruct (run_job_inv _ _ _ _ H)
    as (describe & output & token & _ & Hd & Hs & Ht & _ & Hm).
  exists describe, output, token. repeat (split; [assumption|]).
  apply read_bytes_holds in Hm. rewrite Hm. unfold metadata_text.
  now rewrite str_app_assoc.
Qed.

Lemma run_job_metadata_witness :
  run_job "/runs/a" Demo.w = (Ret VNone, snd (run_job "/runs/a" Demo.w)) /\
  exists describe output jobnumber,
    shell Demo.w "git describe --tags" = (0%Z, describe) /\
    shell Demo.w (sbatch_cmd "/runs/a") = (0%Z, output) /\
    last (Py.split_ws output) = Some jobnumber /\
    read_bytes (posixpath.join "/runs/a" Names.metadatafile)
      (snd (run_job "/runs/a" Demo.w))
    = (Ret (csv.row ["jobnumber"; jobnumber] +:+
            csv.row ["submittime"; datetime_str (clock Demo.w)] +:+
            csv.row ["qualikiz_version"; Py.strip describe]),
       snd (run_job "/runs/a" Demo.w)).
Proof.
  exact (conj demo_run_job
           (run_job_metadata "/runs/a" Demo.w _ VNone demo_run_job)).
Defined.

(** ** [EmptyJob.to_file] *)

Section MaterializeFacts.

Variable pickle : pickler.

Lemma to_file_in_runsdir self runsdir qualikizdir overwrite metapickle w :
  posixpath.isabs qualikizdir = true ->
  posixpath.isabs runsdir = true ->
  isdir w runsdir = true ->
  EmptyJob_to_file pickle self runsdir qualikizdir overwrite metapickle w
  = bind (to_file_mkdir (job_dir w self runsdir) overwrite)
      (to_file_rest pickle self (job_dir w self runsdir) qualikizdir metapickle) w.
Proof.
  intros Hq Hr Hd. unfold EmptyJob_to_file. rewrite Hq, Hr. cbn [negb].
  unfold bind at 1. unfold os_path_isdir, gets. rewrite Hd. cbn [negb].
  unfold bind at 1. unfold ret at 1.
  unfold bind at 1. unfold job_path, os_getcwd, bind, gets, ret.
  reflexivity.
Qed.

Lemma to_file_mkdir_overwrite path w :
  isdir w path = true ->
  to_file_mkdir path true w = overwrite_dir path w.
Proof.
  intros Hd. unfold to_file_mkdir, try_except.
  unfold bind at 1. rewrite (isdir_mkdir_exists _ _ Hd). reflexivity.
Qed.

Lemma to_file_mkdir_ask path w resp rest :
  isdir w path = true ->
  stdin w = resp :: rest ->
  to_file_mkdir path false w =
  if affirmative resp then overwrite_dir path (asked rest w)
  else (Ret (Some (VInt 1)),
        push_stdout ("aborting" +:+ String "010" "") (asked rest w)).
Proof.
  intros Hd Hin. unfold to_file_mkdir, try_except.
  unfold bind at 1. rewrite (isdir_mkdir_exists _ _ Hd).
  cbn [is_FileExistsError negb].
  unfold bind at 1. unfold bind at 1. unfold input.
  cbn [stdin push_stdout]. rewrite Hin. fold (affirmative resp).
  destruct (affirmative resp); reflexivity.
Qed.


Lemma os_mkdir_cwd p w u w1 : os_mkdir p w = (Ret u, w1) -> cwd w1 = cwd w.
Proof.
  unfold os_mkdir. destruct (FS.namei true w p) as [e|[k [n|]]];
    intros H; inversion H; reflexivity.
Qed.

Lemma read_bytes_world p w c w1 : read_bytes p w = (Ret c, w1) -> w1 = w.
Proof.
  unfold read_bytes. destruct (FS.namei false w p) as [e|[k [[|x|t]|]]];
    intros H; inversion H; reflexivity.
Qed.

Lemma join_empty_cons x l : Py.join "" (x :: l) = x +:+ Py.join "" l.
Proof. destruct l; [symmetry; apply str_app_nil_r | reflexivity]. Qed.

(** Writing the lines read gives the text back. *)
Lemma writelines_readlines s : Py.writelines (Py.readlines s) = s.
Proof.
  unfold Py.writelines. induction s as [|c s IH]; [reflexivity|].
  cbn [Py.readlines]. destruct (Ascii.eqb c "010").
  - rewrite join_empty_cons, IH. reflexivity.
  - destruct (Py.readlines s) as [|line lines].
    + cbn in IH. subst s. reflexivity.
    + rewrite join_empty_cons in *. rewrite <- IH. reflexivity.
Qed.

Lemma to_file_script_inv self qualikizdir w text w1 :
  to_file_script self qualikizdir w = (Ret text, w1) ->
  w1 = w /\
  (parameters_script self <> "" -> text = parameters_script self) /\
  (parameters_script self = "" ->
   exists template,
     read_bytes (posixpath.join qualikizdir "parameters_template.py") w
     = (Ret template, w) /\
     text = Py.universal_newlines template).
Proof.
  unfold to_file_script. destruct (String.eqb_spec (parameters_script self) "").
  - intros H. bind_inv H as lines w2 Hl. unfold open_readlines in Hl.
    bind_inv Hl as c w3 Hc. pose proof (read_bytes_world _ _ _ _ Hc) as ->.
    bind_inv Hl as text0 w4 Hu. apply decode_utf8_inv in Hu as [-> ->].
    inversion Hl; subst. inversion H; subst.
    split; [reflexivity|]. split; [congruence|]. intros _.
    exists c. split; [exact Hc | apply writelines_readlines].
  - intros H. inversion H; subst. split; [reflexivity|].
    split; [reflexivity | congruence].
Qed.

(** A materialization that runs to its end went through every step. *)
Lemma to_file_inv self runsdir qualikizdir overwrite metapickle w w' :
  EmptyJob_to_file pickle self runsdir qualikizdir overwrite metapickle w
  = (Ret VNone, w') ->
  exists w1 w2 w3 text w4,
    to_file_mkdir (job_dir w self runsdir) overwrite w1 = (Ret None, w2) /\
    to_file_layout self (job_dir w self runsdir) qualikizdir w2 = (Ret tt, w3) /\
    to_file_script self qualikizdir w3 = (Ret text, w3) /\
    to_file_parameters (job_dir w self runsdir) text w3 = (Ret tt, w4) /\
    to_file_snapshot pickle self (job_dir w self runsdir) metapickle w4
    = (Ret tt, w').
Proof.
  unfold EmptyJob_to_file. intros H.
  destruct (posixpath.isabs qualikizdir); [|discriminate].
  destruct (posixpath.isabs runsdir); [|discriminate]. cbn [negb] in H.
  bind_inv H as d w0 H0. injection H0 as <- <-.
  bind_inv H as u w1 H1.
  assert (Hc : cwd w1 = cwd w).
  { destruct (negb _); [now apply os_mkdir_cwd in H1 | now inversion H1]. }
  bind_inv H as path w1' Hp. unfold job_path, os_getcwd, bind, gets, ret in Hp.
  injection Hp as <- <-. rewrite Hc in H. fold (job_dir w self runsdir) in H.
  bind_inv H as early w2 H2. destruct early as [v|].
  { inversion H; subst. exfalso.
    unfold to_file_mkdir, try_except, bind in H2.
    destruct (os_mkdir _ w1) as [[[]|e] wm]; [discriminate|].
    destruct (is_FileExistsError e); [|discriminate].
    destruct (negb overwrite).
    - destruct (input _ wm) as [[resp|e'] wi]; [|discriminate].
      destruct (_ || _); cbn in H2.
      + destruct (shutil_rmtree _ _) as [[[]|?] ?]; [|discriminate].
        destruct (os_mkdir _ _) as [[[]|?] ?]; discriminate.
      + destruct overwrite; cbn in H2.
        * destruct (shutil_rmtree _ _) as [[[]|?] ?]; [|discriminate].
          destruct (os_mkdir _ _) as [[[]|?] ?]; discriminate.
        * discriminate.
    - cbn in H2. destruct overwrite; cbn in H2.
      + destruct (shutil_rmtree _ _) as [[[]|?] ?]; [|discriminate].
        destruct (os_mkdir _ _) as [[[]|?] ?]; discriminate.
      + discriminate. }
  bind_inv H as u3 w3 H3. destruct u3.
  bind_inv H as text w3' H4.
  pose proof (to_file_script_inv _ _ _ _ _ H4) as [-> _].
  bind_inv H as u5 w4 H5. destruct u5.
  bind_inv H as u6 w5 H6. destruct u6. inversion H; subst.
  now exists w1, w2, w3, text, w4.
Qed.

End MaterializeFacts.

Lemma affirmative_iff resp :
  affirmative resp = true <-> resp = "" \/ resp = "Y" \/ resp = "y".
Proof.
  unfold affirmative. rewrite !orb_true_iff, !String.eqb_eq. tauto.
Qed.

(** C4: materializing with [overwrite=False] into a directory that is
    there already (under an existing [runsdir]) asks once; the answer counts
    as a yes exactly when it is empty, "Y" or "y", and the call then goes on
    as one with [overwrite=True]; on any other answer it prints "aborting"
    and returns the sentinel [1], raises nothing, and leaves every file and
    directory as it was. *)
Theorem to_file_existing_directory (pickle : pickler) (self : EmptyJob)
    (runsdir qualikizdir : string) (metapickle : bool) (w : world)
    (resp : string) (rest : list string) :
  posixpath.isabs qualikizdir = true ->
  posixpath.isabs runsdir = true ->
  isdir w runsdir = true ->
  isdir w (job_dir w self runsdir) = true ->
  stdin w = resp :: rest ->
  (affirmative resp = true <-> resp = "" \/ resp = "Y" \/ resp = "y") /\
  (affirmative resp = true ->
   EmptyJob_to_file pickle self runsdir qualikizdir false metapickle w
   = EmptyJob_to_file pickle self runsdir qualikizdir true metapickle
       (asked rest w)) /\
  (affirmative resp = false ->
   exists w',
     EmptyJob_to_file pickle self runsdir qualikizdir false metapickle w
     = (Ret (VInt 1), w') /\
     files w' = files w /\
     stdin w' = rest /\
     stdout w' = stdout w ++ [prompt; "aborting" +:+ String "010" ""]).
Proof.
  intros Hq Hr Hd Ht Hin. split; [apply affirmative_iff|].
  assert (E : EmptyJob_to_file pickle self runsdir qualikizdir false metapickle w
              = if affirmative resp then
                  bind (overwrite_dir (job_dir w self runsdir))
                    (to_file_rest pickle self (job_dir w self runsdir)
                       qualikizdir metapickle) (asked rest w)
                else (Ret (VInt 1),
                      push_stdout ("aborting" +:+ String "010" "")
                        (asked rest w))).
  { rewrite to_file_in_runsdir by assumption.
    unfold bind at 1. rewrite (to_file_mkdir_ask _ _ _ _ Ht Hin).
    destruct (affirmative resp); reflexivity. }
  rewrite E. split; intros Ha; rewrite Ha.
  - rewrite to_file_in_runsdir by assumption.
    unfold bind at 2.
    rewrite (to_file_mkdir_overwrite (job_dir (asked rest w) self runsdir))
      by exact Ht.
    reflexivity.
  - eexists. split; [reflexivity|]. cbn. rewrite <- app_assoc. auto.
Qed.

Lemma demo_runsdir_isdir : isdir Demo.w Demo.runsdir = true.
Proof. vm_compute. reflexivity. Qed.

Lemma demo_old_isdir :
  isdir Demo.w (job_dir Demo.w Demo.job_old Demo.runsdir) = true.
Proof. vm_compute. reflexivity. Qed.

Lemma to_file_existing_directory_witness :
  posixpath.isabs Demo.toolsdir = true /\
  posixpath.isabs Demo.runsdir = true /\
  isdir Demo.w Demo.runsdir = true /\
  isdir Demo.w (job_dir Demo.w Demo.job_old Demo.runsdir) = true /\
  stdin Demo.w = ["n"] /\
  (affirmative "n" = true <-> "n" = "" \/ "n" = "Y" \/ "n" = "y") /\
  (affirmative "n" = true ->
   EmptyJob_to_file Demo.toy_pickle Demo.job_old Demo.runsdir Demo.toolsdir
     false true Demo.w
   = EmptyJob_to_file Demo.toy_pickle Demo.job_old Demo.runsdir Demo.toolsdir
       true true (asked [] Demo.w)) /\
  (affirmative "n" = false ->
   exists w',
     EmptyJob_to_file Demo.toy_pickle Demo.job_old Demo.runsdir Demo.toolsdir
       false true Demo.w
     = (Ret (VInt 1), w') /\
     files w' = files Demo.w /\
     stdin w' = [] /\
     stdout w' = stdout Demo.w ++ [prompt; "aborting" +:+ String "010" ""]).
Proof.
  exact (conj eq_refl (conj eq_refl (conj demo_runsdir_isdir
           (conj demo_old_isdir (conj eq_refl
              (to_file_existing_directory Demo.toy_pickle Demo.job_old
                 Demo.runsdir Demo.toolsdir true Demo.w "n" []
                 eq_refl eq_refl demo_runsdir_isdir demo_old_isdir
                 eq_refl)))))).
Defined.

(** C8: a materialization that runs to its end writes [parameters.py] in
    the job directory: the script of the job as it is when that is not
    empty, and otherwise what a text-mode read of
    [parameters_template.py] in the tools directory gives at that moment.
    The file holds that text once written; only the snapshot is written
    after it. *)
Theorem to_file_writes_parameters (pickle : pickler) (self : EmptyJob)
    (runsdir qualikizdir : string) (overwrite metapickle : bool)
    (w w' : world) :
  EmptyJob_to_file pickle self runsdir qualikizdir overwrite metapickle w
  = (Ret VNone, w') ->
  exists text w3 w4,
    to_file_parameters (job_dir w self runsdir) text w3 = (Ret tt, w4) /\
    read_bytes (posixpath.join (job_dir w self runsdir) "parameters.py") w4
    = (Ret text, w4) /\
    to_file_snapshot pickle self (job_dir w self runsdir) metapickle w4
    = (Ret tt, w') /\
    (metapickle = false -> w' = w4) /\
    (parameters_script self <> "" -> text = parameters_script self) /\
    (parameters_script self = "" ->
     exists template,
       read_bytes (posixpath.join qualikizdir "parameters_template.py") w3
       = (Ret template, w3) /\
       text = Py.universal_newlines template).
Proof.
  intros H.
  destruct (to_file_inv _ _ _ _ _ _ _ _ H)
    as (w1 & w2 & w3 & text & w4 & _ & _ & Hs & Hp & Hd).
  destruct (to_file_script_inv _ _ _ _ _ Hs) as (_ & Hown & Htpl).
  exists text, w3, w4. split; [exact Hp|]. split.
  { apply read_bytes_holds. now apply open_write_holds in Hp. }
  split; [exact Hd|]. split; [|split; assumption].
  intros ->. now inversion Hd.
Qed.

Lemma demo_job1_to_file :
  EmptyJob_to_file Demo.toy_pickle Demo.job1 Demo.runsdir Demo.toolsdir
    false true Demo.w
  = (Ret VNone,
     snd (EmptyJob_to_file Demo.toy_pickle Demo.job1 Demo.runsdir
            Demo.toolsdir false true Demo.w)).
Proof. apply pair_of_fst. vm_compute. reflexivity. Qed.

Lemma to_file_writes_parameters_witness :
  EmptyJob_to_file Demo.toy_pickle Demo.job1 Demo.runsdir Demo.toolsdir
    false true Demo.w
  = (Ret VNone,
     snd (EmptyJob_to_file Demo.toy_pickle Demo.job1 Demo.runsdir
            Demo.toolsdir false true Demo.w)) /\
  exists text w3 w4,
    to_file_parameters (job_dir Demo.w Demo.job1 Demo.runsdir) text w3
    = (Ret tt, w4) /\
    read_bytes
      (posixpath.join (job_dir Demo.w Demo.job1 Demo.runsdir) "parameters.py")
      w4
    = (Ret text, w4) /\
    to_file_snapshot Demo.toy_pickle Demo.job1
      (job_dir Demo.w Demo.job1 Demo.runsdir) true w4
    = (Ret tt,
       snd (EmptyJob_to_file Demo.toy_pickle Demo.job1 Demo.runsdir
              Demo.toolsdir false true Demo.w)) /\
    (true = false ->
     snd (EmptyJob_to_file Demo.toy_pickle Demo.job1 Demo.runsdir
            Demo.toolsdir false true Demo.w) = w4) /\
    (parameters_script Demo.job1 <> "" -> text = parameters_script Demo.job1) /\
    (parameters_script Demo.job1 = "" ->
     exists template,
       read_bytes (posixpath.join Demo.toolsdir "parameters_template.py") w3
       = (Ret template, w3) /\
       text = Py.universal_newlines template).
Proof.
  exact (conj demo_job1_to_file
           (to_file_writes_parameters Demo.toy_pickle Demo.job1 Demo.runsdir
              Demo.toolsdir false true Demo.w _ demo_job1_to_file)).
Defined.

(** C9: after a materialization with the snapshot enabled that runs to its
    end, [jobdata.pkl] in the job directory loads back ([pickle] keeping
    its contract) as an object with the name and the binary path of the
    job that was materialized. *)
Theorem to_file_snapshot_roundtrip (pickle : pickler) (self : EmptyJob)
    (runsdir qualikizdir : string) (overwrite : bool) (w w' : world) :
  pickle_roundtrip pickle ->
  EmptyJob_to_file pickle self runsdir qualikizdir overwrite true w
  = (Ret VNone, w') ->
  exists data reloaded,
    read_bytes (posixpath.join (job_dir w self runsdir) "jobdata.pkl") w'
    = (Ret data, w') /\
    loads pickle data = Some reloaded /\
    name reloaded = name self /\
    binary_path reloaded = binary_path self.
Proof.
  intros Hrt H.
  destruct (to_file_inv _ _ _ _ _ _ _ _ H)
    as (w1 & w2 & w3 & text & w4 & _ & _ & _ & _ & Hd).
  unfold to_file_snapshot, pickle_dump_file in Hd.
  destruct (dumps pickle self) as [data|] eqn:Hdump.
  - exists data, self. split.
    + apply read_bytes_holds. now apply open_write_holds in Hd.
    + split; [now apply Hrt | split; reflexivity].
  - bind_inv Hd as fd w5 Ho. discriminate.
Qed.

Lemma dec_enc s rest : Demo.dec (Demo.enc s rest) = Some (s, rest).
Proof.
  induction s as [|c s IH]; [reflexivity|].
  cbn [Demo.enc Demo.dec]. cbn. now rewrite IH.
Qed.

Lemma toy_pickle_roundtrip : pickle_roundtrip Demo.toy_pickle.
Proof.
  intros [bp ps n [r]] b. cbn. intros [= <-].
  unfold Demo.toy_loads. now rewrite !dec_enc.
Qed.

Lemma to_file_snapshot_roundtrip_witness :
  pickle_roundtrip Demo.toy_pickle /\
  EmptyJob_to_file Demo.toy_pickle Demo.job1 Demo.runsdir Demo.toolsdir
    false true Demo.w
  = (Ret VNone,
     snd (EmptyJob_to_file Demo.toy_pickle Demo.job1 Demo.runsdir
            Demo.toolsdir false true Demo.w)) /\
  exists data reloaded,
    read_bytes
      (posixpath.join (job_dir Demo.w Demo.job1 Demo.runsdir) "jobdata.pkl")
      (snd (EmptyJob_to_file Demo.toy_pickle Demo.job1 Demo.runsdir
              Demo.toolsdir false true Demo.w))
    = (Ret data,
       snd (EmptyJob_to_file Demo.toy_pickle Demo.job1 Demo.runsdir
              Demo.toolsdir false true Demo.w)) /\
    loads Demo.toy_pickle data = Some reloaded /\
    name reloaded = name Demo.job1 /\
    binary_path reloaded = binary_path Demo.job1.
Proof.
  exact (conj toy_pickle_roundtrip
           (conj demo_job1_to_file
              (to_file_snapshot_roundtrip Demo.toy_pickle Demo.job1
                 Demo.runsdir Demo.toolsdir false Demo.w _
                 toy_pickle_roundtrip demo_job1_to_file))).
Defined.

(** ** [Run.to_file] *)

Lemma Run_to_file_loop_app pickle before after runsdir qualikizdir overwrite w w1 :
  Run_to_file_loop pickle before runsdir qualikizdir overwrite w = (Ret tt, w1) ->
  Run_to_file_loop pickle (before ++ after) runsdir qualikizdir overwrite w
  = Run_to_file_loop pickle after runsdir qualikizdir overwrite w1.
Proof.
  revert w. induction before as [|[n job] before IH]; intros w H.
  - now inversion H.
  - cbn [Run_to_file_loop app] in *. bind_inv H as v w0 Hj.
    rewrite (bind_ret _ _ _ _ _ Hj). now apply IH.
Qed.

(** C2, as the code has it: [Run.to_file] has no handler around
    [job.to_file].  When the materialization of a job raises, the jobs
    before it in iteration order have been materialized, the exception
    leaves [Run.to_file], and the world is as the failing job left it: no
    job after it is attempted. *)
Theorem Run_to_file_stops_at_failure (pickle : pickler)
    (before after : list (string * EmptyJob)) (key : string) (job : EmptyJob)
    (root tools runs : string) (overwrite : bool)
    (w w1 w2 : world) (e : exn) :
  Run_to_file_loop pickle before runs tools overwrite w = (Ret tt, w1) ->
  EmptyJob_to_file pickle job runs tools overwrite true w1 = (Raise e, w2) ->
  Run_to_file pickle (mk_Run (before ++ (key, job) :: after) root tools runs)
    overwrite w
  = (Raise e, w2).
Proof.
  intros Hb Hj. unfold Run_to_file. cbn [jobs runsdir qualikizdir].
  apply bind_raise. rewrite (Run_to_file_loop_app _ _ _ _ _ _ _ _ Hb).
  cbn [Run_to_file_loop]. now apply bind_raise.
Qed.

Lemma demo_job1_fails :
  EmptyJob_to_file Demo.toy_pickle Demo.job1 Demo.runsdir "/opt/QuaLiKiz/tools"
    false true Demo.w
  = (Raise Demo.template_missing,
     snd (EmptyJob_to_file Demo.toy_pickle Demo.job1 Demo.runsdir
            "/opt/QuaLiKiz/tools" false true Demo.w)).
Proof. apply pair_of_fst. vm_compute. reflexivity. Qed.

Lemma Run_to_file_stops_at_failure_witness :
  Run_to_file_loop Demo.toy_pickle [] Demo.runsdir "/opt/QuaLiKiz/tools" false
    Demo.w = (Ret tt, Demo.w) /\
  EmptyJob_to_file Demo.toy_pickle Demo.job1 Demo.runsdir "/opt/QuaLiKiz/tools"
    false true Demo.w
  = (Raise Demo.template_missing,
     snd (EmptyJob_to_file Demo.toy_pickle Demo.job1 Demo.runsdir
            "/opt/QuaLiKiz/tools" false true Demo.w)) /\
  Run_to_file Demo.toy_pickle Demo.run_wrong_tools false Demo.w
  = (Raise Demo.template_missing,
     snd (EmptyJob_to_file Demo.toy_pickle Demo.job1 Demo.runsdir
            "/opt/QuaLiKiz/tools" false true Demo.w)).
Proof.
  exact (conj eq_refl
           (conj demo_job1_fails
              (Run_to_file_stops_at_failure Demo.toy_pickle []
                 [("job2", Demo.job2)] "job1" Demo.job1 "/opt/QuaLiKiz"
                 "/opt/QuaLiKiz/tools" Demo.runsdir false Demo.w Demo.w _
                 Demo.template_missing eq_refl demo_job1_fails))).
Defined.

(** C2 fails as stated: in the run set up with the wrong tools directory
    the materialization of [job1] raises (no template to read), the error
    leaves [Run.to_file], and [job2] is not attempted: its directory is not
    there afterwards, although materializing it then succeeds. *)
Lemma Run_to_file_leaves_jobs_unattempted :
  fst (Run_to_file Demo.toy_pickle Demo.run_wrong_tools false Demo.w)
  = Raise Demo.template_missing /\
  exists_ (snd (Run_to_file Demo.toy_pickle Demo.run_wrong_tools false Demo.w))
    "/opt/QuaLiKiz/runs/job1" = true /\
  exists_ (snd (Run_to_file Demo.toy_pickle Demo.run_wrong_tools false Demo.w))
    "/opt/QuaLiKiz/runs/job2" = false /\
  fst (EmptyJob_to_file Demo.toy_pickle Demo.job2 Demo.runsdir
         "/opt/QuaLiKiz/tools" false true
         (snd (Run_to_file Demo.toy_pickle Demo.run_wrong_tools false Demo.w)))
  = Ret VNone.
Proof. vm_compute. repeat split; reflexivity. Qed.

(** ** [Run.__init__] *)

Lemma isabs_join a b :
  posixpath.isabs a = true -> posixpath.isabs (posixpath.join a b) = true.
Proof.
  unfold posixpath.isabs, posixpath.join. intros Ha.
  destruct (Py.startswith "/" b) eqn:Hb; [exact Hb|].
  destruct a as [|c a]; [discriminate|].
  destruct (_ || _); exact Ha.
Qed.

(** C5: [Run.__init__] raises [PathException], with the name of the
    parameter at fault in its message, when [rootdir] is relative and when
    a [qualikizdir] or [runsdir] that was supplied is relative; with
    absolute paths it succeeds and keeps each path as given, taking
    [rootdir/tools/qualikiz] and [rootdir/runs] for the ones left out. *)
Theorem Run_init_paths (rootdir qualikizdir runsdir : string) :
  (posixpath.isabs rootdir = false ->
   Run_init rootdir qualikizdir runsdir
   = Raise (PathException_init "rootdir")) /\
  (posixpath.isabs rootdir = true ->
   qualikizdir <> "" -> posixpath.isabs qualikizdir = false ->
   Run_init rootdir qualikizdir runsdir
   = Raise (PathException_init "qualikizdir")) /\
  (posixpath.isabs rootdir = true ->
   qualikizdir = "" \/ posixpath.isabs qualikizdir = true ->
   runsdir <> "" -> posixpath.isabs runsdir = false ->
   Run_init rootdir qualikizdir runsdir
   = Raise (PathException_init "runsdir")) /\
  (posixpath.isabs rootdir = true ->
   qualikizdir = "" \/ posixpath.isabs qualikizdir = true ->
   runsdir = "" \/ posixpath.isabs runsdir = true ->
   Run_init rootdir qualikizdir runsdir
   = Ret (mk_Run [] rootdir
            (if String.eqb qualikizdir ""
             then posixpath.join rootdir "tools/qualikiz" else qualikizdir)
            (if String.eqb runsdir ""
             then posixpath.join rootdir "runs" else runsdir))).
Proof.
  unfold Run_init. repeat split.
  - intros ->. reflexivity.
  - intros -> Hne Hq. rewrite (proj2 (String.eqb_neq _ _) Hne), Hq. reflexivity.
  - intros Hr Hq Hne Hd. rewrite Hr.
    assert (posixpath.isabs
              (if String.eqb qualikizdir ""
               then posixpath.join rootdir "tools/qualikiz"
               else qualikizdir) = true) as ->.
    { destruct Hq as [->|Hq]; [now apply isabs_join|].
      destruct (String.eqb qualikizdir ""); [now apply isabs_join|exact Hq]. }
    rewrite (proj2 (String.eqb_neq _ _) Hne), Hd. reflexivity.
  - intros Hr Hq Hd. rewrite Hr.
    assert (posixpath.isabs
              (if String.eqb qualikizdir ""
               then posixpath.join rootdir "tools/qualikiz"
               else qualikizdir) = true) as ->.
    { destruct Hq as [->|Hq]; [now apply isabs_join|].
      destruct (String.eqb qualikizdir ""); [now apply isabs_join|exact Hq]. }
    assert (posixpath.isabs
              (if String.eqb runsdir ""
               then posixpath.join rootdir "runs" else runsdir) = true) as ->.
    { destruct Hd as [->|Hd]; [now apply isabs_join|].
      destruct (String.eqb runsdir ""); [now apply isabs_join|exact Hd]. }
    reflexivity.
Qed.

Lemma Run_init_paths_witness :
  Run_init "QuaLiKiz" "" "" = Raise (PathException_init "rootdir") /\
  Run_init "/opt/QuaLiKiz" "tools/qualikiz" ""
  = Raise (PathException_init "qualikizdir") /\
  Run_init "/opt/QuaLiKiz" "" "runs" = Raise (PathException_init "runsdir") /\
  Run_init "/opt/QuaLiKiz" "" "/scratch/runs"
  = Ret (mk_Run [] "/opt/QuaLiKiz" "/opt/QuaLiKiz/tools/qualikiz"
           "/scratch/runs").
Proof.
  split; [|split; [|split]].
  - exact (proj1 (Run_init_paths "QuaLiKiz" "" "") eq_refl).
  - refine (proj1 (proj2 (Run_init_paths "/opt/QuaLiKiz" "tools/qualikiz" ""))
              eq_refl _ eq_refl). discriminate.
  - refine (proj1 (proj2 (proj2 (Run_init_paths "/opt/QuaLiKiz" "" "runs")))
              eq_refl (or_introl eq_refl) _ eq_refl). discriminate.
  - exact (proj2 (proj2 (proj2 (Run_init_paths "/opt/QuaLiKiz" "" "/scratch/runs")))
             eq_refl (or_introl eq_refl) (or_intror eq_refl)).
Defined.

(** ** The model at work on concrete inputs *)

Example split_ex : Py.split "/" "/a//b/" = [""; "a"; ""; "b"; ""].
Proof. reflexivity. Qed.

Example split_ws_ex :
  Py.split_ws ("  Submitted batch  job 12345" +:+ String "010" "")
  = ["Submitted"; "batch"; "job"; "12345"].
Proof. reflexivity. Qed.

Example split_ws_blank : Py.split_ws ("  " +:+ String "010" "") = [].
Proof. reflexivity. Qed.

Example strip_ex : Py.strip ("  v2.3 -1" +:+ String "010" "") = "v2.3 -1".
Proof. reflexivity. Qed.

Example normpath_ex1 : posixpath.normpath "/a/./b/../c//d/" = "/a/c/d".
Proof. reflexivity. Qed.

Example normpath_ex2 : posixpath.normpath "//a/../../b" = "//b".
Proof. reflexivity. Qed.

Example normpath_ex3 : posixpath.normpath "a/../../b" = "../b".
Proof. reflexivity. Qed.

Example join_ex1 : posixpath.join "/runs" "job1" = "/runs/job1".
Proof. reflexivity. Qed.

Example join_ex2 : posixpath.join "/runs/" "/abs" = "/abs".
Proof. reflexivity. Qed.

Example basename_ex : posixpath.basename "/opt/QuaLiKiz/QuaLiKiz" = "QuaLiKiz".
Proof. reflexivity. Qed.

Example os_path_split_ex :
  os_path_split "/runs/job1/output/primitive" = ("/runs/job1/output", "primitive").
Proof. reflexivity. Qed.

Example readlines_ex :
  Py.readlines (Py.universal_newlines ("a" +:+ String "013" (String "010" "b")))
  = [String "a" (String "010" ""); "b"].
Proof. reflexivity. Qed.

Example csv_row_plain :
  csv.row ["jobnumber"; "12345"]
  = "jobnumber,12345" +:+ String "013" (String "010" "").
Proof. reflexivity. Qed.

Example csv_row_quoted :
  csv.row ["jobnumber"; "12,345"]
  = "jobnumber," +:+ String "034" "12,345" +:+ String "034" ""
    +:+ String "013" (String "010" "").
Proof. reflexivity. Qed.

Example datetime_str_ex : datetime_str Demo.now = "2016-09-01 12:34:56".
Proof. reflexivity. Qed.

Example datetime_str_micro :
  datetime_str (mk_datetime 2016 9 1 2 3 4 5000) = "2016-09-01 02:03:04.005000".
Proof. reflexivity. Qed.

(** The walk over [/runs]: [b] fails and is skipped, [a] succeeds, [c] and
    what lies under it are not touched; two dots, two warnings. *)
Example walk_runs :
  let r := recursive_function_traced Demo.probe "/runs" true Demo.w in
  fst r = Ret ([VStr "/runs/a"],
               [("/runs/b", Raise (RuntimeError "boom"));
                ("/runs/a", Ret (VStr "/runs/a"))]) /\
  stdout (snd r) = ["."; "."] /\
  warnings (snd r) = [WarnExn (RuntimeError "boom"); skipping_text].
Proof. vm_compute. repeat split; reflexivity. Qed.

(** The walk from a job directory itself: one application, no dot. *)
Example walk_job_directory :
  let r := recursive_function_traced Demo.probe "/runs/a" true Demo.w in
  fst r = Ret ([VStr "/runs/a"], [("/runs/a", Ret (VStr "/runs/a"))]) /\
  stdout (snd r) = [].
Proof. vm_compute. repeat split; reflexivity. Qed.

(** The walk with [run_job] as its operation returns a list of [None]. *)
Example walk_run_job :
  fst (recursive_function run_job "/runs" false Demo.w) = Ret [VNone; VNone].
Proof. vm_compute. reflexivity. Qed.

(** Submitting [/runs/a]: the identifier and the rows of the metadata. *)
Example run_job_demo :
  let r := run_job "/runs/a" Demo.w in
  fst r = Ret VNone /\
  stdout (snd r) = ["12345" +:+ String "010" ""] /\
  fst (read_bytes "/runs/a/metadata.csv" (snd r))
  = Ret ("jobnumber,12345" +:+ String "013" (String "010" "")
         +:+ "submittime,2016-09-01 12:34:56" +:+ String "013" (String "010" "")
         +:+ "qualikiz_version,v2.3.1-4-gabc" +:+ String "013" (String "010" "")).
Proof. vm_compute. repeat split; reflexivity. Qed.

(** An answer of the scheduler with no token in it is fatal. *)
Example run_job_blank_answer :
  fst (run_job "/runs/a"
         (mk_world Demo.tree [] [] [] [] Demo.now
            (fun cmd => (0%Z, if Py.startswith "sbatch" cmd then " " else "v1"))))
  = Raise IndexError.
Proof. vm_compute. reflexivity. Qed.

(** Materializing [job1] and [job2] in the concrete world: the layout of
    the job directory, the template copied for [job1], the own script of
    [job2]. *)
Example to_file_job1 :
  let r := EmptyJob_to_file Demo.toy_pickle Demo.job1 Demo.runsdir
             Demo.toolsdir false true Demo.w in
  fst r = Ret VNone /\
  fst (os_listdir "/opt/QuaLiKiz/runs/job1" (snd r))
  = Ret ["qualikiz"; "QuaLiKiz"; "parameters.py"; "output"; "jobdata.pkl";
         "edison.sbatch"; "debug"] /\
  fst (read_bytes "/opt/QuaLiKiz/runs/job1/parameters.py" (snd r))
  = Ret "print(1)" /\
  fst (read_bytes "/opt/QuaLiKiz/runs/job1/QuaLiKiz" (snd r)) = Ret "ELF" /\
  isdir (snd r) "/opt/QuaLiKiz/runs/job1/output/primitive" = true /\
  stdout (snd r) = [].
Proof. vm_compute. repeat split; reflexivity. Qed.

Example to_file_job2 :
  let r := EmptyJob_to_file Demo.toy_pickle Demo.job2 Demo.runsdir
             Demo.toolsdir false false Demo.w in
  fst r = Ret VNone /\
  fst (read_bytes "/opt/QuaLiKiz/runs/job2/parameters.py" (snd r))
  = Ret "print(2)" /\
  exists_ (snd r) "/opt/QuaLiKiz/runs/job2/jobdata.pkl" = false.
Proof. vm_compute. repeat split; reflexivity. Qed.

(** The operator declines: [old] keeps its result. *)
Example to_file_declined :
  let r := EmptyJob_to_file Demo.toy_pickle Demo.job_old Demo.runsdir
             Demo.toolsdir false true Demo.w in
  fst r = Ret (VInt 1) /\
  fst (read_bytes "/opt/QuaLiKiz/runs/old/result.txt" (snd r)) = Ret "42" /\
  stdout (snd r) = [prompt; "aborting" +:+ String "010" ""].
Proof. vm_compute. repeat split; reflexivity. Qed.

(** A template that is no text: the read fails once the job directory
    has been laid out, and [parameters.py] is not written. *)
Example to_file_template_not_text :
  let template := ["opt"; "QuaLiKiz"; "tools"; "qualikiz";
                   "parameters_template.py"] in
  let w := set_files (<[template := File (String "233" "")]> Demo.tree)
             Demo.w in
  let r := EmptyJob_to_file Demo.toy_pickle Demo.job1 Demo.runsdir
             Demo.toolsdir false true w in
  fst r = Raise UnicodeDecodeError /\
  isfile (snd r) "/opt/QuaLiKiz/runs/job1/edison.sbatch" = true /\
  exists_ (snd r) "/opt/QuaLiKiz/runs/job1/parameters.py" = false.
Proof. vm_compute. repeat split; reflexivity. Qed.

(** The operator agrees: the old directory is removed and made anew. *)
Example to_file_accepted :
  let r := EmptyJob_to_file Demo.toy_pickle Demo.job_old Demo.runsdir
             Demo.toolsdir false true
             (mk_world Demo.tree [] ["y"] [] [] Demo.now Demo.commands) in
  fst r = Ret VNone /\
  exists_ (snd r) "/opt/QuaLiKiz/runs/old/result.txt" = false /\
  fst (read_bytes "/opt/QuaLiKiz/runs/old/parameters.py" (snd r))
  = Ret "print(0)".
Proof. vm_compute. repeat split; reflexivity. Qed.

(** [EmptyJob.__init__] resolves the binary against [rootdir]. *)
Example EmptyJob_init_ex :
  fst (EmptyJob_init "/opt/QuaLiKiz" "job1" "./QuaLiKiz"
         (mk_Batch "#!/bin/bash -l") "" Demo.w)
  = Ret Demo.job1.
Proof. reflexivity. Qed.

(** * Further properties *)

(** ** What an operation leaves alone *)

Section Respects.

Variable R : world -> world -> Prop.
Hypothesis R_refl : forall w, R w w.
Hypothesis R_trans : forall w1 w2 w3, R w1 w2 -> R w2 w3 -> R w1 w3.

Lemma respects_ret {A} (a : A) : respects R (ret a).
Proof. intros w. apply R_refl. Qed.

Lemma respects_raise {A} (e : exn) : respects R (raise e : M A).
Proof. intros w. apply R_refl. Qed.

Lemma respects_gets {A} (f : world -> A) : respects R (gets f).
Proof. intros w. apply R_refl. Qed.

Lemma respects_bind {A B} (m : M A) (k : A -> M B) :
  respects R m -> (forall a, respects R (k a)) -> respects R (bind m k).
Proof.
  intros Hm Hk w. unfold bind. specialize (Hm w).
  destruct (m w) as [[a|e] w1]; cbn [snd] in *; [|exact Hm].
  eapply R_trans; [exact Hm | apply Hk].
Qed.

Lemma respects_try_except {A} (body : M A) catches (handler : exn -> M A) :
  respects R body -> (forall e, respects R (handler e)) ->
  respects R (try_except body catches handler).
Proof.
  intros Hb Hh w. unfold try_except. specialize (Hb w).
  destruct (body w) as [[a|e] w1]; cbn [snd] in *; [exact Hb|].
  destruct (catches e); [|exact Hb].
  eapply R_trans; [exact Hb | apply Hh].
Qed.

Lemma respects_if {A} (b : bool) (m1 m2 : M A) :
  respects R m1 -> respects R m2 -> respects R (if b then m1 else m2).
Proof. now destruct b. Qed.

Lemma respects_makedirs_rec depth name :
  (forall p, respects R (os_mkdir p)) ->
  respects R (makedirs_rec depth name).
Proof.
  intros Hmkdir. revert name. induction depth as [|depth IH]; intros name;
    [apply respects_raise|].
  cbn [makedirs_rec]. destruct (os_path_split name) as [head tail].
  destruct (if String.eqb tail "" then os_path_split head else (head, tail))
    as [head' tail'].
  apply respects_bind.
  - apply respects_if; [|apply respects_ret].
    apply respects_bind; [apply respects_gets|]. intros ex.
    apply respects_if; [|apply respects_ret].
    apply respects_bind; [|intros; apply respects_ret].
    apply respects_try_except; [apply IH | intros; apply respects_ret].
  - intros c. apply respects_if; [|apply respects_ret].
    apply respects_try_except; [apply Hmkdir|].
    intros e. apply respects_bind; [apply respects_gets|].
    intros d. apply respects_if; [apply respects_raise|apply respects_ret].
Qed.

Lemma respects_os_makedirs name :
  (forall p, respects R (os_mkdir p)) -> respects R (os_makedirs name).
Proof. apply respects_makedirs_rec. Qed.

Lemma respects_open_write p data :
  (forall p, respects R (open_w p)) ->
  (forall fd data, respects R (file_write fd data)) ->
  respects R (fd <- open_w p ;; file_write fd data).
Proof. intros Ho Hw. apply respects_bind; [apply Ho | intros; apply Hw]. Qed.

(** [R] does not look at the files. *)
Hypothesis R_files : forall w fs, R w (set_files fs w).

Lemma respects_os_mkdir p : respects R (os_mkdir p).
Proof.
  intros w. unfold os_mkdir.
  destruct (FS.namei true w p) as [e|[k [n|]]]; cbn [snd]; auto.
Qed.

Lemma respects_os_symlink src dst : respects R (os_symlink src dst).
Proof.
  intros w. unfold os_symlink. case_decide; cbn [snd]; auto.
  destruct (FS.namei true w dst) as [e|[k [n|]]]; cbn [snd]; auto.
Qed.

Lemma respects_shutil_rmtree p : respects R (shutil_rmtree p).
Proof.
  intros w. unfold shutil_rmtree.
  destruct (FS.namei true w p) as [e|[k [[|x|t]|]]]; cbn [snd]; auto.
  case_decide; cbn [snd]; auto.
Qed.

Lemma respects_open_w p : respects R (open_w p).
Proof.
  intros w. unfold open_w.
  destruct (FS.namei false w p) as [e|[k [[|x|t]|]]]; cbn [snd]; auto.
Qed.

Lemma respects_file_write fd data : respects R (file_write fd data).
Proof.
  intros w. unfold file_write, modify. cbn [snd].
  destruct (files w !! fd) as [[|x|t]|]; auto.
Qed.

Lemma respects_read_bytes p : respects R (read_bytes p).
Proof.
  intros w. unfold read_bytes.
  destruct (FS.namei false w p) as [e|[k [[|x|t]|]]]; cbn [snd]; auto.
Qed.

Lemma respects_os_listdir p : respects R (os_listdir p).
Proof. intros w. rewrite os_listdir_world. apply R_refl. Qed.

End Respects.

(** The steps of [EmptyJob.to_file] after the job directory is made
    respect every relation that the operations they are made of respect:
    these are [mkdir], [symlink], the opening and the writing of a file,
    and [warn]. *)
Section ToFileRespects.

Variable pickle : pickler.
Variable R : world -> world -> Prop.
Hypothesis R_refl : forall w, R w w.
Hypothesis R_trans : forall w1 w2 w3, R w1 w2 -> R w2 w3 -> R w1 w3.
Hypothesis R_mkdir : forall p, respects R (os_mkdir p).
Hypothesis R_symlink : forall src dst, respects R (os_symlink src dst).
Hypothesis R_open_w : forall p, respects R (open_w p).
Hypothesis R_file_write : forall fd data, respects R (file_write fd data).
Hypothesis R_warn : forall x, respects R (warn x).

Let rbind {A B} := @respects_bind R R_trans A B.
Let rret {A} := @respects_ret R R_refl A.
Let rraise {A} := @respects_raise R R_refl A.
Let rgets {A} := @respects_gets R R_refl A.
Let rif {A} := @respects_if R A.
Let rmakedirs name := respects_os_makedirs R R_refl R_trans name R_mkdir.
Let rwrite p data :=
  respects_open_write R R_trans p data R_open_w R_file_write.

Lemma respects_to_file_layout self path qualikizdir :
  respects R (to_file_layout self path qualikizdir).
Proof.
  unfold to_file_layout.
  apply rbind; [apply rgets|]. intros ex.
  apply rbind; [apply rif; [apply R_warn | apply rret]|].
  intros _. apply rbind; [apply R_symlink|].
  intros _. apply rbind; [apply R_symlink|].
  intros _. apply rbind; [apply rmakedirs|].
  intros _. apply rbind; [apply rmakedirs|].
  intros _. apply rwrite.
Qed.

Lemma respects_read_bytes_any p : respects R (read_bytes p).
Proof.
  intros w. unfold read_bytes.
  destruct (FS.namei false w p) as [e|[k [[|x|t]|]]]; apply R_refl.
Qed.

Lemma respects_to_file_script self qualikizdir :
  respects R (to_file_script self qualikizdir).
Proof.
  unfold to_file_script. apply rif; [|apply rret].
  apply rbind; [|intros; apply rret].
  unfold open_readlines.
  apply rbind; [apply respects_read_bytes_any|]. intros c.
  apply rbind; [|intros; apply rret].
  unfold decode_utf8. apply rif; [apply rret | apply rraise].
Qed.

Lemma respects_to_file_parameters path text :
  respects R (to_file_parameters path text).
Proof. apply rwrite. Qed.

Lemma respects_to_file_snapshot self path metapickle :
  respects R (to_file_snapshot pickle self path metapickle).
Proof.
  unfold to_file_snapshot. apply rif; [|apply rret].
  unfold pickle_dump_file. apply rbind; [apply R_open_w|].
  intros fd. destruct (dumps pickle self); [apply R_file_write | apply rraise].
Qed.

Lemma respects_to_file_rest self path qualikizdir metapickle early :
  respects R (to_file_rest pickle self path qualikizdir metapickle early).
Proof.
  unfold to_file_rest. destruct early as [v|]; [apply rret|].
  apply rbind; [apply respects_to_file_layout|].
  intros _. apply rbind; [apply respects_to_file_script|].
  intros text. apply rbind; [apply respects_to_file_parameters|].
  intros _. apply rbind; [apply respects_to_file_snapshot|].
  intros _. apply rret.
Qed.

End ToFileRespects.

(** ** Construction: [Run.__init__] and [EmptyJob.__init__] *)

Lemma startswith_slash p :
  posixpath.isabs p = true -> exists p', p = String "/" p'.
Proof.
  unfold posixpath.isabs. destruct p as [|c p]; [discriminate|].
  cbn [Py.startswith]. destruct (Ascii.eqb_spec "/" c); [|discriminate].
  subst. eauto.
Qed.

(** Normalizing keeps an absolute path absolute. *)
Lemma isabs_normpath p :
  posixpath.isabs p = true -> posixpath.isabs (posixpath.normpath p) = true.
Proof.
  intros H. destruct (startswith_slash _ H) as [p' ->].
  unfold posixpath.normpath.
  change (String.eqb (String "/" p') "") with false.
  change (Py.startswith "/" (String "/" p')) with true. cbv iota.
  destruct (Py.startswith "//" (String "/" p') &&
            negb (Py.startswith "///" (String "/" p'))); reflexivity.
Qed.

Lemma isabs_abspath cwd p :
  posixpath.isabs cwd = true ->
  posixpath.isabs (posixpath.abspath cwd p) = true.
Proof.
  intros Hc. unfold posixpath.abspath.
  destruct (posixpath.isabs p) eqn:Hp; apply isabs_normpath; [exact Hp|].
  now apply isabs_join.
Qed.

(** X1: [EmptyJob.__init__] refuses a relative [rootdir] with
    [PathException] on "rootdir"; with an absolute one it succeeds whatever
    the working directory, keeps name, script and batch as given, and its
    [binary_path] is the normalized join of [rootdir] and the binary name,
    an absolute path (the binary name alone when that is absolute). *)
Theorem EmptyJob_init_paths (rootdir name_ binary_basename : string)
    (batch_ : Batch) (script : string) (w : world) :
  (posixpath.isabs rootdir = false ->
   EmptyJob_init rootdir name_ binary_basename batch_ script w
   = (Raise (PathException_init "rootdir"), w)) /\
  (posixpath.isabs rootdir = true ->
   EmptyJob_init rootdir name_ binary_basename batch_ script w
   = (Ret (mk_EmptyJob
             (posixpath.normpath (posixpath.join rootdir binary_basename))
             script name_ batch_), w) /\
   posixpath.isabs
     (posixpath.normpath (posixpath.join rootdir binary_basename)) = true /\
   (posixpath.isabs binary_basename = true ->
    posixpath.join rootdir binary_basename = binary_basename)).
Proof.
  unfold EmptyJob_init. split; intros Hr; rewrite Hr; [reflexivity|].
  pose proof (isabs_join rootdir binary_basename Hr) as Hj.
  split; [|split].
  - unfold bind, os_getcwd, gets, ret, posixpath.abspath. now rewrite Hj.
  - now apply isabs_normpath.
  - intros Hb. unfold posixpath.join. unfold posixpath.isabs in Hb.
    now rewrite Hb.
Qed.

Lemma EmptyJob_init_paths_witness :
  EmptyJob_init "QuaLiKiz" "job1" "QuaLiKiz" (mk_Batch "") "" Demo.w
  = (Raise (PathException_init "rootdir"), Demo.w) /\
  EmptyJob_init "/opt/QuaLiKiz" "job1" "../bin/./QuaLiKiz" (mk_Batch "") ""
    Demo.w
  = (Ret (mk_EmptyJob
            (posixpath.normpath
               (posixpath.join "/opt/QuaLiKiz" "../bin/./QuaLiKiz"))
            "" "job1" (mk_Batch "")), Demo.w).
Proof.
  split.
  - exact (proj1 (EmptyJob_init_paths "QuaLiKiz" "job1" "QuaLiKiz"
                    (mk_Batch "") "" Demo.w) eq_refl).
  - exact (proj1 (proj2 (EmptyJob_init_paths "/opt/QuaLiKiz" "job1"
                           "../bin/./QuaLiKiz" (mk_Batch "") "" Demo.w)
                    eq_refl)).
Defined.

Lemma Run_init_inv (rootdir_ qualikizdir_ runsdir_ : string) (run : Run) :
  Run_init rootdir_ qualikizdir_ runsdir_ = Ret run ->
  posixpath.isabs (rootdir run) = true /\
  posixpath.isabs (qualikizdir run) = true /\
  posixpath.isabs (runsdir run) = true /\
  rootdir run = rootdir_ /\
  jobs run = [].
Proof.
  unfold Run_init. destruct (posixpath.isabs rootdir_) eqn:Hr; [|discriminate].
  destruct (posixpath.isabs (if String.eqb qualikizdir_ "" then _ else _))
    eqn:Hq; [|discriminate].
  destruct (posixpath.isabs (if String.eqb runsdir_ "" then _ else _))
    eqn:Hd; [|discriminate].
  cbn [negb]. intros [= <-]. cbn. auto.
Qed.

(** X2: a [Run] that [Run.__init__] has built holds three absolute paths
    and no job, its [rootdir] being the one given. *)
Theorem Run_init_invariant (rootdir_ qualikizdir_ runsdir_ : string)
    (run : Run) :
  Run_init rootdir_ qualikizdir_ runsdir_ = Ret run ->
  posixpath.isabs (rootdir run) = true /\
  posixpath.isabs (qualikizdir run) = true /\
  posixpath.isabs (runsdir run) = true /\
  rootdir run = rootdir_ /\
  jobs run = [].
Proof. apply Run_init_inv. Qed.

Lemma Run_init_invariant_witness :
  Run_init "/opt/QuaLiKiz" "" "/scratch/runs"
  = Ret (mk_Run [] "/opt/QuaLiKiz" "/opt/QuaLiKiz/tools/qualikiz"
           "/scratch/runs") /\
  posixpath.isabs "/opt/QuaLiKiz" = true /\
  posixpath.isabs "/opt/QuaLiKiz/tools/qualikiz" = true /\
  posixpath.isabs "/scratch/runs" = true /\
  "/opt/QuaLiKiz" = "/opt/QuaLiKiz" /\
  @nil (string * EmptyJob) = [].
Proof.
  exact (conj eq_refl
           (Run_init_invariant "/opt/QuaLiKiz" "" "/scratch/runs" _ eq_refl)).
Defined.

(** ** [generate_input] *)

(** X3: [generate_input] hands the interpreter the absolute, normalized
    path of [parameters.py] in the job directory, also when the job
    directory is given relative to the working directory; it returns [None]
    when the interpreter exits with status 0 and raises
    [CalledProcessError] with the status otherwise, the world being in both
    cases as the script left it. *)
Theorem generate_input_outcome (run_program : list string -> M Z)
    (job_folder : string) (w w1 : world) (status : Z) :
  run_program ["python"; input_script w job_folder] w = (Ret status, w1) ->
  posixpath.isabs (input_script w job_folder) = true /\
  generate_input run_program job_folder w
  = if Z.eqb status 0 then (Ret VNone, w1)
    else (Raise (CalledProcessError status
                   ("python " +:+ input_script w job_folder)), w1).
Proof.
  intros H. split.
  - apply isabs_abspath. reflexivity.
  - unfold generate_input, subprocess_check_call, os_getcwd.
    unfold bind at 1. unfold gets. unfold bind at 1. unfold bind at 1.
    fold (input_script w job_folder). rewrite H.
    destruct (Z.eqb status 0); reflexivity.
Qed.

Lemma generate_input_outcome_witness :
  Demo.python_stub ["python"; input_script Demo.w "runs/b"] Demo.w
  = (Ret 3%Z, Demo.w) /\
  posixpath.isabs (input_script Demo.w "runs/b") = true /\
  generate_input Demo.python_stub "runs/b" Demo.w
  = if Z.eqb 3 0 then (Ret VNone, Demo.w)
    else (Raise (CalledProcessError 3
                   ("python " +:+ input_script Demo.w "runs/b")), Demo.w).
Proof.
  exact (conj eq_refl
           (generate_input_outcome Demo.python_stub "runs/b" Demo.w Demo.w 3
              eq_refl)).
Defined.

(** ** [recursive_function]: further properties *)

Lemma not_isdir_listdir_raises w p :
  isdir w p = false ->
  exists e, os_listdir p w = (Raise e, w) /\ is_OSError e = true.
Proof.
  unfold isdir, os_listdir.
  destruct (FS.namei false w p) as [[]|[k [[|x|t]|]]]; intros H;
    try discriminate; eexists; split; reflexivity.
Qed.

(** X4: the handler of the walk covers the applications of the
    operation only.  On a path that is no directory (a file, a dangling
    link, nothing at all) the walk itself raises the [OSError] of
    [os.listdir]: the operation is not applied and nothing is logged or
    printed. *)
Theorem recursive_function_needs_a_directory {R} (function : string -> M R)
    (path : string) (dotprint : bool) (w : world) :
  isdir w path = false ->
  exists e,
    is_OSError e = true /\
    recursive_function function path dotprint w = (Raise e, w) /\
    recursive_function_traced function path dotprint w = (Raise e, w).
Proof.
  intros H. destruct (not_isdir_listdir_raises _ _ H) as (e & Hl & He).
  exists e. split; [exact He|].
  pose proof (traced_unlistable function path dotprint w e w Hl) as Ht.
  split; [|exact Ht].
  unfold recursive_function. now apply bind_raise.
Qed.

Lemma recursive_function_needs_a_directory_witness :
  isdir Demo.w "/runs/notes.txt" = false /\
  exists e,
    is_OSError e = true /\
    recursive_function Demo.probe "/runs/notes.txt" true Demo.w
    = (Raise e, Demo.w) /\
    recursive_function_traced Demo.probe "/runs/notes.txt" true Demo.w
    = (Raise e, Demo.w).
Proof.
  exact (conj eq_refl
           (recursive_function_needs_a_directory Demo.probe "/runs/notes.txt"
              true Demo.w eq_refl)).
Defined.

Section WalkerOutcomes.

Context {R : Type}.
Variable function : string -> M R.

(** Every outcome recorded by the walk is what the operation gave on the
    directory recorded with it. *)
Lemma visit_each_outcomes path dp names :
  forall w,
    Forall (fun a => exists w0, snd a = fst (function (fst a) w0))
      (fst (visit_each function path dp names w)).
Proof.
  induction names as [|n rest IH]; intros w; cbn [visit_each];
    [constructor|].
  destruct (is_job_dir w (posixpath.join path n)); [|apply IH].
  cbn [fst]. constructor; [now exists w | apply IH].
Qed.

Lemma visit_outcomes path dp names w :
  Forall (fun a => exists w0, snd a = fst (function (fst a) w0))
    (fst (visit function path dp names w)).
Proof.
  unfold visit. destruct (bool_decide _); [|apply visit_each_outcomes].
  constructor; [now exists w | constructor].
Qed.

End WalkerOutcomes.

Lemma run_job_returns_none dir w v :
  fst (run_job dir w) = Ret v -> v = VNone.
Proof.
  intros H. apply pair_of_fst in H.
  now apply run_job_inv in H as (? & ? & ? & -> & _).
Qed.

(** X6: with [run_job] as its operation the walk returns a list of
    [None], one for each submission that succeeded, and never a job
    identifier. *)
Theorem recursive_function_run_job_none (path : string) (dotprint : bool)
    (w : world) (names : list string) :
  os_listdir path w = (Ret names, w) ->
  recursive_function run_job path dotprint w
  = (Ret (repeat VNone
            (length (successes (fst (visit run_job path dotprint names w))))),
     snd (visit run_job path dotprint names w)).
Proof.
  intros Hl. rewrite (recursive_function_visit run_job path dotprint w names Hl).
  do 2 f_equal.
  pose proof (visit_outcomes run_job path dotprint names w) as Ho.
  induction Ho as [|[dir o] l [w0 Hv] _ IH]; [reflexivity|].
  cbn [fst snd] in Hv. unfold successes in *. cbn [omap list_omap snd].
  destruct o as [v|e]; [|exact IH].
  symmetry in Hv. apply run_job_returns_none in Hv as ->.
  cbn [length repeat]. now rewrite <- IH.
Qed.

Lemma recursive_function_run_job_none_witness :
  os_listdir "/runs" Demo.w = (Ret Demo.listing, Demo.w) /\
  recursive_function run_job "/runs" false Demo.w
  = (Ret (repeat VNone
            (length (successes (fst (visit run_job "/runs" false Demo.listing
                                       Demo.w))))),
     snd (visit run_job "/runs" false Demo.listing Demo.w)).
Proof.
  exact (conj demo_listing
           (recursive_function_run_job_none "/runs" false Demo.w Demo.listing
              demo_listing)).
Defined.

(** ** [run_job]: further properties *)

Lemma bind_raise_inv {A B} (m : M A) (k : A -> M B) w e w2 :
  bind m k w = (Raise e, w2) ->
  m w = (Raise e, w2) \/
  exists a w1, m w = (Ret a, w1) /\ k a w1 = (Raise e, w2).
Proof.
  unfold bind. destruct (m w) as [[a|e'] w1]; intros H.
  - right. now exists a, w1.
  - left. now inversion H.
Qed.

Section RespectsMore.

Variable R : world -> world -> Prop.
Hypothesis R_refl : forall w, R w w.

Lemma respects_check_output cmd : respects R (subprocess_check_output cmd).
Proof.
  intros w. unfold subprocess_check_output. destruct (shell w cmd) as [rc out].
  destruct (Z.eqb rc 0); apply R_refl.
Qed.

Lemma respects_decode_utf8 b : respects R (decode_utf8 b).
Proof. intros w. unfold decode_utf8. destruct (utf8_valid _); apply R_refl. Qed.

Lemma respects_index_last {A} (l : list A) : respects R (index_last l).
Proof.
  intros w. unfold index_last. destruct (Py.last_item l); apply R_refl.
Qed.

End RespectsMore.

(** What [f] reads is kept by every operation on files when [f] does not
    read the files. *)
Section KeepsFiles.

Context {A : Type}.
Variable f : world -> A.
Hypothesis f_files : forall w fs, f (set_files fs w) = f w.

Lemma keeps_refl w : keeps f w w.
Proof. reflexivity. Qed.

Lemma keeps_trans w1 w2 w3 : keeps f w1 w2 -> keeps f w2 w3 -> keeps f w1 w3.
Proof. unfold keeps. congruence. Qed.

Lemma keeps_set_files w fs : keeps f w (set_files fs w).
Proof. apply f_files. Qed.

Lemma keeps_os_mkdir p : respects (keeps f) (os_mkdir p).
Proof. apply respects_os_mkdir; [apply keeps_refl | apply keeps_set_files]. Qed.

Lemma keeps_os_symlink src dst : respects (keeps f) (os_symlink src dst).
Proof.
  apply respects_os_symlink; [apply keeps_refl | apply keeps_set_files].
Qed.

Lemma keeps_shutil_rmtree p : respects (keeps f) (shutil_rmtree p).
Proof.
  apply respects_shutil_rmtree; [apply keeps_refl | apply keeps_set_files].
Qed.

Lemma keeps_open_w p : respects (keeps f) (open_w p).
Proof. apply respects_open_w; [apply keeps_refl | apply keeps_set_files]. Qed.

Lemma keeps_file_write fd data : respects (keeps f) (file_write fd data).
Proof.
  apply respects_file_write; [apply keeps_refl | apply keeps_set_files].
Qed.

End KeepsFiles.

Lemma stdin_files w fs : stdin (set_files fs w) = stdin w.
Proof. reflexivity. Qed.
Lemma stdout_files w fs : stdout (set_files fs w) = stdout w.
Proof. reflexivity. Qed.
Lemma warnings_files w fs : warnings (set_files fs w) = warnings w.
Proof. reflexivity. Qed.
Lemma cwd_files w fs : cwd (set_files fs w) = cwd w.
Proof. reflexivity. Qed.

Lemma run_job_eq job_folder w :
  run_job job_folder w =
  run_job_submit job_folder
    (if exists_ w (posixpath.join job_folder "input/p1.bin") then w
     else push_warning (input_missing_text job_folder) w).
Proof.
  unfold run_job. unfold bind at 1. unfold os_path_exists, gets.
  unfold bind at 1.
  destruct (exists_ w (posixpath.join job_folder "input/p1.bin"));
    reflexivity.
Qed.

Lemma keeps_warnings_run_job_submit job_folder :
  respects (keeps warnings) (run_job_submit job_folder).
Proof.
  assert (Hr := keeps_refl warnings). assert (Ht := keeps_trans warnings).
  unfold run_job_submit.
  repeat first
    [ apply (respects_bind _ Ht); [|intro]
    | apply (respects_check_output _ Hr)
    | apply (respects_decode_utf8 _ Hr)
    | apply (respects_index_last _ Hr)
    | apply (keeps_open_w _ warnings_files)
    | apply (keeps_file_write _ warnings_files)
    | apply (respects_gets _ Hr)
    | apply (respects_ret _ Hr)
    | (intros w0; reflexivity) ].
Qed.

(** X7: whatever becomes of the submission, [run_job] issues
    exactly one warning when [input/p1.bin] is missing from the job
    directory, and none when it is there. *)
Theorem run_job_warns_missing_input (job_folder : string) (w : world) :
  warnings (snd (run_job job_folder w))
  = warnings w ++
    (if exists_ w (posixpath.join job_folder "input/p1.bin") then []
     else [input_missing_text job_folder]).
Proof.
  rewrite run_job_eq, keeps_warnings_run_job_submit.
  destruct (exists_ w _); cbn; [now rewrite app_nil_r | reflexivity].
Qed.

Lemma check_output_raise cmd w e w1 :
  subprocess_check_output cmd w = (Raise e, w1) -> w1 = w.
Proof.
  unfold subprocess_check_output. destruct (shell w cmd) as [rc out].
  destruct (Z.eqb rc 0); now intros [= <- <-].
Qed.

Lemma decode_utf8_raise b w e w1 :
  decode_utf8 b w = (Raise e, w1) -> w1 = w.
Proof. unfold decode_utf8. destruct (utf8_valid _); now intros [= <- <-]. Qed.

Lemma index_last_raise {A} (l : list A) w e w1 :
  index_last l w = (Raise e, w1) -> w1 = w.
Proof.
  unfold index_last. destruct (Py.last_item l); now intros [= <- <-].
Qed.

Lemma open_w_raise p w e w1 : open_w p w = (Raise e, w1) -> w1 = w.
Proof.
  unfold open_w. destruct (FS.namei false w p) as [e'|[k [[|x|t]|]]];
    now intros [= <- <-].
Qed.

Lemma file_write_never_raises fd data w e w1 :
  file_write fd data w <> (Raise e, w1).
Proof. unfold file_write, modify. discriminate. Qed.

Ltac step_raise H :=
  let a := fresh "a" in
  let w1 := fresh "w" in
  let Ha := fresh "Ha" in
  apply bind_raise_inv in H as [H | (a & w1 & Ha & H)].

Ltac ret_same :=
  match goal with
  | Hx : subprocess_check_output _ _ = (Ret _, _) |- _ =>
      apply check_output_inv in Hx as [_ ->]
  | Hx : decode_utf8 _ _ = (Ret _, _) |- _ =>
      apply decode_utf8_inv in Hx as [_ ->]
  | Hx : index_last _ _ = (Ret _, _) |- _ =>
      apply index_last_inv in Hx as [_ ->]
  end.

(** X8: a submission that fails before the metadata file is opened
    records and prints nothing: when [run_job] raises
    [CalledProcessError] ([git] or [sbatch] failed), [UnicodeDecodeError]
    (an answer that is no UTF-8) or [IndexError] (an answer without a
    token), the files and standard output are as they were before the
    call. *)
Theorem run_job_failure_leaves_no_trace (job_folder : string) (w w' : world)
    (e : exn) :
  run_job job_folder w = (Raise e, w') ->
  before_metadata e = true ->
  files w' = files w /\ stdout w' = stdout w.
Proof.
  intros Hrun _. revert Hrun.
  rewrite run_job_eq.
  set (w0 := if exists_ w _ then w else push_warning _ w).
  assert (H0 : files w0 = files w /\ stdout w0 = stdout w).
  { unfold w0. destruct (exists_ w _); auto. }
  clearbody w0. unfold run_job_submit. intros H.
  step_raise H; [apply check_output_raise in H; now subst|].
  ret_same.
  step_raise H; [apply decode_utf8_raise in H; now subst|].
  ret_same.
  step_raise H; [apply check_output_raise in H; now subst|].
  ret_same.
  step_raise H; [apply index_last_raise in H; now subst|].
  ret_same.
  step_raise H; [apply decode_utf8_raise in H; now subst|].
  ret_same.
  step_raise H; [apply open_w_raise in H; now subst|].
  exfalso.
  step_raise H; [now apply file_write_never_raises in H|].
  step_raise H; [discriminate|].
  step_raise H; [now apply file_write_never_raises in H|].
  step_raise H; [now apply file_write_never_raises in H|].
  step_raise H; discriminate.
Qed.

Lemma demo_run_job_blank :
  run_job "/runs/a" Demo.w_blank
  = (Raise IndexError, snd (run_job "/runs/a" Demo.w_blank)).
Proof. apply pair_of_fst. vm_compute. reflexivity. Qed.

Lemma run_job_failure_leaves_no_trace_witness :
  run_job "/runs/a" Demo.w_blank
  = (Raise IndexError, snd (run_job "/runs/a" Demo.w_blank)) /\
  before_metadata IndexError = true /\
  files (snd (run_job "/runs/a" Demo.w_blank)) = files Demo.w_blank /\
  stdout (snd (run_job "/runs/a" Demo.w_blank)) = stdout Demo.w_blank.
Proof.
  exact (conj demo_run_job_blank
           (conj eq_refl
              (run_job_failure_leaves_no_trace "/runs/a" Demo.w_blank _ _
                 demo_run_job_blank eq_refl))).
Defined.

Lemma list_of_rev_app s t :
  list_ascii_of_string (String.rev_app s t)
  = rev (list_ascii_of_string s) ++ list_ascii_of_string t.
Proof.
  revert t. induction s as [|c s IH]; intros t; [reflexivity|].
  cbn [String.rev_app list_ascii_of_string rev]. rewrite IH.
  cbn [list_ascii_of_string]. now rewrite <- app_assoc.
Qed.

Lemma token_like_rev w : token_like w -> token_like (String.rev w).
Proof.
  intros [Hne Hs]. unfold token_like, no_ascii_whitespace, String.rev in *.
  split.
  - intros E. apply (f_equal list_ascii_of_string) in E.
    rewrite list_of_rev_app in E. cbn in E. rewrite app_nil_r in E.
    destruct w as [|c w]; [congruence|]. cbn in E.
    now apply app_eq_nil in E as [_ ?].
  - rewrite list_of_rev_app. cbn [list_ascii_of_string].
    rewrite app_nil_r. now apply Forall_rev.
Qed.

(** The pieces of [b.split()] are not empty and hold no ASCII
    whitespace. *)
Lemma split_ws_go_tokens s :
  forall cur,
    (forall w, cur = Some w -> token_like w) ->
    Forall token_like (Py.split_ws_go cur s).
Proof.
  induction s as [|c s IH]; intros cur Hcur; cbn [Py.split_ws_go].
  - destruct cur as [w|]; [|constructor].
    constructor; [|constructor]. now apply token_like_rev, Hcur.
  - destruct (Py.is_space c) eqn:Hc.
    + destruct cur as [w|].
      * constructor; [now apply token_like_rev, Hcur|].
        apply IH. discriminate.
      * apply IH. discriminate.
    + apply IH. intros w [= <-]. split; [discriminate|].
      unfold no_ascii_whitespace. cbn [list_ascii_of_string]. constructor; [exact Hc|].
      destruct cur as [w|]; [apply Hcur; reflexivity | constructor].
Qed.

Lemma split_ws_tokens s : Forall token_like (Py.split_ws s).
Proof. apply split_ws_go_tokens. discriminate. Qed.

(** X9: the job identifier that a successful [run_job] prints, and
    records in the first row of the metadata, is never empty and holds
    none of the six ASCII whitespace bytes on which [bytes.split()] splits
    (space, tab, line feed, vertical tab, form feed, carriage return). *)
Theorem run_job_jobnumber_is_a_token (job_folder : string) (w w' : world)
    (v : value) :
  run_job job_folder w = (Ret v, w') ->
  exists jobnumber describe,
    jobnumber <> "" /\ no_ascii_whitespace jobnumber /\
    stdout w' = stdout w ++ [jobnumber +:+ String "010" ""] /\
    holds w' (posixpath.join job_folder Names.metadatafile)
      (metadata_text jobnumber (clock w) (Py.strip describe)).
Proof.
  intros H.
  destruct (run_job_inv _ _ _ _ H)
    as (describe & output & token & _ & _ & _ & Ht & Ho & Hm).
  exists token, describe.
  assert (Htok : token_like token).
  { pose proof (split_ws_tokens output) as Hall.
    rewrite Forall_forall in Hall. apply Hall.
    apply list_elem_of_In.
    destruct (Py.split_ws output) as [|x l] using rev_ind; [discriminate|].
    rewrite last_snoc in Ht. injection Ht as ->.
    apply in_or_app. right. now left. }
  destruct Htok. auto.
Qed.

Lemma run_job_jobnumber_is_a_token_witness :
  run_job "/runs/a" Demo.w = (Ret VNone, snd (run_job "/runs/a" Demo.w)) /\
  exists jobnumber describe,
    jobnumber <> "" /\ no_ascii_whitespace jobnumber /\
    stdout (snd (run_job "/runs/a" Demo.w))
    = stdout Demo.w ++ [jobnumber +:+ String "010" ""] /\
    holds (snd (run_job "/runs/a" Demo.w))
      (posixpath.join "/runs/a" Names.metadatafile)
      (metadata_text jobnumber (clock Demo.w) (Py.strip describe)).
Proof.
  exact (conj demo_run_job
           (run_job_jobnumber_is_a_token "/runs/a" Demo.w _ VNone
              demo_run_job)).
Defined.

(** ** [EmptyJob.to_file]: questions and answers *)

Section ToFileConsole.

Variable pickle : pickler.

Lemma keeps_stdin_warn x : respects (keeps stdin) (warn x).
Proof. intros w. reflexivity. Qed.

Lemma keeps_stdout_warn x : respects (keeps stdout) (warn x).
Proof. intros w. reflexivity. Qed.

Lemma keeps_stdin_print s : respects (keeps stdin) (print s).
Proof. intros w. reflexivity. Qed.

Lemma keeps_stdin_to_file_rest self path qualikizdir metapickle early :
  respects (keeps stdin)
    (to_file_rest pickle self path qualikizdir metapickle early).
Proof.
  exact (respects_to_file_rest pickle (keeps stdin) (keeps_refl stdin)
           (keeps_trans stdin) (keeps_os_mkdir stdin stdin_files)
           (keeps_os_symlink stdin stdin_files) (keeps_open_w stdin stdin_files)
           (keeps_file_write stdin stdin_files) keeps_stdin_warn
           self path qualikizdir metapickle early).
Qed.

Lemma keeps_stdout_to_file_rest self path qualikizdir metapickle early :
  respects (keeps stdout)
    (to_file_rest pickle self path qualikizdir metapickle early).
Proof.
  exact (respects_to_file_rest pickle (keeps stdout) (keeps_refl stdout)
           (keeps_trans stdout) (keeps_os_mkdir stdout stdout_files)
           (keeps_os_symlink stdout stdout_files) (keeps_open_w stdout stdout_files)
           (keeps_file_write stdout stdout_files) keeps_stdout_warn
           self path qualikizdir metapickle early).
Qed.

Lemma to_file_rest_none_ret self path qualikizdir metapickle w v w' :
  to_file_rest pickle self path qualikizdir metapickle None w = (Ret v, w') ->
  v = VNone.
Proof.
  unfold to_file_rest. intros H.
  bind_inv H as u1 w1 H1. bind_inv H as t w2 H2. bind_inv H as u3 w3 H3.
  bind_inv H as u4 w4 H4. now inversion H.
Qed.

(** [EmptyJob.to_file] as the creation of the job directory followed by
    the rest. *)
Lemma to_file_eq self runsdir qualikizdir overwrite metapickle w :
  posixpath.isabs qualikizdir = true ->
  posixpath.isabs runsdir = true ->
  EmptyJob_to_file pickle self runsdir qualikizdir overwrite metapickle w
  = (let w1 := snd ((if negb (isdir w runsdir) then os_mkdir runsdir
                     else ret tt) w) in
     match (if negb (isdir w runsdir) then os_mkdir runsdir else ret tt) w with
     | (Raise e, _) => (Raise e, w1)
     | (Ret _, _) =>
         bind (to_file_mkdir (job_dir w self runsdir) overwrite)
           (to_file_rest pickle self (job_dir w self runsdir) qualikizdir
              metapickle) w1
     end).
Proof.
  intros Hq Hr. unfold EmptyJob_to_file. rewrite Hq, Hr. cbn [negb].
  unfold bind at 1. unfold os_path_isdir, gets. unfold bind at 1.
  destruct ((if negb (isdir w runsdir) then os_mkdir runsdir else ret tt) w)
    as [[[]|e] w1] eqn:E; cbn [snd]; [|reflexivity].
  assert (Hc : cwd w1 = cwd w).
  { destruct (negb _); [now apply os_mkdir_cwd in E | now inversion E]. }
  unfold bind at 1. unfold job_path, os_getcwd, bind, gets, ret.
  unfold job_dir. rewrite Hc. reflexivity.
Qed.

(** What the handler around the creation of the job directory can come
    to. *)
Lemma to_file_mkdir_cases path overwrite w r w' :
  to_file_mkdir path overwrite w = (r, w') ->
  (exists e, r = Raise e) \/
  r = Ret None \/
  (r = Ret (Some (VInt 1)) /\ overwrite = false /\
   os_mkdir path w = (Raise (FileExistsError path), w) /\
   exists resp,
     affirmative resp = false /\ stdin w = resp :: stdin w' /\
     files w' = files w /\
     stdout w' = stdout w ++ [prompt; "aborting" +:+ String "010" ""]).
Proof.
  unfold to_file_mkdir, try_except. unfold bind at 1.
  destruct (os_mkdir path w) as [[[]|e] w1] eqn:Em.
  { intros [= <- <-]. auto. }
  destruct (is_FileExistsError e) eqn:He; [|intros [= <- <-]; eauto].
  assert (w1 = w /\ e = FileExistsError path) as [-> ->].
  { unfold os_mkdir in Em.
    destruct (FS.namei true w path) as [[]|[k [n|]]]; inversion Em; subst;
      try discriminate; auto. }
  destruct overwrite; cbn [negb].
  - unfold bind at 1. unfold ret at 1. unfold bind.
    cbn [print modify].
    destruct (shutil_rmtree path _) as [[[]|e1] w2]; [|intros [= <- <-]; eauto].
    destruct (os_mkdir path w2) as [[[]|e2] w3]; intros [= <- <-]; eauto.
  - unfold bind at 1. unfold bind at 1. unfold input.
    cbn [stdin push_stdout].
    destruct (stdin w) as [|resp rest] eqn:Hin; [intros [= <- <-]; eauto|].
    fold (affirmative resp). destruct (affirmative resp) eqn:Ha.
    + unfold ret at 1. unfold bind. cbn [print modify].
      destruct (shutil_rmtree path _) as [[[]|e1] w2];
        [|intros [= <- <-]; eauto].
      destruct (os_mkdir path w2) as [[[]|e2] w3]; intros [= <- <-]; eauto.
    + unfold ret at 1. unfold bind. cbn [print modify ret].
      intros [= <- <-]. right. right.
      split; [reflexivity|]. split; [reflexivity|]. split; [reflexivity|].
      exists resp. cbn. rewrite <- app_assoc. auto.
Qed.

(** What a materialization that returns has returned, and why. *)
Lemma to_file_returns_inv self runsdir qualikizdir overwrite metapickle
    w v w' :
  EmptyJob_to_file pickle self runsdir qualikizdir overwrite metapickle w
  = (Ret v, w') ->
  v = VNone \/
  (v = VInt 1 /\ overwrite = false /\
   exists resp,
     affirmative resp = false /\ stdin w = resp :: stdin w' /\
     stdout w' = stdout w ++ [prompt; "aborting" +:+ String "010" ""]).
Proof.
  intros H.
  destruct (posixpath.isabs qualikizdir) eqn:Hq;
    [|unfold EmptyJob_to_file in H; rewrite Hq in H; discriminate].
  destruct (posixpath.isabs runsdir) eqn:Hr;
    [|unfold EmptyJob_to_file in H; rewrite Hq, Hr in H; discriminate].
  rewrite to_file_eq in H by assumption. cbv zeta in H.
  pose proof (keeps_os_mkdir stdin stdin_files runsdir w) as Hi.
  pose proof (keeps_os_mkdir stdout stdout_files runsdir w) as Ho.
  unfold keeps in Hi, Ho.
  destruct ((if negb (isdir w runsdir) then os_mkdir runsdir else ret tt) w)
    as [[[]|e] w1] eqn:E; [|discriminate].
  cbn [snd] in H.
  assert (stdin w1 = stdin w /\ stdout w1 = stdout w) as [Hi1 Ho1].
  { destruct (negb _); [rewrite E in Hi, Ho; auto | now inversion E]. }
  unfold bind in H.
  destruct (to_file_mkdir _ overwrite w1) as [r w2] eqn:Em.
  destruct (to_file_mkdir_cases _ _ _ _ _ Em)
    as [[e ->]|[->|(-> & -> & _ & resp & Ha & Hs & _ & Hout)]].
  - discriminate.
  - left. eapply to_file_rest_none_ret. exact H.
  - right. cbn [to_file_rest ret] in H. inversion H; subst.
    split; [reflexivity|]. split; [reflexivity|].
    exists resp. rewrite <- Hi1, <- Ho1. auto.
Qed.

End ToFileConsole.

Lemma keeps_stdin_to_file_mkdir_overwrite path :
  respects (keeps stdin) (to_file_mkdir path true).
Proof.
  assert (Hr := keeps_refl stdin). assert (Ht := keeps_trans stdin).
  unfold to_file_mkdir. apply (respects_try_except _ Ht).
  - apply (respects_bind _ Ht); [apply (keeps_os_mkdir _ stdin_files)|].
    intros _. apply (respects_ret _ Hr).
  - intros e. cbn [negb]. apply (respects_bind _ Ht); [apply (respects_ret _ Hr)|].
    intros ow. apply respects_if.
    + apply (respects_bind _ Ht); [apply keeps_stdin_print|]. intros _.
      apply (respects_bind _ Ht); [apply (keeps_shutil_rmtree _ stdin_files)|].
      intros _.
      apply (respects_bind _ Ht); [apply (keeps_os_mkdir _ stdin_files)|].
      intros _. apply (respects_ret _ Hr).
    + apply (respects_bind _ Ht); [apply keeps_stdin_print|]. intros _.
      apply (respects_ret _ Hr).
Qed.

Lemma keeps_stdin_to_file_overwrite pickle self runsdir qualikizdir
    metapickle :
  respects (keeps stdin)
    (EmptyJob_to_file pickle self runsdir qualikizdir true metapickle).
Proof.
  assert (Hr := keeps_refl stdin). assert (Ht := keeps_trans stdin).
  unfold EmptyJob_to_file.
  apply respects_if; [apply (respects_raise _ Hr)|].
  apply respects_if; [apply (respects_raise _ Hr)|].
  apply (respects_bind _ Ht); [apply (respects_gets _ Hr)|]. intros d.
  apply (respects_bind _ Ht).
  { apply respects_if;
      [apply (keeps_os_mkdir _ stdin_files) | apply (respects_ret _ Hr)]. }
  intros _. apply (respects_bind _ Ht).
  { unfold job_path. apply (respects_bind _ Ht); [apply (respects_gets _ Hr)|].
    intros c. apply (respects_ret _ Hr). }
  intros path. apply (respects_bind _ Ht);
    [apply keeps_stdin_to_file_mkdir_overwrite|].
  intros early.
  exact (keeps_stdin_to_file_rest pickle self path qualikizdir metapickle early).
Qed.

(** X10: with [overwrite=True] [EmptyJob.to_file] never asks: it
    reads nothing from standard input, whatever it finds and however it
    ends, and it never returns the sentinel [1]. *)
Theorem to_file_overwrite_never_asks (pickle : pickler) (self : EmptyJob)
    (runsdir qualikizdir : string) (metapickle : bool) (w : world) :
  stdin (snd (EmptyJob_to_file pickle self runsdir qualikizdir true
                metapickle w))
  = stdin w /\
  fst (EmptyJob_to_file pickle self runsdir qualikizdir true metapickle w)
  <> Ret (VInt 1).
Proof.
  split; [apply keeps_stdin_to_file_overwrite|].
  intros H. apply pair_of_fst in H.
  apply to_file_returns_inv in H as [H|(_ & H & _)]; discriminate.
Qed.

(** X11: [EmptyJob.to_file] returns [None] or the sentinel [1]
    and nothing else; it returns [1] only when called with
    [overwrite=False] and after the operator was asked once and gave an
    answer other than the empty one, "Y" and "y"; "aborting" is then the
    last thing printed. *)
Theorem to_file_sentinel_only_on_decline (pickle : pickler) (self : EmptyJob)
    (runsdir qualikizdir : string) (overwrite metapickle : bool)
    (w w' : world) (v : value) :
  EmptyJob_to_file pickle self runsdir qualikizdir overwrite metapickle w
  = (Ret v, w') ->
  v = VNone \/
  (v = VInt 1 /\ overwrite = false /\
   exists resp,
     affirmative resp = false /\ stdin w = resp :: stdin w' /\
     stdout w' = stdout w ++ [prompt; "aborting" +:+ String "010" ""]).
Proof. apply to_file_returns_inv. Qed.

Lemma demo_old_declined :
  EmptyJob_to_file Demo.toy_pickle Demo.job_old Demo.runsdir Demo.toolsdir
    false true Demo.w
  = (Ret (VInt 1),
     snd (EmptyJob_to_file Demo.toy_pickle Demo.job_old Demo.runsdir
            Demo.toolsdir false true Demo.w)).
Proof. apply pair_of_fst. vm_compute. reflexivity. Qed.

Lemma to_file_sentinel_only_on_decline_witness :
  EmptyJob_to_file Demo.toy_pickle Demo.job_old Demo.runsdir Demo.toolsdir
    false true Demo.w
  = (Ret (VInt 1),
     snd (EmptyJob_to_file Demo.toy_pickle Demo.job_old Demo.runsdir
            Demo.toolsdir false true Demo.w)) /\
  (VInt 1 = VNone \/
   (VInt 1 = VInt 1 /\ false = false /\
    exists resp,
      affirmative resp = false /\
      stdin Demo.w
      = resp :: stdin (snd (EmptyJob_to_file Demo.toy_pickle Demo.job_old
                              Demo.runsdir Demo.toolsdir false true Demo.w)) /\
      stdout (snd (EmptyJob_to_file Demo.toy_pickle Demo.job_old Demo.runsdir
                     Demo.toolsdir false true Demo.w))
      = stdout Demo.w ++ [prompt; "aborting" +:+ String "010" ""])).
Proof.
  exact (conj demo_old_declined
           (to_file_sentinel_only_on_decline Demo.toy_pickle Demo.job_old
              Demo.runsdir Demo.toolsdir false true Demo.w _ _
              demo_old_declined)).
Defined.

Lemma oserror_not_exists e p : is_FileExistsError (FS.oserror e p) = false.
Proof. now destruct e. Qed.

(** X12: where the job directory is not there yet (under an existing
    [runsdir]), [EmptyJob.to_file] asks nothing and prints nothing,
    whatever [overwrite] is: standard input and output are untouched, and
    the sentinel [1] is not returned. *)
Theorem to_file_fresh_never_asks (pickle : pickler) (self : EmptyJob)
    (runsdir qualikizdir : string) (overwrite metapickle : bool)
    (w : world) :
  posixpath.isabs qualikizdir = true ->
  posixpath.isabs runsdir = true ->
  isdir w runsdir = true ->
  lexists w (job_dir w self runsdir) = false ->
  stdin (snd (EmptyJob_to_file pickle self runsdir qualikizdir overwrite
                metapickle w)) = stdin w /\
  stdout (snd (EmptyJob_to_file pickle self runsdir qualikizdir overwrite
                 metapickle w)) = stdout w /\
  fst (EmptyJob_to_file pickle self runsdir qualikizdir overwrite
         metapickle w) <> Ret (VInt 1).
Proof.
  intros Hq Hr Hd Hl.
  rewrite (to_file_in_runsdir pickle self runsdir qualikizdir overwrite
             metapickle w Hq Hr Hd).
  set (path := job_dir w self runsdir) in *.
  assert (Hm : (exists e, to_file_mkdir path overwrite w = (Raise e, w)) \/
               exists fs, to_file_mkdir path overwrite w
                          = (Ret None, set_files fs w)).
  { assert (Hk : (exists e, os_mkdir path w = (Raise (FS.oserror e path), w))
                 \/ exists fs, os_mkdir path w = (Ret tt, set_files fs w)).
    { unfold os_mkdir, lexists in *.
      destruct (FS.namei true w path) as [e|[k [n|]]]; [|discriminate|];
        eauto. }
    destruct Hk as [[e He]|[fs He]]; [left|right];
      unfold to_file_mkdir, try_except; unfold bind at 1; rewrite He.
    - rewrite oserror_not_exists. eauto.
    - eauto. }
  unfold bind.
  destruct Hm as [[e ->]|[fs ->]]; [cbn; repeat split; discriminate|].
  pose proof (keeps_stdin_to_file_rest pickle self path qualikizdir metapickle
                None (set_files fs w)) as Hi.
  pose proof (keeps_stdout_to_file_rest pickle self path qualikizdir
                metapickle None (set_files fs w)) as Ho.
  split; [exact Hi|]. split; [exact Ho|].
  intros H. apply pair_of_fst in H.
  apply to_file_rest_none_ret in H. discriminate.
Qed.

Lemma demo_job1_fresh :
  lexists Demo.w (job_dir Demo.w Demo.job1 Demo.runsdir) = false.
Proof. vm_compute. reflexivity. Qed.

Lemma to_file_fresh_never_asks_witness :
  posixpath.isabs Demo.toolsdir = true /\
  posixpath.isabs Demo.runsdir = true /\
  isdir Demo.w Demo.runsdir = true /\
  lexists Demo.w (job_dir Demo.w Demo.job1 Demo.runsdir) = false /\
  stdin (snd (EmptyJob_to_file Demo.toy_pickle Demo.job1 Demo.runsdir
                Demo.toolsdir false true Demo.w)) = stdin Demo.w /\
  stdout (snd (EmptyJob_to_file Demo.toy_pickle Demo.job1 Demo.runsdir
                 Demo.toolsdir false true Demo.w)) = stdout Demo.w /\
  fst (EmptyJob_to_file Demo.toy_pickle Demo.job1 Demo.runsdir Demo.toolsdir
         false true Demo.w) <> Ret (VInt 1).
Proof.
  exact (conj eq_refl (conj eq_refl (conj demo_runsdir_isdir
           (conj demo_job1_fresh
              (to_file_fresh_never_asks Demo.toy_pickle Demo.job1 Demo.runsdir
                 Demo.toolsdir false true Demo.w eq_refl eq_refl
                 demo_runsdir_isdir demo_job1_fresh))))).
Defined.

(** ** What [EmptyJob.to_file] can raise *)

Section RaisesOnly.

Variable P : exn -> Prop.

Lemma raises_only_ret {A} (a : A) : raises_only P (ret a).
Proof. intros w e w' H. discriminate. Qed.

Lemma raises_only_gets {A} (f : world -> A) : raises_only P (gets f).
Proof. intros w e w' H. discriminate. Qed.

Lemma raises_only_modify f : raises_only P (modify f).
Proof. intros w e w' H. discriminate. Qed.

Lemma raises_only_raise {A} e : P e -> raises_only P (raise e : M A).
Proof. intros He w e' w' [= <- _]. exact He. Qed.

Lemma raises_only_bind {A B} (m : M A) (k : A -> M B) :
  raises_only P m -> (forall a, raises_only P (k a)) ->
  raises_only P (bind m k).
Proof.
  intros Hm Hk w e w' H.
  apply bind_raise_inv in H as [H|(a & w1 & _ & H)]; [eapply Hm|eapply Hk];
    eauto.
Qed.

Lemma raises_only_try_except {A} (body : M A) catches (handler : exn -> M A) :
  raises_only P body ->
  (forall e, catches e = true -> raises_only P (handler e)) ->
  raises_only P (try_except body catches handler).
Proof.
  intros Hb Hh w e w' H. unfold try_except in H.
  destruct (body w) as [[a|e0] w1] eqn:E; [discriminate|].
  destruct (catches e0) eqn:Hc.
  - eapply Hh; eauto.
  - inversion H; subst. eapply Hb; eauto.
Qed.

Lemma raises_only_if {A} (b : bool) (m1 m2 : M A) :
  raises_only P m1 -> raises_only P m2 ->
  raises_only P (if b then m1 else m2).
Proof. now destruct b. Qed.

Lemma raises_only_weaken {A} (Q : exn -> Prop) (m : M A) :
  (forall e, Q e -> P e) -> raises_only Q m -> raises_only P m.
Proof. intros HQ Hm w e w' H. eapply HQ, Hm, H. Qed.

End RaisesOnly.

Lemma oserror_is_OSError e p : is_OSError (FS.oserror e p) = true.
Proof. now destruct e. Qed.

Lemma raises_os_mkdir p : raises_only os_error (os_mkdir p).
Proof.
  intros w e w'. unfold os_mkdir.
  destruct (FS.namei true w p) as [e0|[k [n|]]]; intros [= <- _];
    [apply oserror_is_OSError | reflexivity].
Qed.

Lemma raises_os_symlink src dst : raises_only os_error (os_symlink src dst).
Proof.
  intros w e w'. unfold os_symlink. case_decide; [now intros [= <- _]|].
  destruct (FS.namei true w dst) as [e0|[k [n|]]]; intros [= <- _];
    [apply oserror_is_OSError | reflexivity].
Qed.

Lemma raises_shutil_rmtree p : raises_only os_error (shutil_rmtree p).
Proof.
  intros w e w'. unfold shutil_rmtree.
  destruct (FS.namei true w p) as [e0|[k [[|x|t]|]]];
    try case_decide; intros [= <- _];
    try apply oserror_is_OSError; reflexivity.
Qed.

Lemma raises_open_w p : raises_only os_error (open_w p).
Proof.
  intros w e w'. unfold open_w.
  destruct (FS.namei false w p) as [e0|[k [[|x|t]|]]]; intros [= <- _];
    try apply oserror_is_OSError; reflexivity.
Qed.

Lemma raises_read_bytes p : raises_only os_error (read_bytes p).
Proof.
  intros w e w'. unfold read_bytes.
  destruct (FS.namei false w p) as [e0|[k [[|x|t]|]]]; intros [= <- _];
    try apply oserror_is_OSError; reflexivity.
Qed.

Lemma raises_file_write fd data : raises_only os_error (file_write fd data).
Proof. apply raises_only_modify. Qed.

Lemma raises_open_write p data :
  raises_only os_error (fd <- open_w p ;; file_write fd data).
Proof.
  apply raises_only_bind; [apply raises_open_w|].
  intros fd. apply raises_file_write.
Qed.

Lemma raises_makedirs_rec depth :
  forall name,
    raises_only (fun e => os_error e \/ e = RecursionError)
      (makedirs_rec depth name).
Proof.
  induction depth as [|depth IH]; intros name;
    [apply raises_only_raise; now right|].
  cbn [makedirs_rec]. destruct (os_path_split name) as [head tail].
  destruct (if String.eqb tail "" then os_path_split head else (head, tail))
    as [head' tail'].
  apply raises_only_bind.
  - apply raises_only_if; [|apply raises_only_ret].
    apply raises_only_bind; [apply raises_only_gets|]. intros ex.
    apply raises_only_if; [|apply raises_only_ret].
    apply raises_only_bind; [|intros; apply raises_only_ret].
    apply raises_only_try_except; [apply IH | intros; apply raises_only_ret].
  - intros c. apply raises_only_if; [|apply raises_only_ret].
    apply raises_only_try_except.
    + eapply raises_only_weaken; [|apply raises_os_mkdir]. now left.
    + intros e He. apply raises_only_bind; [apply raises_only_gets|].
      intros d. apply raises_only_if;
        [apply raises_only_raise; now left | apply raises_only_ret].
Qed.

Lemma raises_os_makedirs name : raises_only os_error (os_makedirs name).
Proof.
  intros w e w' H.
  destruct (raises_makedirs_rec _ _ _ _ _ H) as [He| ->]; [exact He|].
  exfalso. apply (os_makedirs_total name w). now rewrite H.
Qed.

Lemma os_error_not_PathException e : os_error e -> not_PathException e.
Proof. unfold os_error, not_PathException. now destruct e. Qed.

Lemma raises_input p : raises_only not_PathException (input p).
Proof.
  intros w e w'. unfold input.
  destruct (stdin (push_stdout p w)); intros [= <- _]. reflexivity.
Qed.

Lemma raises_to_file_mkdir path overwrite :
  raises_only not_PathException (to_file_mkdir path overwrite).
Proof.
  pose proof os_error_not_PathException as Hos.
  apply raises_only_try_except.
  - apply raises_only_bind; [|intros; apply raises_only_ret].
    eapply raises_only_weaken; [exact Hos | apply raises_os_mkdir].
  - intros e _. apply raises_only_bind.
    + apply raises_only_if; [|apply raises_only_ret].
      apply raises_only_bind; [apply raises_input|].
      intros resp. apply raises_only_if; apply raises_only_ret.
    + intros b. apply raises_only_if.
      * apply raises_only_bind; [apply raises_only_modify|]. intros _.
        apply raises_only_bind;
          [eapply raises_only_weaken; [exact Hos | apply raises_shutil_rmtree]|].
        intros _. apply raises_only_bind;
          [eapply raises_only_weaken; [exact Hos | apply raises_os_mkdir]|].
        intros; apply raises_only_ret.
      * apply raises_only_bind; [apply raises_only_modify|].
        intros; apply raises_only_ret.
Qed.

Lemma raises_to_file_rest pickle self path qualikizdir metapickle early :
  raises_only not_PathException
    (to_file_rest pickle self path qualikizdir metapickle early).
Proof.
  pose proof os_error_not_PathException as Hos.
  destruct early as [v|]; [apply raises_only_ret|]. cbn [to_file_rest].
  apply raises_only_bind.
  { eapply raises_only_weaken; [exact Hos|]. unfold to_file_layout.
    apply raises_only_bind; [apply raises_only_gets|]. intros ex.
    apply raises_only_bind;
      [apply raises_only_if; [apply raises_only_modify|apply raises_only_ret]|].
    intros _. apply raises_only_bind; [apply raises_os_symlink|].
    intros _. apply raises_only_bind; [apply raises_os_symlink|].
    intros _. apply raises_only_bind; [apply raises_os_makedirs|].
    intros _. apply raises_only_bind; [apply raises_os_makedirs|].
    intros _. apply raises_open_write. }
  intros _. apply raises_only_bind.
  { unfold to_file_script.
    apply raises_only_if; [|apply raises_only_ret].
    apply raises_only_bind; [|intros; apply raises_only_ret].
    unfold open_readlines.
    apply raises_only_bind;
      [eapply raises_only_weaken; [exact Hos | apply raises_read_bytes]|].
    intros c. apply raises_only_bind; [|intros; apply raises_only_ret].
    unfold decode_utf8. apply raises_only_if;
      [apply raises_only_ret | now apply raises_only_raise]. }
  intros text. apply raises_only_bind.
  { eapply raises_only_weaken; [exact Hos|]. apply raises_open_write. }
  intros _. apply raises_only_bind; [|intros; apply raises_only_ret].
  unfold to_file_snapshot. apply raises_only_if; [|apply raises_only_ret].
  unfold pickle_dump_file. apply raises_only_bind.
  - eapply raises_only_weaken; [exact Hos | apply raises_open_w].
  - intros fd. destruct (dumps pickle self).
    + apply raises_only_modify.
    + now apply raises_only_raise.
Qed.

Lemma raises_to_file_abs pickle self runsdir qualikizdir overwrite metapickle :
  posixpath.isabs qualikizdir = true ->
  posixpath.isabs runsdir = true ->
  raises_only not_PathException
    (EmptyJob_to_file pickle self runsdir qualikizdir overwrite metapickle).
Proof.
  intros Hq Hr. unfold EmptyJob_to_file. rewrite Hq, Hr. cbn [negb].
  change (raises_only not_PathException
    (d <- os_path_isdir runsdir ;;
     (if negb d then os_mkdir runsdir else ret tt) ;;
     path <- job_path self runsdir ;;
     early <- to_file_mkdir path overwrite ;;
     to_file_rest pickle self path qualikizdir metapickle early)).
  apply raises_only_bind; [apply raises_only_gets|]. intros d.
  apply raises_only_bind.
  { apply raises_only_if; [|apply raises_only_ret].
    eapply raises_only_weaken; [apply os_error_not_PathException|apply raises_os_mkdir]. }
  intros _. apply raises_only_bind.
  { unfold job_path. apply raises_only_bind; [apply raises_only_gets|].
    intros; apply raises_only_ret. }
  intros path. apply raises_only_bind;
    [apply raises_to_file_mkdir | intros; apply raises_to_file_rest].
Qed.



(** ** [Run.to_file] after [Run.__init__] *)

Lemma raises_Run_to_file_loop pickle (P : exn -> Prop) runsdir qualikizdir
    overwrite :
  (forall job, raises_only P
     (EmptyJob_to_file pickle job runsdir qualikizdir overwrite true)) ->
  forall items,
    raises_only P (Run_to_file_loop pickle items runsdir qualikizdir overwrite).
Proof.
  intros Hj items. induction items as [|[n job] rest IH];
    [apply raises_only_ret|].
  cbn [Run_to_file_loop]. apply raises_only_bind; [apply Hj | intros; apply IH].
Qed.

(** X14: once [Run.__init__] has accepted the directories,
    [Run.to_file] never raises [PathException], whichever jobs were added
    to the run in the meantime and whatever else goes wrong. *)
Theorem Run_to_file_never_PathException pickle rootdir_ qualikizdir_ runsdir_
    run items overwrite w e w' :
  Run_init rootdir_ qualikizdir_ runsdir_ = Ret run ->
  Run_to_file pickle
    (mk_Run items (rootdir run) (qualikizdir run) (runsdir run)) overwrite w
  = (Raise e, w') ->
  is_PathException e = false.
Proof.
  intros Hi H. apply Run_init_inv in Hi as (_ & Hq & Hr & _).
  revert H. unfold Run_to_file. cbn [jobs runsdir qualikizdir].
  generalize w e w'.
  change (raises_only not_PathException
            (Run_to_file_loop pickle items (runsdir run) (qualikizdir run)
               overwrite ;; ret VNone)).
  apply raises_only_bind; [|intros; apply raises_only_ret].
  apply raises_Run_to_file_loop. intros job.
  now apply raises_to_file_abs.
Qed.

Lemma demo_run_wrong_tools :
  Run_to_file Demo.toy_pickle Demo.run_wrong_tools false Demo.w
  = (Raise Demo.template_missing,
     snd (Run_to_file Demo.toy_pickle Demo.run_wrong_tools false Demo.w)).
Proof. apply pair_of_fst. vm_compute. reflexivity. Qed.

Lemma Run_to_file_never_PathException_witness :
  Run_init "/opt/QuaLiKiz" "/opt/QuaLiKiz/tools" ""
  = Ret (mk_Run [] "/opt/QuaLiKiz" "/opt/QuaLiKiz/tools" Demo.runsdir) /\
  Run_to_file Demo.toy_pickle Demo.run_wrong_tools false Demo.w
  = (Raise Demo.template_missing,
     snd (Run_to_file Demo.toy_pickle Demo.run_wrong_tools false Demo.w)) /\
  is_PathException Demo.template_missing = false.
Proof.
  exact (conj eq_refl
           (conj demo_run_wrong_tools
              (Run_to_file_never_PathException Demo.toy_pickle
                 "/opt/QuaLiKiz" "/opt/QuaLiKiz/tools" ""
                 (mk_Run [] "/opt/QuaLiKiz" "/opt/QuaLiKiz/tools" Demo.runsdir)
                 [("job1", Demo.job1); ("job2", Demo.job2)] false Demo.w
                 Demo.template_missing _ eq_refl demo_run_wrong_tools))).
Defined.

(** ** What [EmptyJob.to_file] never removes *)

Lemma stays_refl n : stays n n.
Proof. destruct n; cbn; eauto. Qed.

Lemma stays_trans n1 n2 n3 : stays n1 n2 -> stays n2 n3 -> stays n1 n3.
Proof.
  destruct n1; cbn; intros H12 H23; subst; try exact H23.
  destruct H12 as [c ->]. exact H23.
Qed.

Lemma extends_refl w : extends w w.
Proof. split; [reflexivity|]. intros k n H. eauto using stays_refl. Qed.

Lemma extends_trans w1 w2 w3 : extends w1 w2 -> extends w2 w3 -> extends w1 w3.
Proof.
  intros [Hc1 H1] [Hc2 H2]. split; [congruence|]. intros k n Hk.
  destruct (H1 _ _ Hk) as (n' & Hk' & Hs).
  destruct (H2 _ _ Hk') as (n'' & Hk'' & Hs').
  eauto using stays_trans.
Qed.

Lemma extends_same_files w w' :
  files w' = files w -> cwd w' = cwd w -> extends w w'.
Proof.
  intros Hf Hc. split; [exact Hc|]. intros k n H. rewrite Hf.
  eauto using stays_refl.
Qed.

Lemma lookup_node_free fs k : FS.lookup_node fs k = None -> fs !! k = None.
Proof. destruct k; [discriminate | exact id]. Qed.

Lemma lookup_node_file fs k c :
  FS.lookup_node fs k = Some (File c) -> fs !! k = Some (File c).
Proof. destruct k; [discriminate | exact id]. Qed.

Lemma extends_insert_free w k n :
  files w !! k = None -> extends w (set_files (<[k := n]> (files w)) w).
Proof.
  intros Hk. split; [reflexivity|]. intros k' n' H. cbn [files set_files].
  destruct (decide (k' = k)) as [->|Hne]; [congruence|].
  rewrite lookup_insert_ne by congruence. eauto using stays_refl.
Qed.

Lemma extends_insert_file w k c c' :
  files w !! k = Some (File c) ->
  extends w (set_files (<[k := File c']> (files w)) w).
Proof.
  intros Hk. split; [reflexivity|]. intros k' n' H. cbn [files set_files].
  destruct (decide (k' = k)) as [->|Hne].
  - rewrite lookup_insert_eq. rewrite Hk in H. injection H as <-.
    cbn. eauto.
  - rewrite lookup_insert_ne by congruence. eauto using stays_refl.
Qed.

Lemma extends_os_mkdir p : respects extends (os_mkdir p).
Proof.
  intros w. unfold os_mkdir.
  destruct (FS.namei true w p) as [e|[k [n|]]] eqn:E; cbn [snd];
    try apply extends_refl.
  apply extends_insert_free, lookup_node_free. symmetry.
  exact (namei_lookup _ _ _ _ _ E).
Qed.

Lemma extends_os_symlink src dst : respects extends (os_symlink src dst).
Proof.
  intros w. unfold os_symlink. case_decide; [apply extends_refl|].
  destruct (FS.namei true w dst) as [e|[k [n|]]] eqn:E; cbn [snd];
    try apply extends_refl.
  apply extends_insert_free, lookup_node_free. symmetry.
  exact (namei_lookup _ _ _ _ _ E).
Qed.

Lemma extends_open_w p : respects extends (open_w p).
Proof.
  intros w. unfold open_w.
  destruct (FS.namei false w p) as [e|[k [[|x|t]|]]] eqn:E; cbn [snd];
    try apply extends_refl; apply namei_lookup in E.
  - eapply extends_insert_file, lookup_node_file. symmetry. exact E.
  - apply extends_insert_free, lookup_node_free. symmetry. exact E.
Qed.

Lemma extends_file_write fd data : respects extends (file_write fd data).
Proof.
  intros w. unfold file_write, modify. cbn [snd].
  destruct (files w !! fd) as [[|x|t]|] eqn:E; try apply extends_refl.
  eapply extends_insert_file. exact E.
Qed.

Lemma extends_warn x : respects extends (warn x).
Proof. intros w. now apply extends_same_files. Qed.

Lemma extends_print s : respects extends (print s).
Proof. intros w. now apply extends_same_files. Qed.

Lemma extends_to_file_rest pickle self path qualikizdir metapickle early :
  respects extends (to_file_rest pickle self path qualikizdir metapickle early).
Proof.
  exact (respects_to_file_rest pickle extends extends_refl extends_trans
           extends_os_mkdir extends_os_symlink extends_open_w
           extends_file_write extends_warn self path qualikizdir metapickle
           early).
Qed.

(** The creation of the job directory when the caller has not asked for
    the overwrite and no consent is waiting on the terminal. *)
Lemma extends_to_file_mkdir_no_consent path w :
  (forall resp rest, stdin w = resp :: rest -> affirmative resp = false) ->
  extends w (snd (to_file_mkdir path false w)).
Proof.
  intros Hin. unfold to_file_mkdir, try_except. unfold bind at 1.
  pose proof (extends_os_mkdir path w) as Hm.
  destruct (os_mkdir path w) as [[[]|e] w1] eqn:E; cbn [snd] in *;
    [exact Hm|].
  assert (w1 = w) as ->.
  { revert E. unfold os_mkdir.
    destruct (FS.namei true w path) as [e0|[k [n|]]]; now intros [= _ <-]. }
  destruct (is_FileExistsError e); [|apply extends_refl].
  cbn [negb]. unfold bind at 1. unfold bind at 1. unfold input.
  cbn [stdin push_stdout].
  destruct (stdin w) as [|resp rest] eqn:Es;
    [now apply extends_same_files|].
  fold (affirmative resp). rewrite (Hin resp rest eq_refl).
  now apply extends_same_files.
Qed.

Lemma os_mkdir_stdin p w : stdin (snd (os_mkdir p w)) = stdin w.
Proof. exact (keeps_os_mkdir stdin stdin_files p w). Qed.

(** X15: when the caller has not asked for the overwrite and the next
    answer on the terminal (if there is one) is not a consent,
    [EmptyJob.to_file] removes nothing, however it ends: every directory,
    link and file that was there is still there, a directory still a
    directory, a link still the same link, a file still a file; and the
    working directory is the same. *)
Theorem to_file_without_consent_removes_nothing pickle self runsdir
    qualikizdir metapickle w :
  (forall resp rest, stdin w = resp :: rest -> affirmative resp = false) ->
  extends w
    (snd (EmptyJob_to_file pickle self runsdir qualikizdir false metapickle w)).
Proof.
  intros Hin. unfold EmptyJob_to_file.
  destruct (negb (posixpath.isabs qualikizdir)); [apply extends_refl|].
  destruct (negb (posixpath.isabs runsdir)); [apply extends_refl|].
  unfold bind at 1. unfold os_path_isdir at 1, gets at 1.
  unfold bind at 1.
  assert (H1 : extends w
            (snd ((if negb (isdir w runsdir) then os_mkdir runsdir else ret tt)
                    w)) /\
          stdin (snd ((if negb (isdir w runsdir) then os_mkdir runsdir
                       else ret tt) w)) = stdin w).
  { destruct (negb (isdir w runsdir)).
    - split; [apply extends_os_mkdir | apply os_mkdir_stdin].
    - split; [apply extends_refl | reflexivity]. }
  destruct ((if negb (isdir w runsdir) then os_mkdir runsdir else ret tt) w)
    as [[[]|e] w1]; cbn [snd] in H1; destruct H1 as [H1 Hs]; [|exact H1].
  unfold bind at 1. unfold job_path, os_getcwd. unfold bind at 1.
  unfold gets at 1, ret at 1.
  set (path := posixpath.abspath _ _).
  change (extends w
    (snd (bind (to_file_mkdir path false)
            (to_file_rest pickle self path qualikizdir metapickle) w1))).
  unfold bind.
  assert (H2 : extends w1 (snd (to_file_mkdir path false w1))).
  { apply extends_to_file_mkdir_no_consent. now rewrite Hs. }
  destruct (to_file_mkdir path false w1) as [[early|e] w2]; cbn [snd] in H2.
  - eapply extends_trans; [exact H1|]. eapply extends_trans; [exact H2|].
    apply extends_to_file_rest.
  - eapply extends_trans; eauto.
Qed.

(** ** Resolution in a file system that has grown *)

Section Grow.

Variables fs fs' : gmap (list string) node.
Hypothesis grows :
  forall k n, fs !! k = Some n -> exists n', fs' !! k = Some n' /\ stays n n'.

Lemma grows_dir k : fs !! k = Some Dir -> fs' !! k = Some Dir.
Proof. intros H. destruct (grows _ _ H) as (n' & -> & Hs). now rewrite Hs. Qed.

Lemma grows_symlink k t :
  fs !! k = Some (Symlink t) -> fs' !! k = Some (Symlink t).
Proof. intros H. destruct (grows _ _ H) as (n' & -> & Hs). now rewrite Hs. Qed.

Lemma grows_file k x : fs !! k = Some (File x) -> exists x', fs' !! k = Some (File x').
Proof.
  intros H. destruct (grows _ _ H) as (n' & -> & [x' ->]). now exists x'.
Qed.

Lemma grows_lookup_node k n :
  FS.lookup_node fs k = Some n ->
  exists n', FS.lookup_node fs' k = Some n' /\ stays n n'.
Proof.
  destruct k; cbn; [|apply grows].
  intros [= <-]. exists Dir. now split.
Qed.

(** What a path resolved to, it still resolves to. *)
Lemma walk_grow nf fuel :
  forall comps cur k n,
    FS.walk fuel fs nf cur comps = inr (k, Some n) ->
    exists n', FS.walk fuel fs' nf cur comps = inr (k, Some n') /\ stays n n'.
Proof.
  induction fuel as [|fuel IHfuel]; intros comps;
    induction comps as [|c rest IH]; intros cur k n;
    rewrite ?walk_nil, ?walk_cons.
  1,3: intros [= <- H]; destruct (grows_lookup_node _ _ H) as (n' & -> & Hs);
       eauto.
  all: destruct (decide (c = ".")); [now apply IH|];
       destruct (decide (c = "..")); [now apply IH|].
  all: destruct (fs !! (cur ++ [c])) as [[|x|t]|] eqn:E.
  all: try (rewrite (grows_dir _ E); now apply IH).
  all: try (destruct (grows_file _ _ E) as [x' ->]; case_decide;
            [intros [= <- <-]; exists (File x'); split; [reflexivity|];
             cbn; eauto | discriminate]).
  all: try (case_decide; discriminate).
  all: rewrite (grows_symlink _ _ E);
       destruct (bool_decide (rest = []) && nf);
       [intros [= <- <-]; exists (Symlink t); now split|]; try discriminate.
  case_decide; [discriminate|]. apply IHfuel.
Qed.

(** Where a path ended on a free name, it ends on what has been put
    there: for lstat always, for stat unless that is a link. *)
Lemma walk_fill nf nf' fuel :
  nf = true \/ nf' = nf ->
  forall comps cur k,
    FS.walk fuel fs nf cur comps = inr (k, None) ->
    (forall t, fs' !! k = Some (Symlink t) -> nf' = true) ->
    FS.walk fuel fs' nf' cur comps = inr (k, fs' !! k).
Proof.
  intros Hnf.
  induction fuel as [|fuel IHfuel]; intros comps;
    induction comps as [|c rest IH]; intros cur k;
    rewrite ?walk_nil, ?walk_cons.
  1,3: intros [= <- H] _; destruct cur; [discriminate | reflexivity].
  all: destruct (decide (c = ".")); [now apply IH|];
       destruct (decide (c = "..")); [now apply IH|].
  all: destruct (fs !! (cur ++ [c])) as [[|x|t]|] eqn:E.
  all: try (rewrite (grows_dir _ E); now apply IH).
  all: try (case_decide; discriminate).
  all: try (destruct (bool_decide (rest = []) && nf) eqn:Eb; [discriminate|];
            intros H Hl; rewrite (grows_symlink _ _ E);
            assert (bool_decide (rest = []) && nf' = false) as ->
              by (destruct Hnf as [->| ->];
                  [rewrite andb_true_r in Eb; now rewrite Eb | exact Eb])).
  all: try discriminate.
  all: try (case_decide; [discriminate|]; now apply IHfuel).
  all: case_decide; [|discriminate]; intros [= <-] Hl; subst rest;
       destruct (fs' !! (cur ++ [c])) as [[|x|t]|] eqn:E';
       rewrite ?walk_nil, ?lookup_node_snoc, ?E'; try reflexivity;
       try (now case_decide);
       rewrite (Hl t eq_refl); reflexivity.
Qed.

End Grow.

Lemma namei_extends nf w w' p k n :
  extends w w' ->
  FS.namei nf w p = inr (k, Some n) ->
  exists n', FS.namei nf w' p = inr (k, Some n') /\ stays n n'.
Proof.
  intros [Hc Hg]. unfold FS.namei. case_decide; [discriminate|].
  rewrite Hc. now apply walk_grow.
Qed.

Lemma isdir_extends w w' p : extends w w' -> isdir w p = true -> isdir w' p = true.
Proof.
  intros He. unfold isdir.
  destruct (FS.namei false w p) as [e|[k [[|x|t]|]]] eqn:E; try discriminate.
  destruct (namei_extends _ _ _ _ _ _ He E) as (n' & -> & ->). reflexivity.
Qed.

Lemma isfile_extends w w' p :
  extends w w' -> isfile w p = true -> isfile w' p = true.
Proof.
  intros He. unfold isfile.
  destruct (FS.namei false w p) as [e|[k [[|x|t]|]]] eqn:E; try discriminate.
  destruct (namei_extends _ _ _ _ _ _ He E) as (n' & -> & [x' ->]). reflexivity.
Qed.

Lemma readlink_extends w w' p t :
  extends w w' -> readlink w p = Some t -> readlink w' p = Some t.
Proof.
  intros He. unfold readlink.
  destruct (FS.namei true w p) as [e|[k [[|x|t']|]]] eqn:E; try discriminate.
  destruct (namei_extends _ _ _ _ _ _ He E) as (n' & -> & ->). exact id.
Qed.

Lemma namei_fill nf' w p k n :
  FS.namei true w p = inr (k, None) ->
  (forall t, n = Symlink t -> nf' = true) ->
  FS.namei nf' (set_files (<[k := n]> (files w)) w) p = inr (k, Some n).
Proof.
  unfold FS.namei. case_decide as Hp; [discriminate|]. intros H Hn.
  simpl.
  pose proof (walk_lookup _ _ _ _ _ _ _ H) as Hk.
  apply eq_sym, lookup_node_free in Hk.
  pose proof (walk_fill (files w) (<[k := n]> (files w))
                (proj2 (extends_insert_free w k n Hk)) true nf' _
                (or_introl eq_refl) _ _ _ H) as Hf.
  etransitivity; [apply Hf|].
  - intros t Ht. apply (Hn t).
    assert (Hs : Some n = Some (Symlink t))
      by (rewrite <- Ht; symmetry; apply lookup_insert_eq).
    now injection Hs.
  - do 2 f_equal. apply lookup_insert_eq.
Qed.

Lemma os_mkdir_isdir p w w1 :
  os_mkdir p w = (Ret tt, w1) -> isdir w1 p = true.
Proof.
  unfold os_mkdir.
  destruct (FS.namei true w p) as [e|[k [n|]]] eqn:E; intros [= <-].
  unfold isdir. rewrite (namei_fill false _ _ _ Dir E); [reflexivity|].
  discriminate.
Qed.

Lemma os_symlink_readlink src dst w w1 :
  os_symlink src dst w = (Ret tt, w1) -> readlink w1 dst = Some src.
Proof.
  unfold os_symlink. case_decide; [discriminate|].
  destruct (FS.namei true w dst) as [e|[k [n|]]] eqn:E; intros [= <-].
  unfold readlink. now rewrite (namei_fill true _ _ _ (Symlink src) E).
Qed.

Lemma holds_isfile w p c : holds w p c -> isfile w p = true.
Proof. intros [k H]. unfold isfile. now rewrite H. Qed.

(** [os.makedirs] returns with the directory in place, unless the path
    ends in a slash or in a dot. *)
Lemma makedirs_rec_isdir depth name w w1 :
  posixpath.basename name <> "" ->
  posixpath.basename name <> "." ->
  makedirs_rec depth name w = (Ret tt, w1) ->
  isdir w1 name = true.
Proof.
  intros Hne Hdot. destruct depth as [|depth]; [discriminate|].
  cbn [makedirs_rec].
  assert (Ht : snd (os_path_split name) = posixpath.basename name)
    by reflexivity.
  destruct (os_path_split name) as [head tail]. cbn [snd] in Ht. subst tail.
  apply String.eqb_neq in Hne, Hdot. rewrite Hne.
  intros H. bind_inv H as c w0 Hc.
  assert (c = true) as ->.
  { rewrite Hne in Hc.
    destruct (negb (String.eqb head "") && negb false);
      [|now inversion Hc].
    bind_inv Hc as ex w2 Hex. destruct (negb ex); [|now inversion Hc].
    bind_inv Hc as u w3 Hu. rewrite Hdot in Hc. now inversion Hc. }
  unfold try_except in H.
  destruct (os_mkdir name w0) as [[[]|e] w4] eqn:Em.
  - injection H as <-. now apply os_mkdir_isdir in Em.
  - destruct (is_OSError e); [|discriminate].
    unfold bind, os_path_isdir, gets in H.
    destruct (isdir w4 name) eqn:Ed; cbn [negb] in H; [|discriminate].
    now injection H as <-.
Qed.

(** ** The names inside the job directory *)

Lemma split_app_sep a b :
  Py.split "/" (a +:+ String "/" b) = Py.split "/" a ++ Py.split "/" b.
Proof.
  induction a as [|c a IH]; [reflexivity|].
  change (String c a +:+ String "/" b) with (String c (a +:+ String "/" b)).
  cbn [Py.split]. rewrite IH. destruct (Ascii.eqb c "/"); [reflexivity|].
  pose proof (split_nonempty "/" a) as Hne.
  destruct (Py.split "/" a) as [|x xs]; [contradiction | reflexivity].
Qed.

Lemma endswith_sep a :
  Py.endswith_char "/" a = true -> exists a', a = a' +:+ "/".
Proof.
  unfold Py.endswith_char. induction a as [|c a IH]; [discriminate|].
  cbn [Py.last_char]. destruct a as [|d a].
  - intros H. apply Ascii.eqb_eq in H as <-. now exists "".
  - intros H. destruct (IH H) as [a' ->]. now exists (String c a').
Qed.

Lemma basename_app_sep a b :
  posixpath.basename (a +:+ String "/" b) = posixpath.basename b.
Proof.
  unfold posixpath.basename. change posixpath.sep with "/"%char.
  rewrite split_app_sep. pose proof (split_nonempty "/" b) as Hne.
  destruct (Py.split "/" b) as [|x xs] using rev_ind; [contradiction|].
  now rewrite app_assoc, !last_snoc.
Qed.

Lemma basename_join a b :
  Py.startswith "/" b = false ->
  posixpath.basename (posixpath.join a b) = posixpath.basename b.
Proof.
  intros Hb. unfold posixpath.join. rewrite Hb.
  destruct (String.eqb_spec a "") as [->|Ha]; [reflexivity|]. cbn [orb].
  change posixpath.sep with "/"%char.
  destruct (Py.endswith_char "/" a) eqn:E.
  - destruct (endswith_sep _ E) as [a' ->].
    rewrite str_app_assoc.
    change ("/" +:+ b) with (String "/" b). apply basename_app_sep.
  - change ("/" +:+ b) with (String "/" b). apply basename_app_sep.
Qed.

(** ** What a materialization leaves in the job directory *)

Lemma respects_ret_inv {A} (R : world -> world -> Prop) (m : M A) w a w' :
  respects R m -> m w = (Ret a, w') -> R w w'.
Proof. intros Hm H. specialize (Hm w). now rewrite H in Hm. Qed.

Lemma to_file_mkdir_isdir path overwrite w w' :
  to_file_mkdir path overwrite w = (Ret None, w') -> isdir w' path = true.
Proof.
  unfold to_file_mkdir, try_except. unfold bind at 1.
  destruct (os_mkdir path w) as [[[]|e] w1] eqn:Em.
  { intros [= <-]. now apply os_mkdir_isdir in Em. }
  destruct (is_FileExistsError e); [|discriminate].
  intros H. bind_inv H as b w2 Hb. destruct b; [|bind_inv H as u w3 Hu; discriminate].
  bind_inv H as u w3 Hu. bind_inv H as u' w4 Hr. bind_inv H as u'' w5 Hm.
  injection H as <-. destruct u''. now apply os_mkdir_isdir in Hm.
Qed.

Lemma extends_open_write p data :
  respects extends (fd <- open_w p ;; file_write fd data).
Proof.
  apply respects_bind; [exact extends_trans | apply extends_open_w|].
  intros fd. apply extends_file_write.
Qed.

Lemma extends_os_makedirs name : respects extends (os_makedirs name).
Proof.
  exact (respects_os_makedirs extends extends_refl extends_trans name
           extends_os_mkdir).
Qed.

Lemma os_makedirs_isdir name w w1 :
  posixpath.basename name <> "" ->
  posixpath.basename name <> "." ->
  os_makedirs name w = (Ret tt, w1) ->
  isdir w1 name = true.
Proof. apply makedirs_rec_isdir. Qed.

Lemma to_file_layout_inv self path qualikizdir w w' :
  to_file_layout self path qualikizdir w = (Ret tt, w') ->
  extends w w' /\
  readlink w' (posixpath.join path (posixpath.basename (binary_path self)))
  = Some (binary_path self) /\
  readlink w' (posixpath.join path "qualikiz") = Some qualikizdir /\
  isdir w' (posixpath.join path "output/primitive") = true /\
  isdir w' (posixpath.join path "debug") = true /\
  holds w' (posixpath.join path Names.scriptname) (rendered (batch self)).
Proof.
  unfold to_file_layout, Batch_to_file. intros H.
  bind_inv H as ex w0 H0. injection H0 as <- <-.
  bind_inv H as u1 w1 H1.
  assert (E1 : extends w w1).
  { destruct (negb _); [|inversion H1; subst; apply extends_refl].
    exact (respects_ret_inv _ _ _ _ _ (extends_warn _) H1). }
  bind_inv H as u2 w2 H2. bind_inv H as u3 w3 H3. bind_inv H as u4 w4 H4.
  bind_inv H as u5 w5 H5.
  pose proof (respects_ret_inv _ _ _ _ _ (extends_os_symlink _ _) H2) as E2.
  pose proof (respects_ret_inv _ _ _ _ _ (extends_os_symlink _ _) H3) as E3.
  pose proof (respects_ret_inv _ _ _ _ _ (extends_os_makedirs _) H4) as E4.
  pose proof (respects_ret_inv _ _ _ _ _ (extends_os_makedirs _) H5) as E5.
  pose proof (respects_ret_inv _ _ _ _ _ (extends_open_write _ _) H) as E6.
  destruct u2, u3, u4, u5.
  apply os_symlink_readlink in H2, H3.
  apply os_makedirs_isdir in H4, H5;
    try (rewrite basename_join by reflexivity; discriminate).
  apply open_write_holds in H.
  pose proof (extends_trans _ _ _ E5 E6) as E56.
  pose proof (extends_trans _ _ _ E4 E56) as E46.
  pose proof (extends_trans _ _ _ E3 E46) as E36.
  pose proof (extends_trans _ _ _ E2 E36) as E26.
  split; [exact (extends_trans _ _ _ E1 E26)|].
  split; [exact (readlink_extends _ _ _ _ E36 H2)|].
  split; [exact (readlink_extends _ _ _ _ E46 H3)|].
  split; [exact (isdir_extends _ _ _ E56 H4)|].
  split; [exact (isdir_extends _ _ _ E6 H5) | exact H].
Qed.

Lemma extends_to_file_snapshot pickle self path metapickle :
  respects extends (to_file_snapshot pickle self path metapickle).
Proof.
  unfold to_file_snapshot, pickle_dump_file.
  destruct metapickle; [|intros w; apply extends_refl].
  apply respects_bind; [exact extends_trans | apply extends_open_w|].
  intros fd. destruct (dumps pickle self);
    [apply extends_file_write | intros w; apply extends_refl].
Qed.

(** X16: a materialization that runs to its end leaves the job
    directory as a directory that holds the link to the binary (under the
    binary's base name) and the link [qualikiz] to the tools directory,
    the directories [output/primitive] and [debug], and the files
    [edison.sbatch] and [parameters.py], with [jobdata.pkl] when the
    snapshot is asked for. *)
Theorem to_file_layout_made pickle self runsdir qualikizdir overwrite
    metapickle w w' :
  EmptyJob_to_file pickle self runsdir qualikizdir overwrite metapickle w
  = (Ret VNone, w') ->
  isdir w' (job_dir w self runsdir) = true /\
  readlink w' (posixpath.join (job_dir w self runsdir)
                 (posixpath.basename (binary_path self)))
  = Some (binary_path self) /\
  readlink w' (posixpath.join (job_dir w self runsdir) "qualikiz")
  = Some qualikizdir /\
  isdir w' (posixpath.join (job_dir w self runsdir) "output/primitive")
  = true /\
  isdir w' (posixpath.join (job_dir w self runsdir) "debug") = true /\
  isfile w' (posixpath.join (job_dir w self runsdir) "edison.sbatch")
  = true /\
  isfile w' (posixpath.join (job_dir w self runsdir) "parameters.py")
  = true /\
  (metapickle = true ->
   isfile w' (posixpath.join (job_dir w self runsdir) "jobdata.pkl") = true).
Proof.
  intros H.
  destruct (to_file_inv _ _ _ _ _ _ _ _ H)
    as (w1 & w2 & w3 & text & w4 & Hm & Hl & _ & Hp & Hs).
  apply to_file_mkdir_isdir in Hm.
  apply to_file_layout_inv in Hl as (E23 & Hb & Hq & Ho & Hd & Hsc).
  pose proof (respects_ret_inv _ _ _ _ _ (extends_open_write _ _) Hp) as E34.
  pose proof (respects_ret_inv _ _ _ _ _
                (extends_to_file_snapshot pickle self _ metapickle) Hs) as E45.
  pose proof (extends_trans _ _ _ E34 E45) as E35.
  apply open_write_holds, holds_isfile in Hp. apply holds_isfile in Hsc.
  split; [exact (isdir_extends _ _ _ (extends_trans _ _ _ E23 E35) Hm)|].
  split; [exact (readlink_extends _ _ _ _ E35 Hb)|].
  split; [exact (readlink_extends _ _ _ _ E35 Hq)|].
  split; [exact (isdir_extends _ _ _ E35 Ho)|].
  split; [exact (isdir_extends _ _ _ E35 Hd)|].
  split; [exact (isfile_extends _ _ _ E35 Hsc)|].
  split; [exact (isfile_extends _ _ _ E45 Hp)|].
  intros ->. unfold to_file_snapshot, pickle_dump_file in Hs.
  destruct (dumps pickle self) as [data|] eqn:Hdump.
  - now apply open_write_holds, holds_isfile in Hs.
  - bind_inv Hs as fd w5 Ho'. discriminate.
Qed.

Lemma to_file_layout_made_witness :
  EmptyJob_to_file Demo.toy_pickle Demo.job1 Demo.runsdir Demo.toolsdir
    false true Demo.w
  = (Ret VNone,
     snd (EmptyJob_to_file Demo.toy_pickle Demo.job1 Demo.runsdir
            Demo.toolsdir false true Demo.w)) /\
  isdir (snd (EmptyJob_to_file Demo.toy_pickle Demo.job1 Demo.runsdir
                Demo.toolsdir false true Demo.w))
    (job_dir Demo.w Demo.job1 Demo.runsdir) = true /\
  readlink (snd (EmptyJob_to_file Demo.toy_pickle Demo.job1 Demo.runsdir
                   Demo.toolsdir false true Demo.w))
    (posixpath.join (job_dir Demo.w Demo.job1 Demo.runsdir)
       (posixpath.basename (binary_path Demo.job1)))
  = Some (binary_path Demo.job1) /\
  readlink (snd (EmptyJob_to_file Demo.toy_pickle Demo.job1 Demo.runsdir
                   Demo.toolsdir false true Demo.w))
    (posixpath.join (job_dir Demo.w Demo.job1 Demo.runsdir) "qualikiz")
  = Some Demo.toolsdir /\
  isdir (snd (EmptyJob_to_file Demo.toy_pickle Demo.job1 Demo.runsdir
                Demo.toolsdir false true Demo.w))
    (posixpath.join (job_dir Demo.w Demo.job1 Demo.runsdir) "output/primitive")
  = true /\
  isdir (snd (EmptyJob_to_file Demo.toy_pickle Demo.job1 Demo.runsdir
                Demo.toolsdir false true Demo.w))
    (posixpath.join (job_dir Demo.w Demo.job1 Demo.runsdir) "debug") = true /\
  isfile (snd (EmptyJob_to_file Demo.toy_pickle Demo.job1 Demo.runsdir
                 Demo.toolsdir false true Demo.w))
    (posixpath.join (job_dir Demo.w Demo.job1 Demo.runsdir) "edison.sbatch")
  = true /\
  isfile (snd (EmptyJob_to_file Demo.toy_pickle Demo.job1 Demo.runsdir
                 Demo.toolsdir false true Demo.w))
    (posixpath.join (job_dir Demo.w Demo.job1 Demo.runsdir) "parameters.py")
  = true /\
  (true = true ->
   isfile (snd (EmptyJob_to_file Demo.toy_pickle Demo.job1 Demo.runsdir
                  Demo.toolsdir false true Demo.w))
     (posixpath.join (job_dir Demo.w Demo.job1 Demo.runsdir) "jobdata.pkl")
   = true).
Proof.
  exact (conj demo_job1_to_file
           (to_file_layout_made Demo.toy_pickle Demo.job1 Demo.runsdir
              Demo.toolsdir false true Demo.w _ demo_job1_to_file)).
Defined.

Lemma to_file_without_consent_removes_nothing_witness :
  (forall resp rest, stdin Demo.w = resp :: rest -> affirmative resp = false) /\
  extends Demo.w
    (snd (EmptyJob_to_file Demo.toy_pickle Demo.job_old Demo.runsdir
            Demo.toolsdir false true Demo.w)).
Proof.
  assert (H : forall resp rest,
             stdin Demo.w = resp :: rest -> affirmative resp = false)
    by (intros resp rest [= <- _]; reflexivity).
  exact (conj H
           (to_file_without_consent_removes_nothing Demo.toy_pickle
              Demo.job_old Demo.runsdir Demo.toolsdir true Demo.w H)).
Defined.
